(** * PiPhi: front-panel controller for the pianobar client

    A shallow embedding of [PiPhi.py]: the station-list scraper
    ([get_stations]), the marquee, the station menu, the pianobar output
    parser and the main loop's button and volume logic, followed by the
    properties checked against the specification.

    Conventions of the embedding:
    - Python [int] is [Z]; Python [float] (volumes, the speed of the volume
      change, [time.time()]) is an exact rational [Q], so arithmetic is
      without rounding ([vol_speed *= 1.15] multiplies by 115/100); the
      comparisons and the clamping of the source are the same on both.
      [int(x + 0.5)] on a double can differ by one from the exact value
      when [x + 0.5] is within rounding of an integer; on volumes that are
      a whole number of quarters the two agree.  Infinities, NaN and a
      pickle file that holds something else than a number are outside the
      model.
    - [time.time()] is read once per pass of the main loop.
    - Python [str] is [string], of 8-bit characters; slices, [find],
      [strip] and [*] follow Python's semantics, negative and out-of-range
      indices included.  The output of pianobar is taken as text: on ASCII
      [bytes.decode()] gives it back as it is, and a [UnicodeDecodeError]
      is outside the model.  [s * n] is built whatever [n]; Python fails
      on a count of a size it cannot allocate.
    - Start-up is modelled from the point where the network was found,
      pianobar was spawned and both [expect] calls in front of the station
      list have matched; the [exit(0)] of the network wait and a [TIMEOUT]
      or [EOF] of those calls are outside the model, as is what start-up
      draws on the display.
    - The LCD and the pianobar child process are a trace of [action]s.
    - [print] calls (diagnostics on stdout) are left out. *)

From Stdlib Require Import ZArith QArith Qminmax String Ascii List Bool Lia Lqa.
Import ListNotations.
Open Scope Z_scope.

(* ====================================================================== *)
(** ** Python primitives *)

Module Py.

(** Normalisation of one slice bound against a length, as [s[a:b]] does. *)
Definition norm (len i : Z) : Z :=
  if i <? 0 then Z.max 0 (i + len) else Z.min i len.

(** [l[a:b]] *)
Definition slice {A : Type} (l : list A) (a b : Z) : list A :=
  let n := Z.of_nat (List.length l) in
  let a' := norm n a in
  let b' := norm n b in
  firstn (Z.to_nat (b' - a')) (skipn (Z.to_nat a') l).

(** [l[a:]] *)
Definition slice_from {A : Type} (l : list A) (a : Z) : list A :=
  skipn (Z.to_nat (norm (Z.of_nat (List.length l)) a)) l.

(** [l[i]]; [None] stands for [IndexError]. *)
Definition index {A : Type} (l : list A) (i : Z) : option A :=
  let n := Z.of_nat (List.length l) in
  let j := if i <? 0 then i + n else i in
  if (0 <=? j) && (j <? n) then nth_error l (Z.to_nat j) else None.

(** [l.index(x)] on a list of strings; [None] stands for [ValueError]. *)
Fixpoint list_index (x : string) (l : list string) : option Z :=
  match l with
  | [] => None
  | y :: l' =>
      if String.eqb y x then Some 0
      else match list_index x l' with
           | Some k => Some (k + 1)
           | None => None
           end
  end.

Definition len (s : string) : Z := Z.of_nat (String.length s).

(** [s[a:b]] and [s[a:]] on strings *)
Definition sslice (s : string) (a b : Z) : string :=
  string_of_list_ascii (slice (list_ascii_of_string s) a b).

Definition sslice_from (s : string) (a : Z) : string :=
  string_of_list_ascii (slice_from (list_ascii_of_string s) a).

(** [s * n]; a count below one gives the empty string. *)
Fixpoint repeat_nat (s : string) (n : nat) : string :=
  match n with
  | O => EmptyString
  | S n' => append s (repeat_nat s n')
  end.

Definition mul (s : string) (n : Z) : string := repeat_nat s (Z.to_nat n).

(** [chr(n)] of a small code, as a one-character string *)
Definition chr (n : Z) : string :=
  String (ascii_of_nat (Z.to_nat n)) EmptyString.

(** [s.find(pat)]: lowest index of an occurrence, [-1] when there is none *)
Fixpoint find_from (pat s : string) (i : Z) : Z :=
  if prefix pat s then i
  else match s with
       | EmptyString => -1
       | String _ s' => find_from pat s' (i + 1)
       end.

Definition find (s pat : string) : Z := find_from pat s 0.

(** Truth value of an [int] used as a condition *)
Definition truthy (z : Z) : bool := negb (z =? 0).

(** [str.isspace] on the code points below 256: the ASCII whitespace,
    U+0085 and U+00A0 *)
Definition isspace (c : ascii) : bool :=
  let n := nat_of_ascii c in
  ((9 <=? n) && (n <=? 13) || (28 <=? n) && (n <=? 32) ||
   (n =? 133) || (n =? 160))%nat.

Fixpoint lstrip_list (l : list ascii) : list ascii :=
  match l with
  | [] => []
  | c :: l' => if isspace c then lstrip_list l' else l
  end.

(** [s.strip()] *)
Definition strip (s : string) : string :=
  string_of_list_ascii
    (rev (lstrip_list (rev (lstrip_list (list_ascii_of_string s))))).

(** [int(q)]: truncation towards zero *)
Definition int (q : Q) : Z := Z.quot (Qnum q) (Zpos (Qden q)).

(** [int(a / b)] on integers: true division, then truncation *)
Definition int_div (a b : Z) : Z := Z.quot a b.

(** Comparisons of floats *)
Definition gt (a b : Q) : bool :=
  match Qcompare a b with Gt => true | _ => false end.
Definition lt (a b : Q) : bool :=
  match Qcompare a b with Lt => true | _ => false end.
Definition ge (a b : Q) : bool := negb (lt a b).

End Py.

(* ====================================================================== *)
(** ** Constants *)

Definition VOL_MIN : Q := (-20) # 1.
Definition VOL_MAX : Q := 15 # 1.
Definition VOL_DEFAULT : Q := 0 # 1.

(* ====================================================================== *)
(** ** Station list scraping: [get_stations] *)

(** The guard [if b.find('Radio') or b.find('QuickMix')] *)
Definition station_guard (b : string) : bool :=
  Py.truthy (Py.find b "Radio") || Py.truthy (Py.find b "QuickMix").

(** The test that skips a line of status noise *)
Definition is_noise (b : string) : bool :=
  (Py.find b "playlist..." >=? 0) || (Py.find b "Autostart" >=? 0).

(** The fixed-column extraction of one line: [(id, name)] *)
Definition extract (b : string) : string * string :=
  (Py.strip (Py.sslice b 5 7), Py.strip (Py.sslice_from b 13)).

(** Head insertion for QuickMix, append otherwise *)
Definition add_station (b : string) (acc : list string * list string)
  : list string * list string :=
  let '(names, ids) := acc in
  let '(id, name) := extract b in
  if String.eqb name "QuickMix" then (name :: names, id :: ids)
  else (names ++ [name], ids ++ [id]).

(** The body of [for b in a[:-1]] *)
Fixpoint get_stations_loop (a : list string) (acc : list string * list string)
  : list string * list string :=
  match a with
  | [] => acc
  | b :: rest =>
      if is_noise b then get_stations_loop rest acc
      else if station_guard b then get_stations_loop rest (add_station b acc)
      else get_stations_loop rest acc
  end.

(** [get_stations], on the lines of [pianobar.before]; returns
    [(names, ids)]. *)
Definition get_stations (a : list string) : list string * list string :=
  get_stations_loop (removelast a) ([], []).

(** The parsing as the specification words it: every line that is not
    status noise has the extraction applied. *)
Fixpoint get_stations_spec_loop (a : list string)
  (acc : list string * list string) : list string * list string :=
  match a with
  | [] => acc
  | b :: rest =>
      if is_noise b then get_stations_spec_loop rest acc
      else get_stations_spec_loop rest (add_station b acc)
  end.


(* ====================================================================== *)
(** ** The outside world: LCD plate and pianobar *)

(** What the program does to its collaborators, in order. *)
Inductive action : Type :=
| Send (s : string)                    (* [pianobar.send(s)] *)
| LcdClear                             (* [lcd.clear()] *)
| LcdSetCursor (col row : Z)           (* [lcd.set_cursor(col, row)] *)
| LcdMessage (s : string)              (* [lcd.message(s)] *)
| LcdCreateChar (slot bitmap : Z)      (* [lcd.create_char(slot,
                                           char_seven_bitmaps[bitmap])] *)
| PickleDump (v : Q) (name : string).  (* [pickle.dump([v, name], f)] *)

(** How one step of the program ends: it goes on, it leaves through
    [exit(0)], or an exception escapes. *)
Inductive result (A : Type) : Type :=
| Ok (a : A)
| Exit
| Raise.
Arguments Ok {A} a.
Arguments Exit {A}.
Arguments Raise {A}.

(** [pianobar.expect(pats)] on the output that is there before the timeout:
    the leftmost occurrence of a pattern (the first pattern of the list at
    equal positions) gives [(index, before, rest)]; [None] is
    [pexpect.TIMEOUT].  All patterns of the program are literal. *)
Fixpoint drop (n : nat) (s : string) : string :=
  match n, s with
  | O, _ => s
  | S n', String _ s' => drop n' s'
  | S _, EmptyString => EmptyString
  end.

Fixpoint match_here (pats : list string) (s : string) (i : Z)
  : option (Z * string) :=
  match pats with
  | [] => None
  | p :: ps =>
      if prefix p s then Some (i, drop (String.length p) s)
      else match_here ps s (i + 1)
  end.

Fixpoint expect (pats : list string) (buf : string)
  : option (Z * string * string) :=
  match match_here pats buf 0 with
  | Some (i, rest) => Some (i, EmptyString, rest)
  | None =>
      match buf with
      | EmptyString => None
      | String c buf' =>
          match expect pats buf' with
          | Some (i, before, rest) => Some (i, String c before, rest)
          | None => None
          end
      end
  end.

(* ====================================================================== *)
(** ** Global state *)

Record volume : Type := mkVolume {
  vol_cur : Q;       (* Current volume *)
  vol_new : Q;       (* 'Next' volume after interactions *)
  vol_speed : Q;     (* Speed of volume change *)
  vol_time : Q       (* Time of last volume button interaction *)
}.

Record modes : Type := mkModes {
  vol_set : bool;        (* True if currently setting volume *)
  paused : bool;         (* True if music is paused *)
  sta_sel : bool;        (* True if selecting station *)
  play_msg_time : Q      (* Time of last 'Playing' message display *)
}.

Record now_playing : Type := mkNow {
  song_title : string;
  song_info : string;
  x_title : Z;
  x_info : Z;
  x_title_wrap : Z;
  x_info_wrap : Z
}.

(** [cursorY] and [list_top] are first bound when the station menu is
    entered and are only read while [sta_sel] is true; they start at 0
    here. *)
Record menu : Type := mkMenu {
  station_num : Z;     (* Station currently playing *)
  station_new : Z;     (* Station currently highlighted in menu *)
  cursorY : Z;         (* Cursor position on screen *)
  list_top : Z;        (* Top of list on screen *)
  x_station : Z;       (* X position of station (scrolling) *)
  sta_btn_time : Q     (* Time of last button press on station menu *)
}.

Record state : Type := mkState {
  vol : volume;
  mode : modes;
  np : now_playing;
  mn : menu;
  station_list : list string;
  station_ids : list string;
  buffer : string;        (* pianobar output not yet consumed *)
  trace : list action     (* everything done so far *)
}.

Definition with_vol (v : volume) (s : state) : state :=
  mkState v (mode s) (np s) (mn s) (station_list s) (station_ids s)
          (buffer s) (trace s).
Definition with_mode (m : modes) (s : state) : state :=
  mkState (vol s) m (np s) (mn s) (station_list s) (station_ids s)
          (buffer s) (trace s).
Definition with_np (p : now_playing) (s : state) : state :=
  mkState (vol s) (mode s) p (mn s) (station_list s) (station_ids s)
          (buffer s) (trace s).
Definition with_mn (m : menu) (s : state) : state :=
  mkState (vol s) (mode s) (np s) m (station_list s) (station_ids s)
          (buffer s) (trace s).
Definition with_buffer (b : string) (s : state) : state :=
  mkState (vol s) (mode s) (np s) (mn s) (station_list s) (station_ids s)
          b (trace s).
Definition emit (acts : list action) (s : state) : state :=
  mkState (vol s) (mode s) (np s) (mn s) (station_list s) (station_ids s)
          (buffer s) (trace s ++ acts).

(** The strings a trace sent to pianobar *)
Fixpoint sent (tr : list action) : list string :=
  match tr with
  | [] => []
  | Send s :: tr' => s :: sent tr'
  | _ :: tr' => sent tr'
  end.

(* ====================================================================== *)
(** ** Drawing *)

Definition cat (a b : string) : string := append a b.
Infix "+++" := cat (at level 60, right associativity).

(** [marquee(s, x, y, x_wrap)]: the new position and what is drawn. *)
Definition marquee (s : string) (x y x_wrap : Z) : Z * list action :=
  if x >? 0 then
    (x - 1,
     [LcdSetCursor 0 y; LcdMessage (Py.mul " " x +++ Py.sslice s 0 (16 - x))])
  else
    (if x <? x_wrap then 0 else x - 1,
     [LcdSetCursor 0 y; LcdMessage (Py.sslice s (- x) (16 - x))]).

(** [draw_playing()]; the caller stores the time it returns. *)
Definition draw_playing : list action :=
  [LcdCreateChar 7 0; LcdSetCursor 0 1;
   LcdMessage (Py.chr 7 +++ " Playing       ")].

Definition draw_paused : list action :=
  [LcdCreateChar 7 1; LcdSetCursor 0 1;
   LcdMessage (Py.chr 7 +++ " Paused        ")].

Definition draw_next_track : list action :=
  [LcdCreateChar 7 2; LcdSetCursor 0 1;
   LcdMessage (Py.chr 7 +++ " Next track... ")].

(** A name clipped or padded to 15 characters *)
Definition clip15 (s : string) : string :=
  let sLen := Py.len s in
  let s2 := Py.sslice s 0 15 in
  if sLen <? 15 then s2 +++ Py.mul " " (15 - sLen) else s2.

(** The loop of [draw_stations] over [station_list[list_top:list_top + 2]];
    [line] counts the rows done, [(msg, ret)] is what was built so far. *)
Fixpoint draw_rows (now : Q) (station_new list_top x_station : Z)
  (sta_btn_time : Q) (last : Z) (rows : list string) (line : Z)
  (msg : string) (ret : Z) : string * Z :=
  match rows with
  | [] => (msg, ret)
  | s :: rest =>
      let sLen := Py.len s in
      let '(cell, ret') :=
        if list_top + line =? station_new then
          if sLen >? 15 then
            if Py.lt (now - sta_btn_time) (1 # 2) then
              (Py.chr 7 +++ Py.sslice s 0 15, ret)
            else
              let s2 := s +++ "   " +++ Py.sslice s 0 15 in
              let x_station_wrap := - (sLen + 2) in
              (Py.chr 7 +++ Py.sslice s2 (- x_station) (15 - x_station),
               if x_station >? x_station_wrap then x_station - 1 else ret)
          else (Py.chr 7 +++ clip15 s, ret)
        else (" " +++ clip15 s, ret) in
      let msg' := msg +++ cell in
      let line' := line + 1 in
      if line' =? last then (msg', ret')
      else draw_rows now station_new list_top x_station sta_btn_time last
                     rest line' (msg' +++ Py.chr 10) ret'
  end.

(** [draw_stations(station_new, list_top, x_station, sta_btn_time)]: the
    value returned and what is drawn. *)
Definition draw_stations (stations : list string) (now : Q)
  (station_new list_top x_station : Z) (sta_btn_time : Q)
  : Z * list action :=
  let last := Z.of_nat (List.length stations) in
  let last := if last >? 2 then 2 else last in
  let '(msg, ret) :=
    draw_rows now station_new list_top x_station sta_btn_time last
              (Py.slice stations list_top (list_top + 2)) 0 EmptyString 0 in
  (ret, [LcdSetCursor 0 0; LcdMessage msg]).

(* ====================================================================== *)
(** ** The pianobar output parser *)

Definition pattern_list : list string :=
  ["SONG: "%string; "STATION: "%string; "TIME: "%string].

Definition CR : string := String "013" EmptyString.
Definition CRLF : string := String "013" (String "010" EmptyString).
Definition SEP : string := " | ".

(** The scrolling text of the title line, from the title field *)
Definition title_marquee (title : string) : string * Z :=
  let s := title +++ "    " in
  let n := Py.len s in
  (Py.mul s (Py.int (1 + 16 / inject_Z n)) +++ Py.sslice s 0 16, - n + 2).

(** The scrolling text of the artist/album line *)
Definition info_marquee (artist album : string) : string * Z :=
  let s := artist +++ " < " +++ album +++ " > " in
  let n := Py.len s in
  (Py.mul s (Py.int (2 + 16 / inject_Z n)) +++ Py.sslice s 0 16, - n + 2).

(** One turn of the [while True] loop that processes pending output.  The
    boolean is false when [pexpect.TIMEOUT] (or [EOF]) broke the loop;
    what was assigned before the exception stays assigned. *)
Definition parse_step (s : state) : state * bool :=
  match expect pattern_list (buffer s) with
  | None => (s, false)
  | Some (x, _, rest) =>
      if x =? 0 then
        let s1 := with_np (mkNow EmptyString EmptyString 16 16 0 0)
                          (with_buffer rest s) in
        match expect [SEP] rest with
        | None => (s1, false)
        | Some (_, title, rest1) =>
            let '(t, w) := title_marquee title in
            let s2 := with_np (mkNow t EmptyString 16 16 w 0)
                              (with_buffer rest1 s1) in
            match expect [SEP] rest1 with
            | None => (s2, false)
            | Some (_, artist, rest2) =>
                let s3 := with_buffer rest2 s2 in
                match expect [CRLF] rest2 with
                | None => (s3, false)
                | Some (_, album, rest3) =>
                    let '(i, wi) := info_marquee artist album in
                    (with_np (mkNow t i 16 16 w wi) (with_buffer rest3 s3),
                     true)
                end
            end
        end
      else if x =? 1 then
        let s1 := with_buffer rest s in
        match expect [SEP] rest with
        | None => (s1, false)
        | Some (_, _, rest1) => (with_buffer rest1 s1, true)
        end
      else
        let s1 := with_buffer rest s in
        match expect [CR] rest with
        | None => (s1, false)
        | Some (_, _, rest1) =>
            let s2 := with_buffer rest1 s1 in
            (* the dump is inside [try: ... except: pass] *)
            match Py.index (station_list s) (station_num (mn s)) with
            | Some name => (emit [PickleDump (vol_cur (vol s)) name] s2, true)
            | None => (s2, true)
            end
        end
  end.

(** The loop itself.  Every turn that goes on consumes at least one
    character of the buffer, so its length is fuel enough. *)
Fixpoint process_output_loop (fuel : nat) (s : state) : state :=
  match fuel with
  | O => s
  | S fuel' =>
      let '(s', continue) := parse_step s in
      if continue then process_output_loop fuel' s' else s'
  end.

Definition process_output (s : state) : state :=
  process_output_loop (String.length (buffer s)) s.

(* ====================================================================== *)
(** ** One pass of the main loop *)

(** What one pass reads from outside: the output pianobar produced since
    the last pass, the five buttons, whether a pressed select button stays
    down for [HOLD_TIME], and the clock. *)
Record input : Type := mkInput {
  incoming : string;
  btn_up : bool;
  btn_down : bool;
  btn_left : bool;
  btn_right : bool;
  btn_sel : bool;
  sel_hold : bool;
  now : Q
}.

(** The bargraph drawn when volume-setting mode is entered *)
Definition volume_bar (vol_cur : Q) : list action :=
  let vol_cur_i := Py.int ((vol_cur - VOL_MIN) + (1 # 2)) in
  let n := Py.int_div vol_cur_i 5 in
  [LcdSetCursor 0 1;
   LcdMessage (Py.chr 6 +++ " Volume " +++ Py.mul (Py.chr 5) n +++
               Py.chr (vol_cur_i mod 5) +++ Py.mul (Py.chr 0) (6 - n))].

(** [if btn_sel: ...], once the button is released before [HOLD_TIME] *)
Definition on_select (now : Q) (s : state) : state :=
  let m := mode s in
  if sta_sel m then
    let s1 := with_mode (mkModes (vol_set m) (paused m) false
                                 (play_msg_time m))
                        (emit [Send (Py.chr 10)] s) in
    if paused m then emit draw_paused s1 else s1
  else
    let p := negb (paused m) in
    let s1 := emit [Send "p"] s in
    if p then
      emit draw_paused (with_mode (mkModes false p false (play_msg_time m)) s1)
    else
      with_mode (mkModes false p false now) (emit draw_playing s1).

(** [elif btn_right: ...] *)
Definition on_right (s : state) : state :=
  let s1 := emit draw_next_track s in
  let s2 := if sta_sel (mode s) then emit [Send (Py.chr 10)] s1 else s1 in
  emit [Send "n"]
       (with_mode (mkModes false false false (play_msg_time (mode s))) s2).

(** [elif btn_left: ...] *)
Definition on_left (now : Q) (s : state) : result state :=
  let m := mode s in
  if negb (sta_sel m) then
    (* Entering station selection menu *)
    let s1 := emit [Send "s"; LcdCreateChar 7 0] s in
    let s2 := with_mode (mkModes false (paused m) true (play_msg_time m)) s1 in
    let s3 := with_mn (mkMenu (station_num (mn s)) 0 0 0 0 now) s2 in
    Ok (emit (snd (draw_stations (station_list s) now 0 0 0 now)) s3)
  else
    (* Just exited station menu with selection *)
    let num := station_new (mn s) in
    let g := mn s in
    let s1 := with_mn (mkMenu num (station_new g) (cursorY g) (list_top g)
                              (x_station g) (sta_btn_time g))
                      (with_mode (mkModes (vol_set m) (paused m) false
                                          (play_msg_time m)) s) in
    match Py.index (station_ids s) num with
    | None => Raise
    | Some id =>
        Ok (with_mode (mkModes (vol_set m) false false (play_msg_time m))
                      (emit [Send (id +++ Py.chr 10)] s1))
    end.

(** [elif btn_up or btn_down: ...] inside the station menu *)
Definition on_updown_menu (now : Q) (down : bool) (s : state) : state :=
  let g := mn s in
  let '(new, cy, top, xs) :=
    if down then
      if station_new g <? Z.of_nat (List.length (station_list s)) - 1 then
        (station_new g + 1,
         (if cursorY g <? 1 then cursorY g + 1 else cursorY g),
         (if cursorY g <? 1 then list_top g else list_top g + 1),
         0)
      else (station_new g, cursorY g, list_top g, x_station g)
    else if station_new g >? 0 then
      (station_new g - 1,
       (if cursorY g >? 0 then cursorY g - 1 else cursorY g),
       (if cursorY g >? 0 then list_top g else list_top g - 1),
       0)
    else (station_new g, cursorY g, list_top g, x_station g) in
  let '(ret, acts) := draw_stations (station_list s) now new top 0 now in
  emit acts (with_mn (mkMenu (station_num g) new cy top ret now) s).

(** [elif btn_up or btn_down: ...] outside the station menu *)
Definition on_updown_volume (now : Q) (up : bool) (s : state) : state :=
  let v := vol s in
  let m := mode s in
  (* Just entering volume-setting mode; init display *)
  let s1 := if vol_set m then s else emit (volume_bar (vol_cur v)) s in
  let speed := if vol_set m then vol_speed v else 1%Q in
  let new :=
    if up then
      let n := (vol_cur v + speed)%Q in
      if Py.gt n VOL_MAX then VOL_MAX else n
    else
      let n := (vol_cur v - speed)%Q in
      if Py.lt n VOL_MIN then VOL_MIN else n in
  with_vol (mkVolume (vol_cur v) new (speed * (115 # 100))%Q now)
           (with_mode (mkModes true (paused m) (sta_sel m) (play_msg_time m))
                      s1).

(** [else: ...], no button pressed *)
Definition on_idle (now : Q) (s : state) : result state :=
  let m := mode s in
  let g := mn s in
  if sta_sel m then
    match Py.index (station_list s) (station_new g) with
    | None => Raise
    | Some name =>
        if Py.len name >? 15 then
          let '(ret, acts) :=
            draw_stations (station_list s) now (station_new g) (list_top g)
                          (x_station g) (sta_btn_time g) in
          Ok (emit acts
                (with_mn (mkMenu (station_num g) (station_new g) (cursorY g)
                                 (list_top g) ret (sta_btn_time g)) s))
        else Ok s
    end
  else if vol_set m then
    let v := vol s in
    let s1 := with_vol (mkVolume (vol_cur v) (vol_new v) 1%Q (vol_time v)) s in
    if Py.ge (now - vol_time v) 4 then
      let s2 := with_mode (mkModes false (paused m) (sta_sel m)
                                   (play_msg_time m)) s1 in
      Ok (if paused m then emit draw_paused s2 else s2)
    else Ok s1
  else Ok s.

(** The button cascade of the main loop *)
Definition buttons (i : input) (s : state) : result state :=
  if btn_sel i then
    if sel_hold i then Exit                (* [shutdown()]: [exit(0)] *)
    else Ok (on_select (now i) s)
  else if btn_right i then Ok (on_right s)
  else if btn_left i then on_left (now i) s
  else if btn_up i || btn_down i then
    if sta_sel (mode s) then Ok (on_updown_menu (now i) (btn_down i) s)
    else Ok (on_updown_volume (now i) (btn_up i) s)
  else on_idle (now i) s.

(** The keystrokes for a change of [d] volume units *)
Definition volume_keys (d : Z) : string :=
  if d >? 0 then Py.mul ")" d else Py.mul "(" (- d).

(** The changed part of the bargraph *)
Definition volume_bar_delta (vol_cur_i vol_new_i : Z) : list action :=
  if vol_new_i >? vol_cur_i then
    let x := Py.int_div vol_cur_i 5 in
    let n := Py.int_div vol_new_i 5 - x in
    [LcdSetCursor (x + 9) 1;
     LcdMessage (Py.mul (Py.chr 5) n +++ Py.chr (vol_new_i mod 5))]
  else
    let x := Py.int_div vol_new_i 5 in
    let n := Py.int_div vol_cur_i 5 - x in
    [LcdSetCursor (x + 9) 1;
     LcdMessage (Py.chr (vol_new_i mod 5) +++ Py.mul (Py.chr 0) n)].

(** Various 'always on' logic independent of buttons *)
Definition always_on (now : Q) (s : state) : state :=
  if sta_sel (mode s) then s
  else
    (* upper line (song title) *)
    let p := np s in
    let '(xt, acts) := marquee (song_title p) (x_title p) 0 (x_title_wrap p) in
    let p1 := mkNow (song_title p) (song_info p) xt (x_info p)
                    (x_title_wrap p) (x_info_wrap p) in
    let s1 := emit acts (with_np p1 s) in
    (* Integerize current and new volume values *)
    let v := vol s in
    let vol_cur_i := Py.int ((vol_cur v - VOL_MIN) + (1 # 2)) in
    let vol_new_i := Py.int ((vol_new v - VOL_MIN) + (1 # 2)) in
    let s2 := with_vol (mkVolume (vol_new v) (vol_new v) (vol_speed v)
                                 (vol_time v)) s1 in
    (* Issue change to pianobar *)
    let s3 := if vol_cur_i =? vol_new_i then s2
              else emit [Send (volume_keys (vol_new_i - vol_cur_i))] s2 in
    (* lower line (volume or artist/album info) *)
    if vol_set (mode s) then
      if vol_new_i =? vol_cur_i then s3
      else emit (volume_bar_delta vol_cur_i vol_new_i) s3
    else if negb (paused (mode s)) then
      if Py.ge (now - play_msg_time (mode s)) 3 then
        let '(xi, acts') :=
          marquee (song_info p1) (x_info p1) 1 (x_info_wrap p1) in
        emit acts' (with_np (mkNow (song_title p1) (song_info p1) (x_title p1)
                                   xi (x_title_wrap p1) (x_info_wrap p1)) s3)
      else s3
    else s3.

(** One pass of [while pianobar.isalive()]: pending output, buttons, the
    always-on part.  The frame-rate throttle only waits. *)
Definition tick (i : input) (s : state) : result state :=
  let s1 := process_output (with_buffer (buffer s +++ incoming i) s) in
  match buttons i s1 with
  | Ok s2 => Ok (always_on (now i) s2)
  | Exit => Exit
  | Raise => Raise
  end.

(** Passes of the main loop, one per input *)
Fixpoint run (ins : list input) (s : state) : result state :=
  match ins with
  | [] => Ok s
  | i :: ins' =>
      match tick i s with
      | Ok s' => run ins' s'
      | Exit => Exit
      | Raise => Raise
      end
  end.

(* ====================================================================== *)
(** ** Start-up *)

(** The pickle file: [None] when reading it fails; otherwise the stored
    volume [v[0]] and, when [v[1]] is a string, the stored station name. *)
Definition pickle : Type := option (Q * option string).

(** Initialisation up to the main loop, given the pickle file and the lines
    of output in front of the station prompt.  An empty station list makes
    [station_ids[station_num]] raise. *)
Definition startup (pk : pickle) (lines : list string) : result state :=
  let vol_new0 := match pk with Some (v, _) => v | None => VOL_DEFAULT end in
  let default_station :=
    match pk with Some (_, d) => d | None => None end in
  let '(names, ids) := get_stations lines in
  let num :=
    match default_station with
    | Some d => match Py.list_index d names with Some k => k | None => 0 end
    | None => 0
    end in
  match Py.index ids num with
  | None => Raise
  | Some id =>
      Ok (mkState (mkVolume VOL_MIN vol_new0 1 0)
                  (mkModes false false false 0)
                  (mkNow EmptyString EmptyString 16 16 0 0)
                  (mkMenu num 0 0 0 0 0)
                  names ids EmptyString [Send (id +++ Py.chr 10)])
  end.

(* ====================================================================== *)
(** * Vocabulary of the properties *)

(** ** Predicates on states *)

(** The controls: everything but the now-playing record, the buffer and
    the trace. *)
Definition same_controls (s s' : state) : Prop :=
  vol s' = vol s /\ mode s' = mode s /\ mn s' = mn s /\
  station_list s' = station_list s /\ station_ids s' = station_ids s.

(** The two mode flags are not both set. *)
Definition modes_ok (s : state) : Prop :=
  vol_set (mode s) && sta_sel (mode s) = false.

(** The three interaction modes of the specification, read off the flags *)
Inductive ui_mode : Type := Normal | VolumeAdjust | StationMenu.

Definition active (m : ui_mode) (s : state) : bool :=
  match m with
  | Normal => negb (vol_set (mode s)) && negb (sta_sel (mode s))
  | VolumeAdjust => vol_set (mode s)
  | StationMenu => sta_sel (mode s)
  end.

(** The cursor arithmetic of the menu: the highlight is the window top plus
    the on-screen row, the row is 0 or 1, and the highlight is an index of
    the station list. *)
Definition menu_ok (s : state) : Prop :=
  let g := mn s in
  let n := Z.of_nat (List.length (station_list s)) in
  1 <= n /\ List.length (station_ids s) = List.length (station_list s) /\
  0 <= list_top g /\ 0 <= cursorY g <= 1 /\
  station_new g = list_top g + cursorY g /\ station_new g <= n - 1.

Definition in_range (q : Q) : Prop := (VOL_MIN <= q /\ q <= VOL_MAX)%Q.

(** The volume the pickle file holds, when there is one, is in range. *)
Definition stored_in_range (pk : pickle) : Prop :=
  match pk with Some (v, _) => in_range v | None => True end.

(** Both volumes are in range and the speed is at least its initial 1. *)
Definition volume_ok (s : state) : Prop :=
  in_range (vol_cur (vol s)) /\ in_range (vol_new (vol s)) /\
  (1 <= vol_speed (vol s))%Q.

(** The pass takes the volume branch of the button cascade. *)
Definition volume_branch (i : input) (s : state) : bool :=
  negb (btn_sel i) && negb (btn_right i) && negb (btn_left i) &&
  (btn_up i || btn_down i) && negb (sta_sel (mode s)).

(** The keys a pass sends for the buttons themselves, when it starts in
    the normal mode *)
Definition button_keys (i : input) : list string :=
  if btn_sel i then ["p"%string]
  else if btn_right i then ["n"%string]
  else [].

(** [n] times the key [c], written out one key at a time *)
Definition key_run (c : ascii) (n : nat) : string :=
  string_of_list_ascii (List.repeat c n).

(** What goes to pianobar for [n] units of volume: nothing for 0, else one
    string of [|n|] unit keys, [')'] upwards and ['('] downwards *)
Definition unit_keys (n : Z) : list string :=
  if n =? 0 then []
  else [key_run (if 0 <? n then ")"%char else "("%char) (Z.abs_nat n)].

(** A stored volume of a size for which Python builds the string of keys *)
Definition moderate (v : Q) : Prop := (- (1000000 # 1) <= v <= 1000000 # 1)%Q.

(** The position [marquee] returns, and the positions of successive
    passes from a start position *)
Definition marquee_next (s : string) (y x_wrap x : Z) : Z :=
  fst (marquee s x y x_wrap).

Definition offsets (s : string) (y x_wrap start : Z) (k : nat) : Z :=
  Nat.iter k (marquee_next s y x_wrap) start.

Definition nonempty (p : string) : Prop := p <> EmptyString.

(** ** Sample inputs *)

(** The start of a station row as pianobar prints it: the erase-line
    sequence and a tab; the number of width two, the flags and the name
    follow. *)
Definition row_prefix : string := String "027" "[2K" +++ String "009" "".

(** Two stations in pianobar's columns and the prompt line, in both
    orders *)
Definition column_lines : list string :=
  [row_prefix +++ "01) q   QuickMix"; row_prefix +++ "02)     80s Rock";
   "Select station: "%string].

Definition demo_lines : list string :=
  [row_prefix +++ "02)     80s Rock"; row_prefix +++ "01) q   QuickMix";
   "Select station: "%string].

(** The lines of the specification's example *)
Definition spec_lines : list string :=
  ["01)    Quick Mix"%string; "02)    80s Rock"%string;
   "Select station: "%string].

(** The announcement of the specification's example, fields divided by a
    bare pipe, and the announcement with the separator the parser waits
    for *)
Definition bare_announcement : string :=
  "SONG: Life|Artist X|Album Y" +++ CRLF.

Definition spaced_announcement : string :=
  "SONG: Life | Artist X | Album Y" +++ CRLF.

Definition no_buttons (data : string) (t : Q) : input :=
  mkInput data false false false false false false t.
Definition press_up (t : Q) : input :=
  mkInput EmptyString true false false false false false t.
Definition press_down (t : Q) : input :=
  mkInput EmptyString false true false false false false t.
Definition press_left (t : Q) : input :=
  mkInput EmptyString false false true false false false t.

(** ** Sample sessions *)

Definition blank : state :=
  mkState (mkVolume 0 0 0 0) (mkModes false false false 0)
          (mkNow EmptyString EmptyString 0 0 0 0) (mkMenu 0 0 0 0 0 0)
          [] [] EmptyString [].

Definition state_of (r : result state) : state :=
  match r with Ok s => s | _ => blank end.

(** A session whose pickle file holds the volume -100 and the second
    station of the list: its start, its first pass without buttons, an up
    press after that, and a left press as the first pass instead *)
Definition low_pickle : pickle := Some ((-100) # 1, Some "80s Rock"%string).
Definition low_start : state :=
  Eval vm_compute in state_of (startup low_pickle demo_lines).
Definition low_first : state :=
  Eval vm_compute in state_of (tick (no_buttons EmptyString 1) low_start).
Definition low_inputs : list input := [no_buttons EmptyString 1; press_up 2].
Definition low_end : state :=
  Eval vm_compute in state_of (run low_inputs low_start).
Definition left_end : state :=
  Eval vm_compute in state_of (tick (press_left 1) low_start).
Definition up_first : state :=
  Eval vm_compute in state_of (tick (press_up 1) low_start).

(** The same session taken through volume setting and the station menu *)
Definition menu_inputs : list input :=
  [no_buttons EmptyString 1; press_up 2; press_left 3; press_down 4;
   press_down 5; press_up 6; press_down 7].
Definition menu_end : state :=
  Eval vm_compute in state_of (run menu_inputs low_start).

(** A session without pickle file, the up button held for forty passes *)
Definition held_up : list input :=
  map (fun k => press_up (inject_Z (Z.of_nat k) / 4)) (seq 1 40).
Definition fresh_start : state :=
  Eval vm_compute in state_of (startup None demo_lines).
Definition held_up_end : state :=
  Eval vm_compute in state_of (run held_up fresh_start).

(** A record of a song that plays, both lines scrolled some way *)
Definition old_song : now_playing :=
  Eval vm_compute in
    mkNow (fst (title_marquee "Yesterday")) (fst (info_marquee "Beatles" "Help"))
          (-3) 5 (snd (title_marquee "Yesterday"))
          (snd (info_marquee "Beatles" "Help")).

(** While it plays, the announcement of the next song arrives cut after
    the artist began, or cut inside the title. *)
Definition cut_state : state :=
  with_np old_song (with_buffer "SONG: Life | Artist X" fresh_start).

Definition cut_state_title : state :=
  with_np old_song (with_buffer "SONG: Li" fresh_start).

(** ** Vocabulary of the further properties *)

(** The name and the selector id the scraper reads off a line *)
Definition line_name (b : string) : string := snd (extract b).
Definition line_id (b : string) : string := fst (extract b).

(** The lines the scraper keeps: all but the last one, status noise
    dropped *)
Definition kept_lines (a : list string) : list string :=
  filter (fun b => negb (is_noise b)) (removelast a).

Definition is_quickmix (b : string) : bool :=
  String.eqb (line_name b) "QuickMix".

(** The station start-up tunes to: [station_list.index(default_station)],
    or 0 when that raises *)
Definition chosen_station (pk : pickle) (names : list string) : Z :=
  match match pk with Some (_, d) => d | None => None end with
  | Some d => match Py.list_index d names with Some k => k | None => 0 end
  | None => 0
  end.

(** The station lists are those scraped from [lines], and the playing
    station is one of them. *)
Definition session_ok (lines : list string) (s : state) : Prop :=
  station_list s = fst (get_stations lines) /\
  station_ids s = snd (get_stations lines) /\
  0 <= station_num (mn s) < Z.of_nat (List.length (station_list s)).

(** The state after [k] turns of the output loop *)
Fixpoint turns (k : nat) (s : state) : state :=
  match k with
  | O => s
  | S k' => turns k' (fst (parse_step s))
  end.

Definition is_dump (a : action) : bool :=
  match a with PickleDump _ _ => true | _ => false end.

(** The volume keys the always-on part has to send in a state: one for
    each unit between the integerized current and target volumes *)
Definition pending_keys (s : state) : list string :=
  let vol_cur_i := Py.int ((vol_cur (vol s) - VOL_MIN) + (1 # 2)) in
  let vol_new_i := Py.int ((vol_new (vol s) - VOL_MIN) + (1 # 2)) in
  if vol_cur_i =? vol_new_i then []
  else [volume_keys (vol_new_i - vol_cur_i)].

(** ** Where the model is the program

    The model has strings of 8-bit characters and exact rationals.  On
    output of pianobar that is ASCII, [bytes.decode()] gives the text back
    as it is and cannot fail; with a stored volume that is moderate, the
    string of volume keys is of a size that Python builds. *)

(** Text that [bytes.decode()] gives back as it is: bytes below 128 only *)
Definition ascii_text (s : string) : bool :=
  forallb (fun c => (nat_of_ascii c <? 128)%nat) (list_ascii_of_string s).

Definition ascii_inputs (ins : list input) : Prop :=
  Forall (fun j => ascii_text (incoming j) = true) ins.

Definition stored_moderate (pk : pickle) : Prop :=
  match pk with Some (v, _) => moderate v | None => True end.

(** The pending output is ASCII, both volumes are moderate, and the speed
    is at least its initial 1. *)
Definition sound (s : state) : Prop :=
  ascii_text (buffer s) = true /\
  moderate (vol_cur (vol s)) /\ moderate (vol_new (vol s)) /\
  (1 <= vol_speed (vol s))%Q.

(** The branch of the button cascade a pass takes *)
Definition no_button (i : input) : bool :=
  negb (btn_sel i) && negb (btn_right i) && negb (btn_left i) &&
  negb (btn_up i) && negb (btn_down i).
Definition is_select_tap (i : input) : bool :=
  btn_sel i && negb (sel_hold i).
Definition is_right (i : input) : bool :=
  negb (btn_sel i) && btn_right i.
Definition is_left (i : input) : bool :=
  negb (btn_sel i) && negb (btn_right i) && btn_left i.
Definition is_down (i : input) : bool :=
  negb (btn_sel i) && negb (btn_right i) && negb (btn_left i) && btn_down i.
Definition is_up (i : input) : bool :=
  negb (btn_sel i) && negb (btn_right i) && negb (btn_left i) &&
  negb (btn_down i) && btn_up i.

(** Where an up or down press takes the highlight in a list of [n]
    stations, and where a series of presses takes it *)
Definition menu_move (n : Z) (pos : Z) (i : input) : Z :=
  if btn_down i then (if pos <? n - 1 then pos + 1 else pos)
  else (if pos >? 0 then pos - 1 else pos).

Definition menu_walk (n : Z) (presses : list input) (pos : Z) : Z :=
  fold_left (menu_move n) presses pos.

(** What a key sequence does to pianobar's volume: [')'] is one step up,
    ['('] one step down, any other character none *)
Fixpoint key_steps (s : string) : Z :=
  match s with
  | EmptyString => 0
  | String c s' =>
      (if Ascii.eqb c ")" then 1 else if Ascii.eqb c "(" then -1 else 0)
      + key_steps s'
  end.

Fixpoint net_steps (l : list string) : Z :=
  match l with
  | [] => 0
  | s :: l' => key_steps s + net_steps l'
  end.

(** A selector id without volume keys in it *)
Fixpoint plain (s : string) : bool :=
  match s with
  | EmptyString => true
  | String c s' => negb (Ascii.eqb c ")") && negb (Ascii.eqb c "(") && plain s'
  end.

(** The integerized volume [int((v - VOL_MIN) + 0.5)] *)
Definition vol_int (v : Q) : Z := Py.int ((v - VOL_MIN) + (1 # 2)).

(** States for the samples: volume-setting mode entered at time 2 and a pass
    without buttons at time 7; two select taps; a walk through the menu *)
Definition vol_mode : state :=
  Eval vm_compute in
    state_of (run [no_buttons EmptyString 1; press_up 2] fresh_start).
Definition vol_mode_idle : state :=
  Eval vm_compute in state_of (tick (no_buttons EmptyString 7) vol_mode).
Definition select_tap (t : Q) : input :=
  mkInput EmptyString false false false false true false t.
Definition down_down_up : list input :=
  [press_down 2; press_down 3; press_up 4].

(** The number of volume steps sent so far is the integerized current
    volume, and no selector id holds a volume key. *)
Definition tracks (s : state) : Prop :=
  Forall (fun id => plain id = true) (station_ids s) /\
  net_steps (sent (trace s)) = vol_int (vol_cur (vol s)).

(** One row of the station menu, as the body of the loop of
    [draw_stations] builds it: the cell drawn and the value to return *)
Definition row_cell (now : Q) (station_new list_top x_station : Z)
  (sta_btn_time : Q) (line : Z) (s : string) (ret : Z) : string * Z :=
  let sLen := Py.len s in
  if list_top + line =? station_new then
    if sLen >? 15 then
      if Py.lt (now - sta_btn_time) (1 # 2) then
        (Py.chr 7 +++ Py.sslice s 0 15, ret)
      else
        let s2 := s +++ "   " +++ Py.sslice s 0 15 in
        let x_station_wrap := - (sLen + 2) in
        (Py.chr 7 +++ Py.sslice s2 (- x_station) (15 - x_station),
         if x_station >? x_station_wrap then x_station - 1 else ret)
    else (Py.chr 7 +++ clip15 s, ret)
  else (" " +++ clip15 s, ret).

(** The menu window shows two stations whenever the list has two, and the
    name scroll of the highlighted station is within its loop. *)
Definition window_ok (s : state) : Prop :=
  let g := mn s in
  let n := Z.of_nat (List.length (station_list s)) in
  (list_top g + 2 <= n \/ (n = 1 /\ list_top g = 0)) /\
  exists name,
    Py.index (station_list s) (station_new g) = Some name /\
    - (Py.len name + 2) <= x_station g <= 0.

(** ** [shutdown] and [clean_exit] *)

(** What [shutdown()] and [clean_exit()] do before the program ends *)
Inductive halt_action : Type :=
| HClear                      (* [lcd.clear()] *)
| HMessage (s : string)       (* [lcd.message(s)] *)
| HSend (s : string)          (* [pianobar.send(s)] *)
| HSleep (q : Q)              (* [time.sleep(q)] *)
| HSync                       (* [subprocess.call("sync")] *)
| HBacklight (q : Q)          (* [lcd.set_backlight(q)] *)
| HDisplay (on : bool)        (* [lcd.enable_display(on)] *)
| HKill                       (* [pianobar.kill(0)] *)
| HPowerOff.                  (* [subprocess.call(["shutdown", "-h", "now"])] *)

(** [clean_exit()]; the arguments say whether [lcd] and [pianobar] are
    there ([is not None]) *)
Definition clean_exit (lcd pianobar : bool) : list halt_action :=
  (if lcd then [HSleep (1 # 2); HBacklight 0; HClear; HDisplay false]
   else []) ++
  (if pianobar then [HKill] else []).

(** The body of [for i in range(steps)] *)
Fixpoint ramp (steps : nat) (pause : Q) : list halt_action :=
  match steps with
  | O => []
  | S k => HSend "(" :: HSleep pause :: ramp k pause
  end.

(** [shutdown()] as the main loop calls it, with the display and pianobar
    there; the constant [HALT_ON_EXIT] is taken as an argument (the source
    sets it to [False]; [RGB_LCD] is [False]).  [Exit] is [exit(0)],
    [Raise] the [ZeroDivisionError] of [5.0 / steps]; in both cases the
    actions done before are returned with it. *)
Definition shutdown (HALT_ON_EXIT : bool) (vol_cur : Q)
  : list halt_action * result unit :=
  if HALT_ON_EXIT then
    let steps := Py.int ((vol_cur - VOL_MIN) + (1 # 2)) + 1 in
    if steps =? 0 then
      ([HClear; HMessage ("Wait 30 seconds" +++ Py.chr 10 +++ "to unplug...")],
       Raise)
    else
      let pause := (5 / inject_Z steps)%Q in
      ([HClear; HMessage ("Wait 30 seconds" +++ Py.chr 10 +++ "to unplug...")]
         ++ ramp (Z.to_nat steps) pause
         ++ [HSync] ++ clean_exit true true ++ [HPowerOff],
       Ok tt)
  else ([HClear], Exit).

(** The volume-down keys among some actions, and the time slept *)
Fixpoint halt_keys (l : list halt_action) : Z :=
  match l with
  | [] => 0
  | HSend s :: l' => - key_steps s + halt_keys l'
  | _ :: l' => halt_keys l'
  end.

Fixpoint halt_sleep (l : list halt_action) : Q :=
  match l with
  | [] => 0
  | HSleep q :: l' => q + halt_sleep l'
  | _ :: l' => halt_sleep l'
  end.

(* ====================================================================== *)
(** * Properties *)


(** ** Station list scraping *)

Lemma find_from_eq (pat s : string) (i : Z) :
  Py.find_from pat s i =
  if prefix pat s then i
  else match s with
       | EmptyString => -1
       | String _ s' => Py.find_from pat s' (i + 1)
       end.
Proof. destruct s; reflexivity. Qed.

Lemma find_from_range (pat s : string) (i : Z) :
  Py.find_from pat s i = -1 \/ i <= Py.find_from pat s i.
Proof.
  revert i; induction s as [|c s IH]; intros i; rewrite find_from_eq.
  - destruct (prefix pat EmptyString); [right; lia | now left].
  - destruct (prefix pat (String c s)); [right; lia |].
    destruct (IH (i + 1)) as [H | H]; [now left | right; lia].
Qed.

Lemma find_from_hit (pat s : string) (i : Z) :
  0 <= i -> Py.find_from pat s i = i -> prefix pat s = true.
Proof.
  intros Hi H. destruct (prefix pat s) eqn:E; [reflexivity |].
  rewrite find_from_eq, E in H. destruct s as [|c s]; [lia |].
  destruct (find_from_range pat s (i + 1)); lia.
Qed.

Lemma station_guard_true (b : string) : station_guard b = true.
Proof.
  unfold station_guard, Py.truthy.
  destruct (Py.find b "Radio" =? 0) eqn:HR; [| reflexivity].
  destruct (Py.find b "QuickMix" =? 0) eqn:HQ; [| reflexivity].
  apply Z.eqb_eq in HR, HQ.
  apply find_from_hit in HR; [| lia]. apply find_from_hit in HQ; [| lia].
  destruct b as [|c b]; [discriminate HR |].
  cbn [prefix] in HR, HQ. revert HR HQ.
  destruct (ascii_dec "R" c) as [<- |]; [intros _ | intros HR; discriminate HR].
  destruct (ascii_dec "Q" "R") as [E |]; [discriminate E |].
  intros HQ; discriminate HQ.
Qed.

Lemma get_stations_loop_spec (a : list string) :
  forall acc, get_stations_loop a acc = get_stations_spec_loop a acc.
Proof.
  induction a as [|b a IH]; intros acc; simpl; [reflexivity |].
  rewrite station_guard_true. destruct (is_noise b); apply IH.
Qed.

(** Both lists grow together. *)
Lemma add_station_lengths (b : string) (acc : list string * list string) :
  List.length (fst acc) = List.length (snd acc) ->
  List.length (fst (add_station b acc)) = List.length (snd (add_station b acc)).
Proof.
  destruct acc as [names ids]; unfold add_station, extract; simpl.
  intros H. destruct (String.eqb _ "QuickMix"); simpl.
  - now rewrite H.
  - now rewrite !length_app, H.
Qed.

Lemma get_stations_loop_lengths (a : list string) :
  forall acc,
    List.length (fst acc) = List.length (snd acc) ->
    List.length (fst (get_stations_loop a acc))
    = List.length (snd (get_stations_loop a acc)).
Proof.
  induction a as [|b a IH]; intros acc H; simpl; [exact H |].
  destruct (is_noise b); [now apply IH |].
  destruct (station_guard b); [| now apply IH].
  apply IH. now apply add_station_lengths.
Qed.

Lemma get_stations_lengths (a : list string) :
  List.length (fst (get_stations a)) = List.length (snd (get_stations a)).
Proof. unfold get_stations. now apply get_stations_loop_lengths. Qed.

(** ** What the phases of a pass leave alone *)

Ltac break_match :=
  match goal with
  | |- context [match ?e with _ => _ end] =>
      lazymatch e with
      | context [match _ with _ => _ end] => fail
      | _ => destruct e eqn:?
      end
  end.

Lemma same_controls_refl (s : state) : same_controls s s.
Proof. repeat split. Qed.

Lemma same_controls_trans (s1 s2 s3 : state) :
  same_controls s1 s2 -> same_controls s2 s3 -> same_controls s1 s3.
Proof.
  unfold same_controls. intros (A & B & C & D & E) (A' & B' & C' & D' & E').
  repeat split; congruence.
Qed.

Lemma parse_step_controls (s : state) : same_controls s (fst (parse_step s)).
Proof.
  unfold parse_step.
  repeat (break_match; try (repeat split; reflexivity)).
Qed.

Lemma process_output_loop_controls (fuel : nat) :
  forall s, same_controls s (process_output_loop fuel s).
Proof.
  induction fuel as [|fuel IH]; intros s; simpl.
  - apply same_controls_refl.
  - pose proof (parse_step_controls s) as H.
    destruct (parse_step s) as [s' c]; simpl in H.
    destruct c; [| exact H].
    eapply same_controls_trans; [exact H | apply IH].
Qed.

Lemma process_output_controls (s : state) :
  same_controls s (process_output s).
Proof. apply process_output_loop_controls. Qed.

(** Receiving output changes none of the controls either. *)
Lemma receive_controls (s : state) (data : string) :
  same_controls s (process_output (with_buffer (buffer s +++ data) s)).
Proof.
  eapply same_controls_trans; [| apply process_output_controls].
  repeat split.
Qed.

(** The always-on part keeps the modes, the menu and the station lists. *)
Lemma always_on_mode (t : Q) (s : state) : mode (always_on t s) = mode s.
Proof.
  unfold always_on. repeat (break_match; try reflexivity).
Qed.

Lemma always_on_mn (t : Q) (s : state) : mn (always_on t s) = mn s.
Proof.
  unfold always_on. repeat (break_match; try reflexivity).
Qed.

Lemma always_on_stations (t : Q) (s : state) :
  station_list (always_on t s) = station_list s /\
  station_ids (always_on t s) = station_ids s.
Proof.
  unfold always_on. repeat (break_match; try (split; reflexivity)).
Qed.

(** Outside the station menu the always-on part makes the target volume
    the current one; inside it leaves both alone. *)
Lemma always_on_vol (t : Q) (s : state) :
  vol_new (vol (always_on t s)) = vol_new (vol s) /\
  vol_speed (vol (always_on t s)) = vol_speed (vol s) /\
  vol_cur (vol (always_on t s))
  = if sta_sel (mode s) then vol_cur (vol s) else vol_new (vol s).
Proof.
  unfold always_on.
  destruct (sta_sel (mode s)); [repeat split |].
  repeat (break_match; try (repeat split; reflexivity)).
Qed.

(** ** Induction over the passes of the main loop *)

(** A property of states that every pass keeps holds along every run. *)
Lemma run_invariant (P : state -> Prop) :
  (forall i s s', P s -> tick i s = Ok s' -> P s') ->
  forall ins s s', P s -> run ins s = Ok s' -> P s'.
Proof.
  intros Hstep ins; induction ins as [|i ins IH]; intros s s' HP Hrun;
    simpl in Hrun.
  - now inversion Hrun; subst.
  - destruct (tick i s) as [s1 | |] eqn:Ht; try discriminate.
    eapply IH; [eapply Hstep; eassumption | exact Hrun].
Qed.

(** A pass is the three phases in sequence. *)
Lemma tick_phases (i : input) (s s' : state) :
  tick i s = Ok s' ->
  exists s2,
    buttons i (process_output (with_buffer (buffer s +++ incoming i) s))
    = Ok s2 /\ s' = always_on (now i) s2.
Proof.
  unfold tick. intros H.
  destruct (buttons i _) as [s2 | |] eqn:Hb; try discriminate.
  inversion H; subst. now exists s2.
Qed.

Ltac unfold_buttons :=
  unfold buttons, on_select, on_right, on_left, on_updown_menu,
    on_updown_volume, on_idle.

(** ** The mode flags *)

Lemma buttons_modes_ok (i : input) (s : state) :
  modes_ok s ->
  match buttons i s with Ok s' => modes_ok s' | _ => True end.
Proof.
  unfold modes_ok. destruct s as [v [vs p ss pt] n g sl si b tr]; simpl.
  intros H. unfold_buttons; simpl.
  repeat (break_match; simpl; try exact I; try reflexivity; try assumption);
    destruct vs; simpl in *; congruence.
Qed.

Lemma tick_modes_ok (i : input) (s s' : state) :
  modes_ok s -> tick i s = Ok s' -> modes_ok s'.
Proof.
  intros H Ht. apply tick_phases in Ht as (s2 & Hb & ->).
  unfold modes_ok. rewrite always_on_mode.
  pose proof (receive_controls s (incoming i)) as (_ & Hm & _).
  pose proof (buttons_modes_ok i
    (process_output (with_buffer (buffer s +++ incoming i) s))) as Hk.
  rewrite Hb in Hk. apply Hk. unfold modes_ok. now rewrite Hm.
Qed.

(** How the flags can be raised by the button cascade: [sta_sel] only by
    the left button, which clears [vol_set]; [vol_set] only by up/down
    outside the station menu. *)
Lemma buttons_raise_flags (i : input) (s : state) :
  match buttons i s with
  | Ok s' =>
      (sta_sel (mode s) = false -> sta_sel (mode s') = true ->
       btn_left i = true /\ vol_set (mode s') = false) /\
      (vol_set (mode s) = false -> vol_set (mode s') = true ->
       (btn_up i || btn_down i) = true /\
       sta_sel (mode s) = false /\ sta_sel (mode s') = false)
  | _ => True
  end.
Proof.
  destruct s as [v [vs p ss pt] n g sl si b tr]; simpl.
  unfold_buttons; simpl.
  repeat (break_match; simpl; try exact I);
    split; intros; subst; simpl in *; try discriminate; auto.
Qed.

(** The state the main loop starts from. *)
Lemma startup_shape (pk : pickle) (lines : list string) (s0 : state) :
  startup pk lines = Ok s0 ->
  exists num id,
    Py.index (snd (get_stations lines)) num = Some id /\
    s0 = mkState
           (mkVolume VOL_MIN
              match pk with Some (v, _) => v | None => VOL_DEFAULT end 1 0)
           (mkModes false false false 0)
           (mkNow EmptyString EmptyString 16 16 0 0)
           (mkMenu num 0 0 0 0 0)
           (fst (get_stations lines)) (snd (get_stations lines))
           EmptyString [Send (id +++ Py.chr 10)].
Proof.
  unfold startup. destruct (get_stations lines) as [names ids]; simpl.
  set (num := match match pk with Some (_, d) => d | None => None end with
              | Some d => _ | None => 0 end).
  destruct (Py.index ids num) as [id |] eqn:E; [| discriminate].
  intros H; inversion H; subst. now exists num, id.
Qed.

(** C2: the volume-adjust and station-menu flags are never both set in a
    state the main loop reaches, so exactly one of the modes Normal,
    VolumeAdjust and StationMenu is active at every sampled instant; a pass
    that enters the station menu is a left-button pass and leaves [vol_set]
    false, and a pass that enters volume-adjust mode is an up/down pass
    taken outside the station menu. *)
Theorem C2_modes_mutually_exclusive :
  (forall pk lines s0 ins s,
      startup pk lines = Ok s0 -> run ins s0 = Ok s ->
      (vol_set (mode s) && sta_sel (mode s) = false) /\
      (exists m, active m s = true /\ forall m', active m' s = true -> m' = m))
  /\
  (forall i s s',
      tick i s = Ok s' ->
      sta_sel (mode s) = false -> sta_sel (mode s') = true ->
      btn_left i = true /\ vol_set (mode s') = false)
  /\
  (forall i s s',
      tick i s = Ok s' ->
      vol_set (mode s) = false -> vol_set (mode s') = true ->
      (btn_up i || btn_down i) = true /\
      sta_sel (mode s) = false /\ sta_sel (mode s') = false).
Proof.
  split; [| split].
  - intros pk lines s0 ins s Hs Hrun.
    assert (Hok : modes_ok s).
    { apply (run_invariant modes_ok tick_modes_ok ins s0 s); [| exact Hrun].
      apply startup_shape in Hs as (num & id & _ & ->). reflexivity. }
    split; [exact Hok |].
    unfold modes_ok in Hok. unfold active.
    destruct (vol_set (mode s)) eqn:Hv, (sta_sel (mode s)) eqn:Hm;
      try discriminate Hok.
    + exists VolumeAdjust. split; [reflexivity |].
      intros [| |]; simpl; intros; congruence.
    + exists StationMenu. split; [reflexivity |].
      intros [| |]; simpl; intros; congruence.
    + exists Normal. split; [reflexivity |].
      intros [| |]; simpl; intros; congruence.
  - intros i s s' Ht H0 H1.
    apply tick_phases in Ht as (s2 & Hb & ->).
    rewrite always_on_mode in *.
    pose proof (receive_controls s (incoming i)) as (_ & Hm & _).
    pose proof (buttons_raise_flags i
      (process_output (with_buffer (buffer s +++ incoming i) s))) as Hk.
    rewrite Hb, Hm in Hk. now apply Hk.
  - intros i s s' Ht H0 H1.
    apply tick_phases in Ht as (s2 & Hb & ->).
    rewrite always_on_mode in *.
    pose proof (receive_controls s (incoming i)) as (_ & Hm & _).
    pose proof (buttons_raise_flags i
      (process_output (with_buffer (buffer s +++ incoming i) s))) as Hk.
    rewrite Hb, Hm in Hk. now apply Hk.
Qed.

(** ** The station menu *)

Lemma buttons_menu_ok (i : input) (s : state) :
  menu_ok s ->
  match buttons i s with Ok s' => menu_ok s' | _ => True end.
Proof.
  unfold menu_ok.
  destruct s as [v m n [num new cy top xs bt] sl si b tr]; simpl.
  intros H. unfold_buttons; simpl.
  repeat (break_match; simpl; try exact I; try assumption);
    repeat match goal with
           | H : (_, _) = (_, _) |- _ => inversion H; subst; clear H
           end;
    lia.
Qed.

Lemma tick_menu_ok (i : input) (s s' : state) :
  menu_ok s -> tick i s = Ok s' -> menu_ok s'.
Proof.
  intros H Ht. apply tick_phases in Ht as (s2 & Hb & ->).
  pose proof (receive_controls s (incoming i)) as (_ & _ & Hg & Hl & Hi).
  pose proof (buttons_menu_ok i
    (process_output (with_buffer (buffer s +++ incoming i) s))) as Hk.
  rewrite Hb in Hk. unfold menu_ok in *.
  destruct (always_on_stations (now i) s2) as [-> ->].
  rewrite always_on_mn. apply Hk. now rewrite Hg, Hl, Hi.
Qed.

Lemma index_some_length {A : Type} (l : list A) (i : Z) (x : A) :
  Py.index l i = Some x -> 1 <= Z.of_nat (List.length l).
Proof.
  unfold Py.index. destruct l; simpl; [| lia].
  destruct (_ && _); [destruct (Z.to_nat _) |]; intros H; discriminate H.
Qed.

Lemma startup_menu_ok (pk : pickle) (lines : list string) (s0 : state) :
  startup pk lines = Ok s0 -> menu_ok s0.
Proof.
  intros H. apply startup_shape in H as (num & id & Hid & ->).
  unfold menu_ok; simpl.
  apply index_some_length in Hid.
  pose proof (get_stations_lengths lines). lia.
Qed.

(** C8: in every state the main loop reaches (the station menu open or
    not), the highlight [station_new] is an index of the station list and
    lies in the two rows displayed from [list_top]; the window top is never
    negative. *)
Theorem C8_menu_highlight_in_window :
  forall pk lines s0 ins s,
    startup pk lines = Ok s0 -> run ins s0 = Ok s ->
    0 <= station_new (mn s) <= Z.of_nat (List.length (station_list s)) - 1 /\
    list_top (mn s) <= station_new (mn s) <= list_top (mn s) + 1 /\
    0 <= list_top (mn s).
Proof.
  intros pk lines s0 ins s Hs Hrun.
  assert (H : menu_ok s).
  { apply (run_invariant menu_ok tick_menu_ok ins s0 s); [| exact Hrun].
    eapply startup_menu_ok; eassumption. }
  unfold menu_ok in H. lia.
Qed.

(** ** The volume *)

Lemma gt_false (a b : Q) : Py.gt a b = false -> (a <= b)%Q.
Proof.
  unfold Py.gt. intros H. apply Qle_alt. intros E. now rewrite E in H.
Qed.

Lemma lt_false (a b : Q) : Py.lt a b = false -> (b <= a)%Q.
Proof.
  unfold Py.lt. intros H. apply Qge_alt. intros E. now rewrite E in H.
Qed.

(** The clamped target of one volume press, from a current volume in range
    and a speed that is not negative. *)
Lemma clamp_up_in_range (c sp : Q) :
  in_range c -> (0 <= sp)%Q ->
  in_range (if Py.gt (c + sp) VOL_MAX then VOL_MAX else (c + sp)%Q).
Proof.
  unfold in_range, VOL_MIN, VOL_MAX. intros [H1 H2] H3.
  destruct (Py.gt _ _) eqn:E.
  - split; lra.
  - apply gt_false in E. split; lra.
Qed.

Lemma clamp_down_in_range (c sp : Q) :
  in_range c -> (0 <= sp)%Q ->
  in_range (if Py.lt (c - sp) VOL_MIN then VOL_MIN else (c - sp)%Q).
Proof.
  unfold in_range, VOL_MIN, VOL_MAX. intros [H1 H2] H3.
  destruct (Py.lt _ _) eqn:E.
  - split; lra.
  - apply lt_false in E. split; lra.
Qed.

Lemma buttons_volume_ok (i : input) (s : state) :
  volume_ok s ->
  match buttons i s with Ok s' => volume_ok s' | _ => True end.
Proof.
  unfold volume_ok.
  destruct s as [[vc vn sp vt] m n g sl si b tr]; simpl.
  intros (Hc & Hn & Hs). unfold_buttons; simpl.
  repeat (break_match; simpl; try exact I; try (repeat split; assumption));
    repeat match goal with
           | H : Py.gt _ _ = false |- _ => apply gt_false in H
           | H : Py.lt _ _ = false |- _ => apply lt_false in H
           end;
    unfold in_range, VOL_MIN, VOL_MAX in *; repeat split; lra.
Qed.

Lemma tick_volume_ok (i : input) (s s' : state) :
  volume_ok s -> tick i s = Ok s' -> volume_ok s'.
Proof.
  intros H Ht. apply tick_phases in Ht as (s2 & Hb & ->).
  pose proof (receive_controls s (incoming i)) as (Hv & _).
  pose proof (buttons_volume_ok i
    (process_output (with_buffer (buffer s +++ incoming i) s))) as Hk.
  rewrite Hb in Hk. unfold volume_ok in *. rewrite Hv in Hk.
  specialize (Hk H). destruct Hk as (Hc & Hn & Hs).
  destruct (always_on_vol (now i) s2) as (-> & -> & ->).
  destruct (sta_sel (mode s2)); auto.
Qed.

(** What the volume branch assigns to the target volume. *)
Lemma volume_branch_target (i : input) (s s' : state) :
  tick i s = Ok s' -> volume_branch i s = true ->
  vol_new (vol s') =
  let speed := if vol_set (mode s) then vol_speed (vol s) else 1%Q in
  if btn_up i then Qmin (vol_cur (vol s) + speed) VOL_MAX
  else Qmax (vol_cur (vol s) - speed) VOL_MIN.
Proof.
  intros Ht Hbr. apply tick_phases in Ht as (s2 & Hb & ->).
  destruct (always_on_vol (now i) s2) as (-> & _).
  pose proof (receive_controls s (incoming i)) as (Hv & Hm & _).
  revert Hb Hv Hm.
  generalize (process_output (with_buffer (buffer s +++ incoming i) s)).
  intros s1 Hb Hv Hm. unfold volume_branch in Hbr.
  unfold buttons in Hb. rewrite <- Hm in Hbr.
  destruct (btn_sel i), (btn_right i), (btn_left i); try discriminate Hbr.
  simpl in Hbr. destruct (btn_up i || btn_down i); [| discriminate Hbr].
  simpl in Hbr. destruct (sta_sel (mode s1)); [discriminate Hbr |].
  inversion Hb; subst s2; clear Hb. rewrite <- Hv, <- Hm.
  unfold on_updown_volume, Qmin, Qmax, GenericMinMax.gmin,
    GenericMinMax.gmax, Py.gt, Py.lt; simpl.
  destruct (btn_up i), (vol_set (mode s1)); simpl;
    destruct (_ ?= _)%Q; reflexivity.
Qed.

(** *** The target volume stays in range *)

(** C1 (as stated, refuted): with the volume -100 in the pickle file, one
    pass without buttons and then one pass with the up button leave the
    target volume at -99, below [VOL_MIN]. *)
Lemma C1_counterexample_low_pickle :
  startup low_pickle demo_lines = Ok low_start /\
  run low_inputs low_start = Ok low_end /\
  vol_new (vol low_end) = (-99) # 1 /\
  ~ in_range (vol_new (vol low_end)).
Proof.
  repeat split; try (vm_compute; reflexivity).
  unfold in_range. intros [H _]. vm_compute in H. now apply H.
Qed.

(** C1 (amended): when the session starts from a volume in range (no pickle
    file, or a stored volume within [VOL_MIN, VOL_MAX]), the target and the
    current volume are within [VOL_MIN, VOL_MAX] after every pass of the
    main loop, whatever the buttons and however far [vol_speed] has grown;
    a pass through the volume branch sets [vol_new] to
    [min(vol_cur + vol_speed, VOL_MAX)] on up and to
    [max(vol_cur - vol_speed, VOL_MIN)] on down, [vol_speed] being 1 when
    volume-setting mode is just entered; and that target is in range
    whenever [vol_cur] was, for every speed that is not negative. *)
Theorem C1_volume_within_bounds :
  (forall pk lines s0 ins s,
      startup pk lines = Ok s0 -> stored_in_range pk -> run ins s0 = Ok s ->
      in_range (vol_new (vol s)) /\ in_range (vol_cur (vol s)))
  /\
  (forall i s s',
      tick i s = Ok s' -> volume_branch i s = true ->
      vol_new (vol s') =
      let speed := if vol_set (mode s) then vol_speed (vol s) else 1%Q in
      if btn_up i then Qmin (vol_cur (vol s) + speed) VOL_MAX
      else Qmax (vol_cur (vol s) - speed) VOL_MIN)
  /\
  (forall i s s',
      tick i s = Ok s' -> volume_branch i s = true ->
      in_range (vol_cur (vol s)) -> (0 <= vol_speed (vol s))%Q ->
      in_range (vol_new (vol s'))).
Proof.
  split; [| split].
  - intros pk lines s0 ins s Hs Hpk Hrun.
    assert (H : volume_ok s).
    { apply (run_invariant volume_ok tick_volume_ok ins s0 s); [| exact Hrun].
      apply startup_shape in Hs as (num & id & _ & ->).
      unfold volume_ok; simpl. repeat split;
        try (unfold VOL_MIN, VOL_MAX; lra).
      - destruct pk as [[v d] |]; [apply Hpk |].
        unfold VOL_MIN, VOL_DEFAULT; lra.
      - destruct pk as [[v d] |]; [apply Hpk |].
        unfold VOL_MAX, VOL_DEFAULT; lra. }
    unfold volume_ok in H. tauto.
  - exact volume_branch_target.
  - intros i s s' Ht Hbr Hc Hsp.
    rewrite (volume_branch_target i s s' Ht Hbr). cbv zeta.
    assert (Hsp' : (0 <= if vol_set (mode s) then vol_speed (vol s) else 1)%Q).
    { destruct (vol_set (mode s)); [exact Hsp | lra]. }
    pose proof (clamp_up_in_range _ _ Hc Hsp') as Hu.
    pose proof (clamp_down_in_range _ _ Hc Hsp') as Hd.
    unfold Qmin, Qmax, GenericMinMax.gmin, GenericMinMax.gmax.
    unfold Py.gt in Hu. unfold Py.lt in Hd.
    destruct (btn_up i).
    + clear Hd. revert Hu. destruct (_ ?= _)%Q; intros Hu; exact Hu.
    + clear Hu. revert Hd. destruct (_ ?= _)%Q; intros Hd; exact Hd.
Qed.

(** The amended C1 on the session with the up button held *)
Lemma C1_witness_held_up :
  in_range (vol_new (vol held_up_end)) /\ in_range (vol_cur (vol held_up_end)).
Proof.
  apply (proj1 C1_volume_within_bounds None demo_lines fresh_start held_up
               held_up_end).
  - vm_compute; reflexivity.
  - exact I.
  - vm_compute; reflexivity.
Defined.

(** *** The restored volume *)

Lemma sent_app (a b : list action) : sent (a ++ b) = sent a ++ sent b.
Proof.
  induction a as [|x a IH]; simpl; [reflexivity |].
  destruct x; simpl; now rewrite IH.
Qed.

(** The parser sends nothing to pianobar. *)
Lemma parse_step_sent (s : state) :
  sent (trace (fst (parse_step s))) = sent (trace s).
Proof.
  unfold parse_step.
  repeat (break_match; simpl; try reflexivity);
    rewrite sent_app; simpl; apply app_nil_r.
Qed.

Lemma process_output_loop_sent (fuel : nat) :
  forall s, sent (trace (process_output_loop fuel s)) = sent (trace s).
Proof.
  induction fuel as [|fuel IH]; intros s; simpl; [reflexivity |].
  pose proof (parse_step_sent s) as H.
  destruct (parse_step s) as [s' c]; simpl in H.
  destruct c; [now rewrite IH | exact H].
Qed.

(** A pass off the volume branch does not assign the target volume. *)
Lemma buttons_keep_target (i : input) (s : state) :
  volume_branch i s = false ->
  match buttons i s with
  | Ok s' => vol_new (vol s') = vol_new (vol s)
  | _ => True
  end.
Proof.
  unfold volume_branch.
  destruct s as [[vc vn sp vt] [vs p ss pt] n g sl si b tr]; simpl.
  unfold_buttons; simpl. intros H.
  repeat (break_match; simpl; try exact I; try reflexivity);
    simpl in H; discriminate H.
Qed.

Lemma marquee_sent (s : string) (x y w : Z) : sent (snd (marquee s x y w)) = [].
Proof. unfold marquee. destruct (x >? 0); reflexivity. Qed.

Lemma volume_bar_delta_sent (a b : Z) : sent (volume_bar_delta a b) = [].
Proof. unfold volume_bar_delta. destruct (b >? a); reflexivity. Qed.

(** Outside the station menu the always-on part sends the volume keys and
    nothing else. *)
Lemma always_on_sent (t : Q) (s : state) :
  sta_sel (mode s) = false ->
  sent (trace (always_on t s))
  = sent (trace s) ++
    let vol_cur_i := Py.int ((vol_cur (vol s) - VOL_MIN) + (1 # 2)) in
    let vol_new_i := Py.int ((vol_new (vol s) - VOL_MIN) + (1 # 2)) in
    if vol_cur_i =? vol_new_i then []
    else [volume_keys (vol_new_i - vol_cur_i)].
Proof.
  intros H. unfold always_on. rewrite H. cbv zeta.
  pose proof (marquee_sent (song_title (np s)) (x_title (np s)) 0
                           (x_title_wrap (np s))) as M1.
  destruct (marquee (song_title (np s)) _ 0 _) as [xt acts].
  cbn [snd] in M1. cbn [song_info x_info x_info_wrap song_title x_title
                        x_title_wrap].
  pose proof (marquee_sent (song_info (np s)) (x_info (np s)) 1
                           (x_info_wrap (np s))) as M2.
  destruct (marquee (song_info (np s)) _ 1 _) as [xi acts'].
  cbn [snd] in M2.
  pose proof (volume_bar_delta_sent
                (Py.int ((vol_cur (vol s) - VOL_MIN) + (1 # 2)))
                (Py.int ((vol_new (vol s) - VOL_MIN) + (1 # 2)))) as M3.
  destruct (_ =? _) eqn:E1.
  - rewrite Z.eqb_sym, E1.
    repeat (break_match; cbn [trace emit with_vol with_np];
            rewrite ?sent_app, ?M1, ?M2, ?app_nil_r; try reflexivity).
  - rewrite Z.eqb_sym, E1.
    repeat (break_match; cbn [trace emit with_vol with_np];
            rewrite ?sent_app, ?M1, ?M2, ?M3, ?app_nil_r;
            try reflexivity).
Qed.

(** From the normal mode, a pass that neither takes the volume branch nor
    opens the station menu sends the key of its button, keeps the volumes
    and stays out of the menu. *)
Lemma buttons_from_normal (i : input) (s : state) :
  vol_set (mode s) = false -> sta_sel (mode s) = false ->
  volume_branch i s = false ->
  (btn_sel i || btn_right i || negb (btn_left i)) = true ->
  match buttons i s with
  | Ok s' =>
      vol s' = vol s /\ sta_sel (mode s') = false /\
      sent (trace s') = sent (trace s) ++ button_keys i
  | _ => True
  end.
Proof.
  unfold volume_branch, button_keys.
  destruct s as [v [vs p ss pt] n g sl si b tr]; simpl.
  intros -> -> Hbr Hnl. unfold_buttons; simpl.
  repeat (break_match; simpl; try exact I);
    simpl in *; try discriminate;
    repeat split; rewrite ?sent_app, ?app_nil_r; reflexivity.
Qed.

(** The first pass after start-up, off the volume branch and not into the
    station menu: the stored volume becomes the current one, and the keys
    for the whole difference go out. *)
Lemma first_pass_sent (v : Q) (d : option string) (lines : list string)
  (s0 : state) (i : input) (s1 : state) :
  startup (Some (v, d)) lines = Ok s0 -> tick i s0 = Ok s1 ->
  volume_branch i s0 = false ->
  (btn_sel i || btn_right i || negb (btn_left i)) = true ->
  let delta := Py.int ((v - VOL_MIN) + (1 # 2)) in
  vol_cur (vol s1) = v /\ vol_new (vol s1) = v /\
  sent (trace s1)
  = sent (trace s0) ++ button_keys i ++
    (if delta =? 0 then [] else [volume_keys delta]).
Proof.
  intros Hs Ht Hbr Hnl.
  apply startup_shape in Hs as (num & id & _ & ->).
  apply tick_phases in Ht as (s2 & Hb & ->).
  match type of Hb with buttons i ?x = _ => set (r := x) in * end.
  match type of Hbr with volume_branch i ?x = _ => set (s0 := x) in * end.
  pose proof (receive_controls s0 (incoming i)) as (Hv & Hm & _).
  fold r in Hv, Hm.
  assert (Htr : sent (trace r) = sent (trace s0)).
  { unfold r, process_output. now rewrite process_output_loop_sent. }
  pose proof (buttons_from_normal i r) as Hk.
  rewrite Hb, Hm in Hk.
  destruct Hk as (Hv2 & Hm2 & Htr2); try reflexivity; try exact Hnl.
  { unfold volume_branch in *. now rewrite Hm. }
  destruct (always_on_vol (now i) s2) as (-> & _ & ->).
  rewrite (always_on_sent _ _ Hm2), Hm2, Hv2, Hv, Htr2, Htr.
  cbv zeta. cbn [vol s0 vol_cur vol_new].
  change (Py.int ((VOL_MIN - VOL_MIN) + (1 # 2))) with 0.
  rewrite Z.sub_0_r, (Z.eqb_sym 0), <- app_assoc. repeat split.
Qed.

(** The first pass through the volume branch: the target is one unit above
    [VOL_MIN] on up, [VOL_MIN] on down, whatever was stored. *)
Lemma first_pass_press (v : Q) (d : option string) (lines : list string)
  (s0 : state) (i : input) (s1 : state) :
  startup (Some (v, d)) lines = Ok s0 -> tick i s0 = Ok s1 ->
  volume_branch i s0 = true ->
  vol_new (vol s1) = (if btn_up i then (-19) # 1 else (-20) # 1) /\
  vol_cur (vol s1) = vol_new (vol s1) /\
  sent (trace s1)
  = sent (trace s0) ++ (if btn_up i then [")"%string] else []).
Proof.
  intros Hs Ht Hbr.
  pose proof (volume_branch_target i s0 s1 Ht Hbr) as Hn.
  apply startup_shape in Hs as (num & id & _ & ->).
  cbn [mode vol vol_set vol_cur] in Hn. cbv zeta in Hn.
  apply tick_phases in Ht as (s2 & Hb & ->).
  match type of Hb with buttons i ?x = _ => set (r := x) in * end.
  match type of Hbr with volume_branch i ?x = _ => set (s0 := x) in * end.
  pose proof (receive_controls s0 (incoming i)) as (Hv & Hm & _).
  fold r in Hv, Hm.
  assert (Htr : sent (trace r) = sent (trace s0)).
  { unfold r, process_output. now rewrite process_output_loop_sent. }
  clearbody r.
  unfold volume_branch in Hbr. cbn [mode s0 sta_sel] in Hbr.
  unfold buttons in Hb. rewrite Hm in Hb. cbn [mode s0 sta_sel] in Hb.
  destruct (btn_sel i), (btn_right i), (btn_left i); try discriminate Hbr.
  cbn [negb andb] in Hbr. rewrite andb_true_r in Hbr. rewrite Hbr in Hb.
  inversion Hb; subst s2; clear Hb.
  assert (Hm2 : sta_sel (mode (on_updown_volume (now i) (btn_up i) r)) = false).
  { unfold on_updown_volume. cbn. now rewrite Hm. }
  assert (Hc2 : vol_cur (vol (on_updown_volume (now i) (btn_up i) r))
                = VOL_MIN).
  { unfold on_updown_volume. cbn. now rewrite Hv. }
  assert (Ht2 : sent (trace (on_updown_volume (now i) (btn_up i) r))
                = sent (trace s0)).
  { unfold on_updown_volume. cbn. rewrite Hm. cbn.
    rewrite sent_app, Htr. cbn. reflexivity. }
  destruct (always_on_vol (now i) (on_updown_volume (now i) (btn_up i) r))
    as (Hn2 & _ & Hcur).
  rewrite Hm2 in Hcur. rewrite Hn2 in Hn.
  rewrite (always_on_sent _ _ Hm2), Hcur, Hn2, Hc2, Hn, Ht2.
  destruct (btn_up i); repeat split.
Qed.

(** [s * n] for a string of one key *)
Lemma mul_key_run (c : ascii) (n : Z) :
  Py.mul (String c EmptyString) n = key_run c (Z.to_nat n).
Proof.
  unfold Py.mul, key_run.
  induction (Z.to_nat n) as [|k IH]; cbn; [reflexivity |].
  now rewrite IH.
Qed.

Lemma volume_keys_run (d : Z) :
  (if d =? 0 then [] else [volume_keys d]) = unit_keys d.
Proof.
  unfold unit_keys, volume_keys.
  destruct (d =? 0) eqn:E; [reflexivity |].
  apply Z.eqb_neq in E. f_equal.
  destruct (d >? 0) eqn:G.
  - assert (H : (0 <? d) = true) by lia. rewrite H, mul_key_run.
    f_equal. lia.
  - assert (H : (0 <? d) = false) by lia. rewrite H, mul_key_run.
    f_equal. lia.
Qed.

(** [int] truncates: it is less than one away from its argument, and it
    does not depend on how the fraction is written. *)
Lemma int_near (q : Q) :
  (q - 1 < inject_Z (Py.int q))%Q /\ (inject_Z (Py.int q) < q + 1)%Q.
Proof.
  destruct q as [a d]. unfold Py.int, Qlt, Qminus, Qplus, Qopp, inject_Z.
  cbn [Qnum Qden].
  pose proof (Z.quot_rem' a (Zpos d)) as E.
  pose proof (Z.rem_bound_abs a (Zpos d) ltac:(lia)) as B.
  split; nia.
Qed.

Lemma int_Qeq (q q' : Q) : (q == q')%Q -> Py.int q = Py.int q'.
Proof.
  destruct q as [a d], q' as [a' d']. unfold Qeq, Py.int. cbn [Qnum Qden].
  intros H.
  rewrite <- (Z.quot_mul_cancel_r a (Zpos d) (Zpos d')) by lia.
  rewrite <- (Z.quot_mul_cancel_r a' (Zpos d') (Zpos d)) by lia.
  rewrite H. f_equal. lia.
Qed.

(** C9 (as stated, refuted): with the volume -100 in the pickle file and
    the up button pressed on the first pass, the first pass does not send
    the keys for the difference between the stored volume and [VOL_MIN]
    (79 keys down): the press computes the target from the current volume
    [VOL_MIN], the stored volume is lost, and one key up is sent. *)
Lemma C9_counterexample_up_on_first_pass :
  startup low_pickle demo_lines = Ok low_start /\
  vol_new (vol low_start) = (-100) # 1 /\
  Py.int (((-100 # 1) - VOL_MIN) + (1 # 2)) = -79 /\
  tick (press_up 1) low_start = Ok up_first /\
  vol_new (vol up_first) = (-19) # 1 /\
  sent (trace up_first) = sent (trace low_start) ++ [")"%string] /\
  sent (trace up_first) <> sent (trace low_start) ++ unit_keys (-79).
Proof.
  repeat split; try (vm_compute; reflexivity).
  vm_compute. discriminate.
Qed.

(** C9 (amended): a volume [v] read from the pickle file becomes the target
    volume as it is, in range or not, while the current volume starts at
    [VOL_MIN]; a pass that does not go through the up/down volume branch
    leaves the target volume as it is, so nothing else clamps it.  When the
    first pass neither takes the up/down volume branch nor opens the
    station menu, and the stored volume is at most a million either way,
    the pass makes the stored volume the current one and sends, after the
    keys of the buttons, one string of [|n|] unit keys for the whole
    difference, [')'] for [n > 0] and ['('] for [n < 0] and nothing for
    [n = 0], where [n] is [v - VOL_MIN] integerized: between
    [v - VOL_MIN - 1] and [v - VOL_MIN + 2], exactly [(k + 82) / 4]
    truncated when [v] is [k] quarters, and at most 1000021 either way.
    When the first pass does take the up/down volume branch, the stored
    volume is lost: the target is [VOL_MIN + 1] on up, with one key [')']
    sent, and [VOL_MIN] on down, with no key sent. *)
Theorem C9_restored_volume_not_clamped :
  (forall v d lines s0,
      startup (Some (v, d)) lines = Ok s0 ->
      vol_new (vol s0) = v /\ vol_cur (vol s0) = VOL_MIN)
  /\
  (forall i s s',
      tick i s = Ok s' -> volume_branch i s = false ->
      vol_new (vol s') = vol_new (vol s))
  /\
  (forall v d lines s0 i s1,
      startup (Some (v, d)) lines = Ok s0 -> tick i s0 = Ok s1 ->
      volume_branch i s0 = false ->
      (btn_sel i || btn_right i || negb (btn_left i)) = true ->
      moderate v ->
      exists n,
        vol_cur (vol s1) = v /\ vol_new (vol s1) = v /\
        sent (trace s1) = sent (trace s0) ++ button_keys i ++ unit_keys n /\
        (v - VOL_MIN - 1 <= inject_Z n)%Q /\
        (inject_Z n <= v - VOL_MIN + 2)%Q /\
        (forall k, (v == k # 4)%Q -> n = Z.quot (k + 82) 4) /\
        Z.abs n <= 1000021)
  /\
  (forall v d lines s0 i s1,
      startup (Some (v, d)) lines = Ok s0 -> tick i s0 = Ok s1 ->
      volume_branch i s0 = true ->
      vol_new (vol s1) = (if btn_up i then (-19) # 1 else (-20) # 1) /\
      vol_cur (vol s1) = vol_new (vol s1) /\
      sent (trace s1)
      = sent (trace s0) ++ (if btn_up i then [")"%string] else [])).
Proof.
  split; [| split; [| split; [| exact first_pass_press]]].
  - intros v d lines s0 H.
    apply startup_shape in H as (num & id & _ & ->). now split.
  - intros i s s' Ht Hbr.
    apply tick_phases in Ht as (s2 & Hb & ->).
    destruct (always_on_vol (now i) s2) as (-> & _).
    pose proof (receive_controls s (incoming i)) as (Hv & Hm & _).
    pose proof (buttons_keep_target i
      (process_output (with_buffer (buffer s +++ incoming i) s))) as Hk.
    rewrite Hb in Hk. rewrite <- Hv. apply Hk.
    unfold volume_branch in *. now rewrite Hm.
  - intros v d lines s0 i s1 Hs Ht Hbr Hnl [Hlo Hhi].
    destruct (first_pass_sent v d lines s0 i s1 Hs Ht Hbr Hnl)
      as (Hc & Hn & Hsent).
    set (q := ((v - VOL_MIN) + (1 # 2))%Q) in *.
    exists (Py.int q). rewrite volume_keys_run in Hsent.
    split; [exact Hc |]. split; [exact Hn |]. split; [exact Hsent |].
    assert (Hq : forall k, (v == k # 4)%Q -> Py.int q = Z.quot (k + 82) 4).
    { intros k Hk.
      rewrite (int_Qeq q ((k + 82) # 4)); [reflexivity |].
      unfold q. rewrite Hk. unfold VOL_MIN, Qeq. simpl. lia. }
    destruct (int_near q) as [L U].
    set (n := Py.int q) in *. clearbody n.
    unfold q, VOL_MIN in *. clear q Hsent.
    split; [lra |]. split; [lra |]. split; [exact Hq |].
    assert (A : (inject_Z n < inject_Z 1000022)%Q)
      by (unfold inject_Z at 2; lra).
    assert (B : (inject_Z (-999981) < inject_Z n)%Q)
      by (unfold inject_Z at 1; lra).
    rewrite <- Zlt_Qlt in A, B. lia.
Qed.

(** The amended C9 on the session with -100 stored: 79 keys down on the
    first pass *)
Lemma C9_witness_low_pickle :
  vol_cur (vol low_first) = (-100) # 1 /\
  vol_new (vol low_first) = (-100) # 1 /\
  sent (trace low_first)
  = sent (trace low_start) ++
    ["((((((((((((((((((((((((((((((((((((((((((((((((((((((((((((((((((((((((((((((("%string].
Proof.
  destruct (proj1 (proj2 (proj2 C9_restored_volume_not_clamped))
              ((-100) # 1) (Some "80s Rock"%string) demo_lines low_start
              (no_buttons EmptyString 1) low_first)
    as (n & Hc & Hn & Hsent & _ & _ & Hq & _);
    try (vm_compute; reflexivity).
  - split; intros H; vm_compute in H; discriminate H.
  - rewrite (Hq (-400)) in Hsent by reflexivity.
    split; [exact Hc |]. split; [exact Hn |]. exact Hsent.
Defined.

(** ** Entering the station menu *)

(** C4 (as stated, refuted): with the second station of the list playing,
    the left button pressed in the normal mode puts the menu cursor on
    index 0, not on the index of the station that plays. *)
Lemma C4_counterexample_cursor_at_top :
  sta_sel (mode low_start) = false /\
  station_num (mn low_start) = 1 /\
  tick (press_left 1) low_start = Ok left_end /\
  station_num (mn left_end) = 1 /\
  station_new (mn left_end) = 0 /\
  station_new (mn left_end) <> station_num (mn left_end).
Proof. repeat split; try (vm_compute; reflexivity). discriminate. Qed.

(** C4 (amended): when the left button is the one acted on (select and
    right not pressed) outside the station menu, the pass succeeds, the
    station menu is active and volume-setting mode is not, the menu cursor
    [station_new], the window top, the on-screen row and the name scroll
    are reset to 0 (the top of the list, whichever station plays; the
    playing station [station_num] is kept), and the station list is
    requested and drawn: ['s'] goes to pianobar, glyph 7 becomes the play
    arrow, and [draw_stations] draws the first rows. *)
Theorem C4_left_enters_menu_at_top :
  forall i s,
    btn_sel i = false -> btn_right i = false -> btn_left i = true ->
    sta_sel (mode s) = false ->
    exists s',
      tick i s = Ok s' /\
      sta_sel (mode s') = true /\ vol_set (mode s') = false /\
      station_new (mn s') = 0 /\ list_top (mn s') = 0 /\
      cursorY (mn s') = 0 /\ x_station (mn s') = 0 /\
      station_num (mn s') = station_num (mn s) /\
      trace s'
      = trace (process_output (with_buffer (buffer s +++ incoming i) s)) ++
        [Send "s"; LcdCreateChar 7 0] ++
        snd (draw_stations (station_list s) (now i) 0 0 0 (now i)).
Proof.
  intros i s Hs Hr Hl Hm. unfold tick.
  pose proof (receive_controls s (incoming i)) as (_ & Hm' & Hg & Hsl & _).
  set (r := process_output _) in *.
  unfold buttons. rewrite Hs, Hr, Hl. unfold on_left.
  rewrite Hm', Hm, Hsl, Hg. cbn [negb].
  eexists; split; [reflexivity |].
  unfold always_on. cbn. rewrite <- app_assoc. repeat split.
Qed.

(** The amended C4 on a left press as the first pass *)
Lemma C4_witness_left_from_normal :
  exists s',
    tick (press_left 1) low_start = Ok s' /\
    sta_sel (mode s') = true /\ vol_set (mode s') = false /\
    station_new (mn s') = 0 /\ list_top (mn s') = 0 /\
    cursorY (mn s') = 0 /\ x_station (mn s') = 0 /\
    station_num (mn s') = station_num (mn low_start) /\
    trace s'
    = trace (process_output
               (with_buffer (buffer low_start +++ incoming (press_left 1))
                            low_start)) ++
      [Send "s"; LcdCreateChar 7 0] ++
      snd (draw_stations (station_list low_start) (now (press_left 1)) 0 0 0
                         (now (press_left 1))).
Proof.
  apply (C4_left_enters_menu_at_top (press_left 1) low_start); reflexivity.
Defined.

(** ** The song announcement *)

(** A turn that ends on a timeout is the last one of the loop. *)
Lemma process_output_abandon (s : state) :
  snd (parse_step s) = false -> process_output s = fst (parse_step s).
Proof.
  intros H. unfold process_output.
  destruct (String.length (buffer s)) as [|n] eqn:E.
  - unfold parse_step. destruct (buffer s); [reflexivity | discriminate E].
  - cbn [process_output_loop].
    destruct (parse_step s) as [s' c]; cbn [fst snd] in *. now subst c.
Qed.

(** C3 (as stated, refuted): an announcement of which only the title field
    arrives is abandoned, and the now-playing record is not what it was:
    the title line is the new title's, the artist/album line is blank.  An
    announcement without even a complete title leaves both lines blank. *)
Lemma C3_counterexample_record_reset :
  snd (parse_step cut_state) = false /\
  np (fst (parse_step cut_state))
  = mkNow "Life    Life    Life    Life    " EmptyString 16 16 (-6) 0 /\
  np (process_output cut_state) <> np cut_state /\
  snd (parse_step cut_state_title) = false /\
  np (process_output cut_state_title)
  = mkNow EmptyString EmptyString 16 16 0 0 /\
  np (process_output cut_state_title) <> np cut_state_title.
Proof.
  repeat split; try (vm_compute; reflexivity); vm_compute; discriminate.
Qed.

(** C3 (amended): when the song marker is matched and one of the three
    fields is not matched before the timeout, the parse is abandoned, and
    the now-playing record is the one the parser had built by then, not the
    one from before the announcement: with the title missing, both marquee
    strings are empty, both offsets 16 and both wrap thresholds 0; with the
    title matched and the artist or the album missing, the title line is
    the new title's and the artist/album line is empty with threshold 0. *)
Theorem C3_abandoned_announcement :
  forall s before rest,
    expect pattern_list (buffer s) = Some (0, before, rest) ->
    snd (parse_step s) = false ->
    process_output s = fst (parse_step s) /\
    ((expect [SEP] rest = None /\
      np (process_output s) = mkNow EmptyString EmptyString 16 16 0 0)
     \/
     (exists title rest1,
         expect [SEP] rest = Some (0, title, rest1) /\
         np (process_output s)
         = mkNow (fst (title_marquee title)) EmptyString 16 16
                 (snd (title_marquee title)) 0)).
Proof.
  intros s before rest He Hs.
  rewrite (process_output_abandon s Hs). split; [reflexivity |].
  unfold parse_step in *. rewrite He in *.
  cbn [Z.eqb] in *.
  destruct (expect [SEP] rest) as [[[x title] rest1] |] eqn:E1.
  - right.
    assert (x = 0) as ->.
    { revert E1. clear. revert x title rest1.
      induction rest as [|c rest IH]; intros x title rest1; cbn [expect].
      - unfold match_here. destruct (prefix SEP EmptyString);
          intros H; inversion H; reflexivity.
      - unfold match_here. destruct (prefix SEP (String c rest)).
        + intros H; inversion H; reflexivity.
        + destruct (expect [SEP] rest) as [[[x' t'] r'] |]; [| discriminate].
          intros H; inversion H; subst. eapply IH; reflexivity. }
    exists title, rest1. split; [reflexivity |].
    destruct (title_marquee title) as [t w]; cbn [fst snd].
    destruct (expect [SEP] rest1) as [[[x2 artist] rest2] |]; [| reflexivity].
    cbn [with_buffer with_np buffer] in *.
    destruct (expect [CRLF] rest2) as [[[x3 album] rest3] |]; [| reflexivity].
    destruct (info_marquee artist album); discriminate Hs.
  - left. split; reflexivity.
Qed.

(** The amended C3 on the announcement cut after the artist began *)
Lemma C3_witness_cut_announcement :
  process_output cut_state = fst (parse_step cut_state) /\
  ((expect [SEP] "Life | Artist X" = None /\
    np (process_output cut_state) = mkNow EmptyString EmptyString 16 16 0 0)
   \/
   (exists title rest1,
       expect [SEP] "Life | Artist X" = Some (0, title, rest1) /\
       np (process_output cut_state)
       = mkNow (fst (title_marquee title)) EmptyString 16 16
               (snd (title_marquee title)) 0)).
Proof.
  apply (C3_abandoned_announcement cut_state EmptyString "Life | Artist X");
    vm_compute; reflexivity.
Defined.

(** C6 (as stated, refuted): on the announcement
    ["Life|Artist X|Album Y\r\n"] the separator [' | '] is never matched,
    the parse is abandoned and both marquee strings are empty. *)
Lemma C6_counterexample_bare_pipes :
  expect [SEP] ("Life|Artist X|Album Y" +++ CRLF) = None /\
  song_title (np (process_output (with_buffer bare_announcement fresh_start)))
  = EmptyString /\
  song_info (np (process_output (with_buffer bare_announcement fresh_start)))
  = EmptyString.
Proof. repeat split; vm_compute; reflexivity. Qed.

(** C6 (amended): on the announcement ["Life | Artist X | Album Y\r\n"],
    the fields divided by [' | '], the parser reads the title "Life", the
    artist "Artist X" and the album "Album Y", and the marquee strings of
    both display lines are built from them and are not empty; both offsets
    start at 16 and the announcement is consumed. *)
Theorem C6_song_announcement_parsed :
  forall s,
    let s' := process_output (with_buffer spaced_announcement s) in
    expect pattern_list spaced_announcement
    = Some (0, EmptyString, "Life | Artist X | Album Y" +++ CRLF) /\
    expect [SEP] ("Life | Artist X | Album Y" +++ CRLF)
    = Some (0, "Life"%string, "Artist X | Album Y" +++ CRLF) /\
    expect [SEP] ("Artist X | Album Y" +++ CRLF)
    = Some (0, "Artist X"%string, "Album Y" +++ CRLF) /\
    expect [CRLF] ("Album Y" +++ CRLF)
    = Some (0, "Album Y"%string, EmptyString) /\
    np s' = mkNow (fst (title_marquee "Life"))
                  (fst (info_marquee "Artist X" "Album Y")) 16 16
                  (snd (title_marquee "Life"))
                  (snd (info_marquee "Artist X" "Album Y")) /\
    song_title (np s') = "Life    Life    Life    Life    "%string /\
    song_info (np s')
    = "Artist X < Album Y > Artist X < Album Y > Artist X < Album"%string /\
    song_title (np s') <> EmptyString /\ song_info (np s') <> EmptyString /\
    buffer s' = EmptyString.
Proof.
  intros [v m p g sl si b tr]. cbv zeta.
  repeat split; try (vm_compute; reflexivity); vm_compute; discriminate.
Qed.

(** ** The marquee *)

Lemma marquee_next_eq (s : string) (y x_wrap x : Z) :
  marquee_next s y x_wrap x
  = if (x <=? 0) && (x <? x_wrap) then 0 else x - 1.
Proof.
  unfold marquee_next, marquee.
  destruct (x >? 0) eqn:E1, (x <=? 0) eqn:E2, (x <? x_wrap) eqn:E3;
    simpl; try reflexivity; lia.
Qed.

Lemma offsets_succ (s : string) (y x_wrap start : Z) (k : nat) :
  offsets s y x_wrap start (S k)
  = marquee_next s y x_wrap (offsets s y x_wrap start k).
Proof. reflexivity. Qed.

(** After the first pass the position is below the start position 16
    for good. *)
Lemma offsets_below_start (s : string) (y x_wrap : Z) (k : nat) :
  offsets s y x_wrap 16 (S k) <= 15.
Proof.
  assert (H : forall n, offsets s y x_wrap 16 n <= 16).
  { induction n as [|n IH]; [simpl; lia |].
    rewrite offsets_succ, marquee_next_eq.
    destruct (_ && _); lia. }
  rewrite offsets_succ, marquee_next_eq. specialize (H k).
  destruct (_ && _); lia.
Qed.

(** The scroll-in: 16, 15, ..., 0 *)
Lemma offsets_scroll_in (s : string) (y x_wrap : Z) (k : nat) :
  (k <= 16)%nat -> offsets s y x_wrap 16 k = 16 - Z.of_nat k.
Proof.
  induction k as [|k IH]; intros Hk; [reflexivity |].
  rewrite offsets_succ, IH, marquee_next_eq by lia.
  destruct (16 - Z.of_nat k <=? 0) eqn:E; [exfalso; lia | cbn [andb]; lia].
Qed.

(** The loop: from pass 16 on the position runs 0, -1, ..., x_wrap - 1
    again and again. *)
Lemma offsets_loop (s : string) (y x_wrap : Z) (k : nat) :
  x_wrap <= 0 ->
  offsets s y x_wrap 16 (16 + k) = - (Z.of_nat k mod (2 - x_wrap)).
Proof.
  intros Hw. induction k as [|k IH].
  - rewrite Nat.add_0_r, offsets_scroll_in by lia. reflexivity.
  - replace (16 + S k)%nat with (S (16 + k)) by lia.
    rewrite offsets_succ, IH, marquee_next_eq.
    set (P := 2 - x_wrap) in *.
    assert (HP : 0 < P) by (unfold P; lia).
    pose proof (Z.mod_pos_bound (Z.of_nat k) P HP) as Hb.
    pose proof (Z.div_mod (Z.of_nat k) P ltac:(lia)) as Hd.
    set (q := Z.of_nat k / P) in *. set (r := Z.of_nat k mod P) in *.
    destruct ((- r <=? 0) && (- r <? x_wrap)) eqn:E.
    + assert (r = P - 1) by (unfold P in *; lia).
      symmetry. apply Z.opp_inj. rewrite Z.opp_involutive. simpl Z.opp.
      symmetry. apply (Z.mod_unique_pos _ _ (q + 1) 0); lia.
    + assert (r + 1 < P) by (unfold P in *; lia).
      replace (- r - 1) with (- (r + 1)) by lia. f_equal.
      apply (Z.mod_unique_pos _ _ q (r + 1)); lia.
Qed.

(** C7 (as stated, refuted): for the marquee string of the title "Life"
    (wrap threshold -6), the position that has passed the threshold is
    followed by 0, not by the start position 16, and the sequence of
    positions that starts at 16 has no period at all, since 16 never comes
    back. *)
Lemma C7_counterexample_no_return_to_start :
  marquee_next "Life    Life    Life    Life    " 0 (-6) (-7) = 0 /\
  offsets "Life    Life    Life    Life    " 0 (-6) 16 0 = 16 /\
  ~ (exists p : nat,
        (0 < p)%nat /\
        forall k : nat,
          offsets "Life    Life    Life    Life    " 0 (-6) 16 (k + p)
          = offsets "Life    Life    Life    Life    " 0 (-6) 16 k).
Proof.
  split; [reflexivity | split; [reflexivity |]].
  intros (p & Hp & H). specialize (H 0%nat).
  destruct p as [|p]; [lia |].
  pose proof (offsets_below_start "Life    Life    Life    Life    " 0 (-6) p).
  change (0 + S p)%nat with (S p) in H. rewrite H in H0.
  change (offsets "Life    Life    Life    Life    " 0 (-6) 16 0) with 16 in H0.
  lia.
Qed.

(** C7 (amended): for every string and every wrap threshold [x_wrap <= 0]
    (the program computes [-(len(text) + padding) + 2], or 0), the position
    goes down by one on each pass while it is at or above the threshold and
    is set to 0 (not to the start position 16) once it is below it; so from
    the start position 16 it runs 16, 15, ..., 1 once and from then on
    0, -1, ..., x_wrap - 1 for ever, with period [2 - x_wrap]. *)
Theorem C7_marquee_eventually_periodic :
  forall s y x_wrap,
    x_wrap <= 0 ->
    (forall x, x_wrap <= x -> marquee_next s y x_wrap x = x - 1) /\
    (forall x, x < x_wrap -> marquee_next s y x_wrap x = 0) /\
    (forall k, (k <= 16)%nat ->
               offsets s y x_wrap 16 k = 16 - Z.of_nat k) /\
    (forall k, offsets s y x_wrap 16 (16 + k)
               = - (Z.of_nat k mod (2 - x_wrap))) /\
    (forall k, offsets s y x_wrap 16 (16 + k + Z.to_nat (2 - x_wrap))
               = offsets s y x_wrap 16 (16 + k)).
Proof.
  intros s y x_wrap Hw. repeat split.
  - intros x Hx. rewrite marquee_next_eq.
    destruct (_ && _) eqn:E; lia.
  - intros x Hx. rewrite marquee_next_eq.
    destruct (_ && _) eqn:E; lia.
  - intros k. apply offsets_scroll_in.
  - intros k. now apply offsets_loop.
  - intros k. rewrite <- Nat.add_assoc, !offsets_loop by exact Hw.
    f_equal. rewrite Nat2Z.inj_add, Z2Nat.id by lia.
    rewrite <- (Z.mul_1_l (2 - x_wrap)) at 1.
    apply Z.mod_add. lia.
Qed.

(** The amended C7 on the marquee of the title "Life" *)
Lemma C7_witness_title_life :
  (forall x, -6 <= x ->
             marquee_next "Life    Life    Life    Life    " 0 (-6) x = x - 1) /\
  (forall x, x < -6 ->
             marquee_next "Life    Life    Life    Life    " 0 (-6) x = 0) /\
  (forall k, (k <= 16)%nat ->
             offsets "Life    Life    Life    Life    " 0 (-6) 16 k
             = 16 - Z.of_nat k) /\
  (forall k, offsets "Life    Life    Life    Life    " 0 (-6) 16 (16 + k)
             = - (Z.of_nat k mod (2 - -6))) /\
  (forall k,
      offsets "Life    Life    Life    Life    " 0 (-6) 16
              (16 + k + Z.to_nat (2 - -6))
      = offsets "Life    Life    Life    Life    " 0 (-6) 16 (16 + k)).
Proof.
  apply (C7_marquee_eventually_periodic
           "Life    Life    Life    Life    " 0 (-6)).
  lia.
Defined.

(** ** The station list *)

(** C5 (as stated, refuted): on the lines of the example the columns 5-6
    hold blanks and column 13 falls inside the name, so the ids are empty
    and the names are the tails "Mix" and "ck". *)
Lemma C5_counterexample_spec_lines :
  get_stations spec_lines
  = (["Mix"%string; "ck"%string], [EmptyString; EmptyString]) /\
  get_stations spec_lines
  <> (["QuickMix"%string; "80s Rock"%string], ["01"%string; "02"%string]).
Proof. split; [vm_compute; reflexivity | vm_compute; discriminate]. Qed.

(** C5 (amended): for station lines in pianobar's fixed columns (five
    leading characters, the selector id in characters 5 and 6, the name
    from character 13 on), here the stations 01 QuickMix and 02 80s Rock
    followed by the prompt line, parsing yields the names
    ["QuickMix", "80s Rock"] and the ids ["01", "02"], QuickMix first in
    whichever order the two lines come; in general a line whose extracted
    name is "QuickMix" goes to the head of both lists and any other line to
    their end. *)
Theorem C5_station_list_parsed :
  get_stations column_lines
  = (["QuickMix"%string; "80s Rock"%string], ["01"%string; "02"%string]) /\
  get_stations demo_lines
  = (["QuickMix"%string; "80s Rock"%string], ["01"%string; "02"%string]) /\
  (forall b names ids,
      snd (extract b) = "QuickMix"%string ->
      add_station b (names, ids)
      = ("QuickMix"%string :: names, fst (extract b) :: ids)) /\
  (forall b names ids,
      snd (extract b) <> "QuickMix"%string ->
      add_station b (names, ids)
      = (names ++ [snd (extract b)], ids ++ [fst (extract b)])) /\
  (forall b,
      extract b = (Py.strip (Py.sslice b 5 7), Py.strip (Py.sslice_from b 13))).
Proof.
  split; [vm_compute; reflexivity |].
  split; [vm_compute; reflexivity |].
  split; [| split].
  - intros b names ids H. unfold add_station.
    destruct (extract b) as [id name]; simpl in *. subst name. reflexivity.
  - intros b names ids H. unfold add_station.
    destruct (extract b) as [id name]; simpl in *.
    destruct (String.eqb_spec name "QuickMix"); [contradiction | reflexivity].
  - reflexivity.
Qed.

(** The amended C5 on a QuickMix row that comes second *)
Lemma C5_witness_quickmix_row :
  add_station (row_prefix +++ "01) q   QuickMix")
              (["80s Rock"%string], ["02"%string])
  = ("QuickMix"%string :: ["80s Rock"%string],
     fst (extract (row_prefix +++ "01) q   QuickMix")) :: ["02"%string]).
Proof.
  apply (proj1 (proj2 (proj2 C5_station_list_parsed))
               (row_prefix +++ "01) q   QuickMix")).
  vm_compute; reflexivity.
Defined.

(** C10: the guard [b.find('Radio') or b.find('QuickMix')] holds for every
    line ([find] gives -1, a true value, when the text is absent, and the
    two texts cannot both start the line), so the scraper is the one that
    applies the fixed-column extraction to every line that contains
    neither 'playlist...' nor 'Autostart', whether or not the line
    mentions 'Radio' or 'QuickMix'. *)
Theorem C10_station_guard_always_true :
  (forall b, station_guard b = true) /\
  (forall b pat, Py.find b pat = -1 \/ 0 <= Py.find b pat) /\
  Py.truthy (-1) = true /\
  (forall a acc, get_stations_loop a acc = get_stations_spec_loop a acc) /\
  (forall b rest acc,
      is_noise b = false ->
      get_stations_loop (b :: rest) acc
      = get_stations_loop rest (add_station b acc)) /\
  (forall b rest acc,
      is_noise b = true ->
      get_stations_loop (b :: rest) acc = get_stations_loop rest acc).
Proof.
  split; [exact station_guard_true |].
  split; [intros b pat; apply find_from_range |].
  split; [reflexivity |].
  split; [intros a acc; apply get_stations_loop_spec |].
  split; intros b rest acc H; cbn [get_stations_loop]; rewrite H;
    [now rewrite station_guard_true | reflexivity].
Qed.

(** C10 on a line that mentions neither word *)
Lemma C10_witness_plain_line :
  get_stations_loop ["no such words"%string] ([], [])
  = get_stations_loop [] (add_station "no such words" ([], [])).
Proof.
  apply (proj1 (proj2 (proj2 (proj2 (proj2 C10_station_guard_always_true))))
               "no such words"%string [] ([], [])).
  vm_compute; reflexivity.
Defined.

(** ** A run through volume setting and the station menu *)

(** C2 on the run through volume setting and the station menu *)
Lemma C2_witness_menu_run :
  (vol_set (mode menu_end) && sta_sel (mode menu_end) = false) /\
  (exists m, active m menu_end = true /\
             forall m', active m' menu_end = true -> m' = m).
Proof.
  apply (proj1 C2_modes_mutually_exclusive low_pickle demo_lines low_start
               menu_inputs menu_end);
    vm_compute; reflexivity.
Defined.

(** C8 on the same run, which ends in the menu on the second station *)
Lemma C8_witness_menu_run :
  0 <= station_new (mn menu_end)
    <= Z.of_nat (List.length (station_list menu_end)) - 1 /\
  list_top (mn menu_end) <= station_new (mn menu_end)
    <= list_top (mn menu_end) + 1 /\
  0 <= list_top (mn menu_end).
Proof.
  apply (C8_menu_highlight_in_window low_pickle demo_lines low_start
                                     menu_inputs menu_end);
    vm_compute; reflexivity.
Defined.

(** ** Termination of the output loop and absence of exceptions *)

Lemma drop_length (n : nat) (s : string) :
  String.length (drop n s) = (String.length s - n)%nat.
Proof.
  revert s; induction n as [|n IH]; intros s; simpl; [lia |].
  destruct s as [|c s]; simpl; [reflexivity | apply IH].
Qed.

Lemma prefix_length (p s : string) :
  prefix p s = true -> (String.length p <= String.length s)%nat.
Proof.
  revert s; induction p as [|a p IH]; intros s H; simpl; [lia |].
  destruct s as [|c s]; cbn [prefix] in H; [discriminate H |].
  destruct (ascii_dec a c); [| discriminate H].
  apply IH in H. simpl. lia.
Qed.

Lemma match_here_consumes (pats : list string) (s : string) :
  Forall nonempty pats ->
  forall i j rest,
    match_here pats s i = Some (j, rest) ->
    (String.length rest < String.length s)%nat.
Proof.
  induction 1 as [|p pats Hp _ IH]; intros i j rest H; simpl in H;
    [discriminate H |].
  destruct (prefix p s) eqn:E.
  - inversion H; subst. apply prefix_length in E.
    rewrite drop_length. destruct p; [now elim Hp | simpl in *; lia].
  - eapply IH; eassumption.
Qed.

Lemma expect_consumes (pats : list string) (buf : string) :
  Forall nonempty pats ->
  forall i before rest,
    expect pats buf = Some (i, before, rest) ->
    (String.length rest < String.length buf)%nat.
Proof.
  intros Hp. induction buf as [|c buf IH]; intros i before rest H;
    cbn [expect] in H.
  - destruct (match_here pats EmptyString 0) as [[j r] |] eqn:E;
      [| discriminate H].
    inversion H; subst. eapply match_here_consumes; eassumption.
  - destruct (match_here pats (String c buf) 0) as [[j r] |] eqn:E.
    + inversion H; subst. eapply match_here_consumes; eassumption.
    + destruct (expect pats buf) as [[[j b] r] |] eqn:E'; [| discriminate H].
      inversion H; subst. specialize (IH _ _ _ eq_refl). simpl. lia.
Qed.

Lemma pattern_list_nonempty : Forall nonempty pattern_list.
Proof. repeat constructor; discriminate. Qed.

Lemma single_nonempty (p : string) : nonempty p -> Forall nonempty [p].
Proof. now repeat constructor. Qed.

(** A turn of the loop that goes on has consumed output. *)
Lemma parse_step_consumes (s : state) :
  snd (parse_step s) = true ->
  (String.length (buffer (fst (parse_step s))) < String.length (buffer s))%nat.
Proof.
  unfold parse_step.
  destruct (expect pattern_list (buffer s)) as [[[x before] rest] |] eqn:E0;
    [| discriminate].
  apply (expect_consumes _ _ pattern_list_nonempty) in E0.
  assert (HS : Forall nonempty [SEP]) by (apply single_nonempty; discriminate).
  assert (HL : Forall nonempty [CRLF]) by (apply single_nonempty; discriminate).
  assert (HR : Forall nonempty [CR]) by (apply single_nonempty; discriminate).
  destruct (x =? 0); [| destruct (x =? 1)].
  - destruct (expect [SEP] rest) as [[[x1 title] rest1] |] eqn:E1;
      [| discriminate].
    apply (expect_consumes _ _ HS) in E1.
    destruct (title_marquee title) as [t w].
    destruct (expect [SEP] rest1) as [[[x2 artist] rest2] |] eqn:E2;
      [| discriminate].
    apply (expect_consumes _ _ HS) in E2.
    destruct (expect [CRLF] rest2) as [[[x3 album] rest3] |] eqn:E3;
      [| discriminate].
    apply (expect_consumes _ _ HL) in E3.
    destruct (info_marquee artist album). simpl. lia.
  - destruct (expect [SEP] rest) as [[[x1 f] rest1] |] eqn:E1;
      [| discriminate].
    apply (expect_consumes _ _ HS) in E1. simpl. lia.
  - destruct (expect [CR] rest) as [[[x1 f] rest1] |] eqn:E1;
      [| discriminate].
    apply (expect_consumes _ _ HR) in E1.
    destruct (Py.index _ _); simpl; lia.
Qed.

(** The loop ends on a timeout within the fuel it is given: a further unit
    of fuel changes nothing. *)
Lemma process_output_loop_stable (fuel : nat) :
  forall s,
    (String.length (buffer s) <= fuel)%nat ->
    process_output_loop (S fuel) s = process_output_loop fuel s.
Proof.
  induction fuel as [|fuel IH]; intros s Hlen.
  - cbn [process_output_loop].
    pose proof (parse_step_consumes s) as Hc.
    destruct (parse_step s) as [s' c] eqn:Ep. cbn [fst snd] in Hc.
    destruct c; [specialize (Hc eq_refl); lia |].
    unfold parse_step in Ep.
    destruct (buffer s) eqn:Eb; [| simpl in Hlen; lia].
    change (expect pattern_list EmptyString)
      with (@None (Z * string * string)) in Ep.
    now inversion Ep.
  - change (process_output_loop (S (S fuel)) s)
      with (let '(s', c) := parse_step s in
            if c then process_output_loop (S fuel) s' else s').
    change (process_output_loop (S fuel) s)
      with (let '(s', c) := parse_step s in
            if c then process_output_loop fuel s' else s').
    pose proof (parse_step_consumes s) as Hc.
    destruct (parse_step s) as [s' c]. cbn [fst snd] in Hc.
    destruct c; [| reflexivity].
    apply IH. specialize (Hc eq_refl). lia.
Qed.

Lemma process_output_enough_fuel (s : state) (extra : nat) :
  process_output_loop (String.length (buffer s) + extra) s = process_output s.
Proof.
  unfold process_output. induction extra as [|extra IH].
  - now rewrite Nat.add_0_r.
  - rewrite Nat.add_succ_r, process_output_loop_stable by lia. exact IH.
Qed.

Lemma index_in_range {A : Type} (l : list A) (i : Z) :
  0 <= i < Z.of_nat (List.length l) -> exists x, Py.index l i = Some x.
Proof.
  intros H. unfold Py.index.
  replace (i <? 0) with false by lia.
  replace ((0 <=? i) && (i <? Z.of_nat (List.length l))) with true by lia.
  destruct (nth_error l (Z.to_nat i)) as [x |] eqn:E; [now exists x |].
  apply nth_error_None in E. lia.
Qed.

(** With the menu cursor inside the station list no index is out of range:
    a pass ends normally or, on a long select press, through [exit(0)]. *)
Lemma tick_never_raises (i : input) (s : state) :
  menu_ok s -> tick i s <> Raise.
Proof.
  intros H. unfold tick.
  pose proof (receive_controls s (incoming i)) as (_ & _ & Hg & Hl & Hi).
  set (r := process_output _) in *.
  assert (Hr : menu_ok r).
  { unfold menu_ok in *. now rewrite Hg, Hl, Hi. }
  clearbody r. clear - Hr. unfold menu_ok in Hr.
  destruct Hr as (H1 & H2 & H3 & H4 & H5 & H6).
  destruct (index_in_range (station_list r) (station_new (mn r)))
    as [name Hn]; [lia |].
  destruct (index_in_range (station_ids r) (station_new (mn r)))
    as [id Hd]; [lia |].
  unfold buttons, on_left, on_idle. rewrite Hn, Hd.
  repeat (break_match; try discriminate).
Qed.

Lemma run_never_raises (pk : pickle) (lines : list string) (s0 : state) :
  startup pk lines = Ok s0 -> forall ins, run ins s0 <> Raise.
Proof.
  intros Hs ins. apply startup_menu_ok in Hs. revert s0 Hs.
  induction ins as [|i ins IH]; intros s0 Hs; simpl; [discriminate |].
  destruct (tick i s0) as [s1 | |] eqn:Ht; [| discriminate |].
  - apply IH. eapply tick_menu_ok; eassumption.
  - now apply tick_never_raises in Ht.
Qed.

(* ====================================================================== *)
(** * Further properties of the code *)

(** ** The scraped station lists *)

Lemma add_station_quickmix (b : string) (q o : list string) :
  is_quickmix b = true ->
  add_station b (map line_name (rev q ++ o), map line_id (rev q ++ o))
  = (map line_name (rev (q ++ [b]) ++ o), map line_id (rev (q ++ [b]) ++ o)).
Proof.
  unfold is_quickmix, line_name, line_id, add_station. intros H.
  destruct (extract b) as [id name] eqn:E. cbn [snd] in H. rewrite H.
  rewrite rev_app_distr. cbn [rev app map]. now rewrite E.
Qed.

Lemma add_station_other (b : string) (q o : list string) :
  is_quickmix b = false ->
  add_station b (map line_name (rev q ++ o), map line_id (rev q ++ o))
  = (map line_name (rev q ++ (o ++ [b])), map line_id (rev q ++ (o ++ [b]))).
Proof.
  unfold is_quickmix, line_name, line_id, add_station. intros H.
  destruct (extract b) as [id name] eqn:E. cbn [snd] in H. rewrite H.
  rewrite !app_assoc, !map_app. cbn [map]. now rewrite E.
Qed.

Lemma get_stations_loop_exact (a : list string) :
  forall q o,
    get_stations_loop a (map line_name (rev q ++ o), map line_id (rev q ++ o))
    = let k := filter (fun b => negb (is_noise b)) a in
      let q' := q ++ filter is_quickmix k in
      let o' := o ++ filter (fun b => negb (is_quickmix b)) k in
      (map line_name (rev q' ++ o'), map line_id (rev q' ++ o')).
Proof.
  induction a as [|b a IH]; intros q o; cbn [get_stations_loop filter].
  - cbv zeta. now rewrite !app_nil_r.
  - destruct (is_noise b); cbn [negb]; [apply IH |].
    rewrite station_guard_true. cbn [filter].
    destruct (is_quickmix b) eqn:E; cbn [negb].
    + rewrite add_station_quickmix, IH by exact E. cbv zeta.
      now rewrite <- !app_assoc.
    + rewrite add_station_other, IH by exact E. cbv zeta.
      now rewrite <- !app_assoc.
Qed.

Lemma get_stations_rev_app (a : list string) :
  get_stations a
  = (map line_name
       (rev (filter is_quickmix (kept_lines a)) ++
        filter (fun b => negb (is_quickmix b)) (kept_lines a)),
     map line_id
       (rev (filter is_quickmix (kept_lines a)) ++
        filter (fun b => negb (is_quickmix b)) (kept_lines a))).
Proof. exact (get_stations_loop_exact (removelast a) [] []). Qed.

Lemma filter_split_length {A : Type} (f : A -> bool) (l : list A) :
  (List.length (filter f l) + List.length (filter (fun x => negb (f x)) l)
   = List.length l)%nat.
Proof.
  induction l as [|x l IH]; [reflexivity |].
  cbn [filter]. destruct (f x); simpl; lia.
Qed.

(** The station lists, exactly: the kept lines named QuickMix, the last one
    first, then the other kept lines in their order; names and ids are read
    off the same lines, position by position, one station for each kept
    line. *)
Theorem get_stations_exact :
  forall a,
    let q := filter is_quickmix (kept_lines a) in
    let o := filter (fun b => negb (is_quickmix b)) (kept_lines a) in
    get_stations a
    = (map line_name (rev q ++ o), map line_id (rev q ++ o)) /\
    List.length (fst (get_stations a)) = List.length (kept_lines a) /\
    List.length (snd (get_stations a)) = List.length (kept_lines a).
Proof.
  intros a. cbv zeta. split; [apply get_stations_rev_app |].
  rewrite get_stations_rev_app. cbn [fst snd].
  rewrite !length_map, length_app, length_rev.
  split; apply filter_split_length.
Qed.

(** A station named QuickMix, if there is one, heads the list of names. *)
Theorem get_stations_quickmix_first :
  forall a,
    In "QuickMix"%string (fst (get_stations a)) ->
    hd_error (fst (get_stations a)) = Some "QuickMix"%string.
Proof.
  intros a. rewrite get_stations_rev_app.
  cbn [fst]. set (k := kept_lines a).
  destruct (rev (filter is_quickmix k)) as [|b r] eqn:Er.
  - cbn [app]. intros H. apply in_map_iff in H as (b & Hb & Hin).
    apply filter_In in Hin as (_ & Hq).
    unfold is_quickmix in Hq. rewrite Hb in Hq. discriminate Hq.
  - intros _. cbn [app map hd_error].
    assert (Hin : In b (filter is_quickmix k)).
    { apply in_rev. rewrite Er. now left. }
    apply filter_In in Hin as (_ & Hq).
    unfold is_quickmix in Hq. apply String.eqb_eq in Hq. now rewrite Hq.
Qed.

(** The property on the two stations in pianobar's columns *)
Lemma get_stations_quickmix_first_witness :
  hd_error (fst (get_stations demo_lines)) = Some "QuickMix"%string.
Proof.
  apply (get_stations_quickmix_first demo_lines).
  vm_compute. now left.
Defined.

(** ** Start-up *)

Lemma index_nonneg {A : Type} (l : list A) (i : Z) :
  0 <= i < Z.of_nat (List.length l) ->
  Py.index l i = nth_error l (Z.to_nat i).
Proof.
  intros H. unfold Py.index.
  replace (i <? 0) with false by lia.
  now replace ((0 <=? i) && (i <? Z.of_nat (List.length l))) with true by lia.
Qed.

Lemma index_empty {A : Type} (i : Z) : Py.index (@nil A) i = None.
Proof.
  unfold Py.index. cbn [List.length Z.of_nat].
  destruct ((0 <=? _) && _) eqn:E; [lia | reflexivity].
Qed.

(** [l.index(x)]: the first position of [x], or no position at all. *)
Lemma list_index_spec (x : string) (l : list string) :
  match Py.list_index x l with
  | Some k =>
      0 <= k < Z.of_nat (List.length l) /\
      nth_error l (Z.to_nat k) = Some x /\
      forall j, 0 <= j < k -> nth_error l (Z.to_nat j) <> Some x
  | None => ~ In x l
  end.
Proof.
  induction l as [|y l IH]; cbn [Py.list_index]; [intros [] |].
  destruct (String.eqb_spec y x) as [-> | Hne].
  - cbn [List.length]. repeat split; try lia; try reflexivity.
  - destruct (Py.list_index x l) as [k |].
    + destruct IH as (Hk & Hn & Hf). cbn [List.length].
      replace (Z.to_nat (k + 1)) with (S (Z.to_nat k)) by lia.
      repeat split; try lia; [exact Hn |].
      intros j Hj. destruct (Z.eq_dec j 0) as [-> | Hj0].
      * cbn. congruence.
      * replace (Z.to_nat j) with (S (Z.to_nat (j - 1))) by lia.
        cbn [nth_error]. apply Hf. lia.
    + intros [E | Hin]; [now apply Hne | now apply IH].
Qed.

Lemma chosen_station_in_range (pk : pickle) (names : list string) :
  names <> [] ->
  0 <= chosen_station pk names < Z.of_nat (List.length names).
Proof.
  intros Hne. unfold chosen_station.
  assert (H0 : 0 < Z.of_nat (List.length names)).
  { destruct names; [contradiction | cbn [List.length]; lia]. }
  destruct (match pk with Some (_, d) => d | None => None end) as [d |];
    [| lia].
  pose proof (list_index_spec d names) as H.
  destruct (Py.list_index d names); [tauto | lia].
Qed.

(** Start-up in terms of the station it chooses *)
Lemma startup_eq (pk : pickle) (lines : list string) :
  startup pk lines
  = match Py.index (snd (get_stations lines))
                   (chosen_station pk (fst (get_stations lines))) with
    | None => Raise
    | Some id =>
        Ok (mkState
              (mkVolume VOL_MIN
                 match pk with Some (v, _) => v | None => VOL_DEFAULT end 1 0)
              (mkModes false false false 0)
              (mkNow EmptyString EmptyString 16 16 0 0)
              (mkMenu (chosen_station pk (fst (get_stations lines))) 0 0 0 0 0)
              (fst (get_stations lines)) (snd (get_stations lines))
              EmptyString [Send (id +++ Py.chr 10)])
    end.
Proof.
  unfold startup, chosen_station.
  destruct (get_stations lines) as [names ids]. reflexivity.
Qed.

Lemma startup_raise_iff (pk : pickle) (lines : list string) :
  startup pk lines = Raise <-> fst (get_stations lines) = [].
Proof.
  pose proof (get_stations_lengths lines) as Hlen. rewrite startup_eq.
  destruct (get_stations lines) as [names ids]. cbn [fst snd] in *.
  split.
  - intros H. destruct names as [|n names]; [reflexivity | exfalso].
    pose proof (chosen_station_in_range pk (n :: names) ltac:(discriminate))
      as Hr.
    rewrite Hlen in Hr.
    destruct (index_in_range ids _ Hr) as [id Hid].
    rewrite Hid in H. discriminate H.
  - intros ->. destruct ids; [| discriminate Hlen].
    now rewrite index_empty.
Qed.

Lemma filter_none {A : Type} (f : A -> bool) (l : list A) :
  Forall (fun x => f x = false) l -> filter f l = [].
Proof.
  induction 1 as [|x l Hx _ IH]; cbn; [reflexivity |]. now rewrite Hx.
Qed.

(** Without a station start-up fails.  When the scraper returns no station,
    [station_ids[station_num]] raises, whatever the pickle file holds: the
    stored station is not found, [station_num] is 0 and the list of ids is
    empty.  That is so when every line in front of the last one is status
    noise, and when there is no line in front of the last one at all. *)
Theorem startup_raises_without_stations :
  forall pk lines,
    (fst (get_stations lines) = [] -> startup pk lines = Raise) /\
    (Forall (fun b => is_noise b = true) (removelast lines) ->
     startup pk lines = Raise) /\
    ((List.length lines <= 1)%nat -> startup pk lines = Raise).
Proof.
  intros pk lines.
  assert (Hk : kept_lines lines = [] -> startup pk lines = Raise).
  { intros Hk. apply startup_raise_iff.
    rewrite get_stations_rev_app, Hk. reflexivity. }
  split; [apply startup_raise_iff | split].
  - intros Hn. apply Hk. unfold kept_lines. apply filter_none.
    eapply Forall_impl; [| exact Hn]. cbn. now intros b ->.
  - intros Hl. apply Hk. unfold kept_lines.
    destruct lines as [|x [|y l]]; [reflexivity | reflexivity |].
    cbn in Hl. lia.
Qed.

(** Start-up on a status line and the prompt line, with a station stored *)
Lemma startup_raises_without_stations_witness :
  startup low_pickle ["(i) Receiving new playlist... Ok."%string;
                      "Select station: "%string] = Raise.
Proof.
  apply (proj1 (proj2 (startup_raises_without_stations
                         low_pickle
                         ["(i) Receiving new playlist... Ok."%string;
                          "Select station: "%string]))).
  repeat constructor.
Defined.

(** With stations scraped, start-up succeeds with the two lists and the
    chosen station, of which it sends the id. *)
Lemma startup_ok (pk : pickle) (lines : list string) :
  fst (get_stations lines) <> [] ->
  exists s0 id,
    startup pk lines = Ok s0 /\
    station_list s0 = fst (get_stations lines) /\
    station_ids s0 = snd (get_stations lines) /\
    station_num (mn s0) = chosen_station pk (fst (get_stations lines)) /\
    vol_new (vol s0) = match pk with Some (v, _) => v | None => VOL_DEFAULT end /\
    Py.index (station_ids s0) (station_num (mn s0)) = Some id /\
    trace s0 = [Send (id +++ Py.chr 10)].
Proof.
  intros Hne. rewrite startup_eq.
  pose proof (chosen_station_in_range pk _ Hne) as Hr.
  rewrite (get_stations_lengths lines) in Hr.
  destruct (index_in_range _ _ Hr) as [id Hid]. rewrite Hid.
  eexists; exists id. repeat split. exact Hid.
Qed.

(** With stations scraped, start-up succeeds, keeps both lists, and tunes
    to the first station that has the stored name, or to station 0 when
    there is no pickle file, no stored name, or no station of that name;
    the one key sequence it sends is the id at that position and a
    newline. *)
Theorem startup_selects_stored_station :
  forall pk lines,
    fst (get_stations lines) <> [] ->
    exists s0 id,
      startup pk lines = Ok s0 /\
      station_list s0 = fst (get_stations lines) /\
      station_ids s0 = snd (get_stations lines) /\
      0 <= station_num (mn s0) < Z.of_nat (List.length (station_list s0)) /\
      Py.index (station_ids s0) (station_num (mn s0)) = Some id /\
      trace s0 = [Send (id +++ Py.chr 10)] /\
      (forall v d,
          pk = Some (v, Some d) -> In d (station_list s0) ->
          Py.index (station_list s0) (station_num (mn s0)) = Some d /\
          forall j, 0 <= j < station_num (mn s0) ->
                    Py.index (station_list s0) j <> Some d) /\
      (forall v d,
          pk = Some (v, Some d) -> ~ In d (station_list s0) ->
          station_num (mn s0) = 0) /\
      ((pk = None \/ exists v, pk = Some (v, None)) ->
       station_num (mn s0) = 0).
Proof.
  intros pk lines Hne.
  destruct (startup_ok pk lines Hne) as (s0 & id & Hs & Hl & Hi & Hn & _ & Hid & Ht).
  pose proof (chosen_station_in_range pk _ Hne) as Hr.
  exists s0, id. rewrite Hl, Hn in *.
  split; [exact Hs |]. split; [reflexivity |]. split; [exact Hi |].
  split; [exact Hr |]. split; [exact Hid |]. split; [exact Ht |].
  set (names := fst (get_stations lines)) in *.
  split; [| split].
  - intros v d -> Hin. unfold chosen_station in *.
    pose proof (list_index_spec d names) as Hs'.
    destruct (Py.list_index d names) as [k |]; [| contradiction].
    destruct Hs' as (Hk & Hnth & Hf). split.
    + now rewrite index_nonneg.
    + intros j Hj. rewrite index_nonneg by lia. now apply Hf.
  - intros v d -> Hnin. unfold chosen_station.
    pose proof (list_index_spec d names) as Hs'.
    destruct (Py.list_index d names) as [k |]; [| reflexivity].
    destruct Hs' as (_ & Hnth & _). apply nth_error_In in Hnth. contradiction.
  - intros [-> | [v ->]]; reflexivity.
Qed.

(** The session of the sample pickle file *)
Lemma startup_selects_stored_station_witness :
  exists s0 id,
    startup low_pickle demo_lines = Ok s0 /\
    station_list s0 = fst (get_stations demo_lines) /\
    station_ids s0 = snd (get_stations demo_lines) /\
    0 <= station_num (mn s0) < Z.of_nat (List.length (station_list s0)) /\
    Py.index (station_ids s0) (station_num (mn s0)) = Some id /\
    trace s0 = [Send (id +++ Py.chr 10)] /\
    (forall v d,
        low_pickle = Some (v, Some d) -> In d (station_list s0) ->
        Py.index (station_list s0) (station_num (mn s0)) = Some d /\
        forall j, 0 <= j < station_num (mn s0) ->
                  Py.index (station_list s0) j <> Some d) /\
    (forall v d,
        low_pickle = Some (v, Some d) -> ~ In d (station_list s0) ->
        station_num (mn s0) = 0) /\
    ((low_pickle = None \/ exists v, low_pickle = Some (v, None)) ->
     station_num (mn s0) = 0).
Proof.
  apply (startup_selects_stored_station low_pickle demo_lines).
  vm_compute. discriminate.
Defined.

(** ** What a session keeps *)

(** The button cascade never changes the station lists, and the playing
    station stays a position of the list: it changes only when the menu is
    left with the left button, to the highlighted one. *)
Lemma buttons_session (i : input) (s : state) :
  menu_ok s ->
  0 <= station_num (mn s) < Z.of_nat (List.length (station_list s)) ->
  match buttons i s with
  | Ok s' =>
      station_list s' = station_list s /\ station_ids s' = station_ids s /\
      0 <= station_num (mn s') < Z.of_nat (List.length (station_list s'))
  | _ => True
  end.
Proof.
  unfold menu_ok.
  destruct s as [v m n [num new cy top xs bt] sl si b tr]; simpl.
  intros H Hn. unfold_buttons; simpl.
  repeat (break_match; simpl; try exact I);
    repeat split; try reflexivity; lia.
Qed.

Lemma tick_session (lines : list string) (i : input) (s s' : state) :
  menu_ok s /\ session_ok lines s -> tick i s = Ok s' ->
  menu_ok s' /\ session_ok lines s'.
Proof.
  intros (Hm & Hl & Hi & Hn) Ht.
  split; [eapply tick_menu_ok; eassumption |].
  apply tick_phases in Ht as (s2 & Hb & ->).
  pose proof (receive_controls s (incoming i)) as (_ & _ & Hg & Hsl & Hsi).
  set (r := process_output _) in *.
  pose proof (buttons_session i r) as Hk. rewrite Hb in Hk.
  destruct Hk as (H1 & H2 & H3).
  { unfold menu_ok in *. now rewrite Hg, Hsl, Hsi. }
  { now rewrite Hg, Hsl. }
  unfold session_ok.
  destruct (always_on_stations (now i) s2) as [-> ->].
  rewrite always_on_mn. rewrite H1, H2 in *. rewrite Hsl, Hsi in *.
  rewrite <- Hl. auto.
Qed.

Lemma startup_session (pk : pickle) (lines : list string) (s0 : state) :
  startup pk lines = Ok s0 -> menu_ok s0 /\ session_ok lines s0.
Proof.
  intros H. split; [eapply startup_menu_ok; eassumption |].
  assert (Hne : fst (get_stations lines) <> []).
  { intros E. apply (startup_raise_iff pk lines) in E.
    rewrite E in H. discriminate H. }
  destruct (startup_ok pk lines Hne) as (s0' & id & Hs & Hl & Hi & Hn & _).
  rewrite Hs in H. inversion H; subst s0'.
  unfold session_ok. split; [exact Hl | split; [exact Hi |]].
  rewrite Hn, Hl. apply (chosen_station_in_range pk _ Hne).
Qed.

Lemma run_session (pk : pickle) (lines : list string) (s0 : state)
  (ins : list input) (s : state) :
  startup pk lines = Ok s0 -> run ins s0 = Ok s ->
  menu_ok s /\ session_ok lines s.
Proof.
  intros Hs Hrun.
  apply (run_invariant (fun s => menu_ok s /\ session_ok lines s)
                       (tick_session lines) ins s0 s);
    [eapply startup_session; eassumption | exact Hrun].
Qed.

(** Along every run the station lists are the ones scraped at start-up and
    the playing station [station_num] is a position of them, with a name
    and an id. *)
Theorem station_lists_fixed :
  forall pk lines s0 ins s,
    startup pk lines = Ok s0 -> run ins s0 = Ok s ->
    station_list s = station_list s0 /\ station_ids s = station_ids s0 /\
    List.length (station_ids s) = List.length (station_list s) /\
    exists name id,
      Py.index (station_list s) (station_num (mn s)) = Some name /\
      Py.index (station_ids s) (station_num (mn s)) = Some id.
Proof.
  intros pk lines s0 ins s Hs Hrun.
  destruct (run_session pk lines s0 ins s Hs Hrun) as (Hm & Hl & Hi & Hn).
  destruct (startup_session pk lines s0 Hs) as (_ & Hl0 & Hi0 & _).
  unfold menu_ok in Hm. destruct Hm as (_ & Hlen & _).
  destruct (index_in_range (station_list s) _ Hn) as [name Hname].
  destruct (index_in_range (station_ids s) (station_num (mn s))) as [id Hid];
    [lia |].
  repeat split; try congruence. now exists name, id.
Qed.

(** On the run through volume setting and the station menu *)
Lemma station_lists_fixed_witness :
  station_list menu_end = station_list low_start /\
  station_ids menu_end = station_ids low_start /\
  List.length (station_ids menu_end) = List.length (station_list menu_end) /\
  exists name id,
    Py.index (station_list menu_end) (station_num (mn menu_end)) = Some name /\
    Py.index (station_ids menu_end) (station_num (mn menu_end)) = Some id.
Proof.
  apply (station_lists_fixed low_pickle demo_lines low_start menu_inputs
                             menu_end);
    vm_compute; reflexivity.
Defined.

(** The state written at a time marker restores: in every state a run
    reaches, a complete time marker makes the parser dump the current
    volume and the name of the playing station, and a start-up that reads
    this pair against the same station output takes the volume as its
    target and tunes to a station of that name, the first one in the
    list. *)
Theorem saved_state_restores :
  forall pk lines s0 ins s,
    startup pk lines = Ok s0 -> run ins s0 = Ok s ->
    exists name s1,
      Py.index (station_list s) (station_num (mn s)) = Some name /\
      (forall before rest x t rest1,
          expect pattern_list (buffer s) = Some (2, before, rest) ->
          expect [CR] rest = Some (x, t, rest1) ->
          trace (fst (parse_step s))
          = trace s ++ [PickleDump (vol_cur (vol s)) name]) /\
      startup (Some (vol_cur (vol s), Some name)) lines = Ok s1 /\
      vol_new (vol s1) = vol_cur (vol s) /\
      Py.index (station_list s1) (station_num (mn s1)) = Some name /\
      station_num (mn s1) <= station_num (mn s).
Proof.
  intros pk lines s0 ins s Hs Hrun.
  destruct (run_session pk lines s0 ins s Hs Hrun) as (Hm & Hl & Hi & Hn).
  destruct (index_in_range (station_list s) _ Hn) as [name Hname].
  assert (Hne : fst (get_stations lines) <> []).
  { rewrite <- Hl. intros E. rewrite E in Hn. cbn in Hn. lia. }
  destruct (startup_ok (Some (vol_cur (vol s), Some name)) lines Hne)
    as (s1 & id & Hs1 & Hl1 & Hi1 & Hn1 & Hv1 & _).
  rewrite index_nonneg in Hname by exact Hn.
  assert (Hin : In name (station_list s)) by (eapply nth_error_In; eassumption).
  unfold chosen_station in Hn1. rewrite <- Hl in Hn1.
  pose proof (list_index_spec name (station_list s)) as Hsp.
  destruct (Py.list_index name (station_list s)) as [k |]; [| contradiction].
  destruct Hsp as (Hk & Hnth & Hfirst).
  exists name, s1. split; [now rewrite index_nonneg |].
  split; [| split; [exact Hs1 |]].
  - intros before rest x t rest1 He Hc. unfold parse_step.
    rewrite He. cbn [Z.eqb]. rewrite Hc, index_nonneg, Hname by exact Hn.
    reflexivity.
  - split; [exact Hv1 |]. rewrite Hl1, <- Hl, Hn1. split.
    + now rewrite index_nonneg.
    + destruct (Z_le_gt_dec k (station_num (mn s))) as [Hle | Hgt];
        [exact Hle | exfalso].
      apply (Hfirst (station_num (mn s))); [lia | exact Hname].
Qed.

(** On the same run *)
Lemma saved_state_restores_witness :
  exists name s1,
    Py.index (station_list menu_end) (station_num (mn menu_end)) = Some name /\
    (forall before rest x t rest1,
        expect pattern_list (buffer menu_end) = Some (2, before, rest) ->
        expect [CR] rest = Some (x, t, rest1) ->
        trace (fst (parse_step menu_end))
        = trace menu_end ++ [PickleDump (vol_cur (vol menu_end)) name]) /\
    startup (Some (vol_cur (vol menu_end), Some name)) demo_lines = Ok s1 /\
    vol_new (vol s1) = vol_cur (vol menu_end) /\
    Py.index (station_list s1) (station_num (mn s1)) = Some name /\
    station_num (mn s1) <= station_num (mn menu_end).
Proof.
  apply (saved_state_restores low_pickle demo_lines low_start menu_inputs
                              menu_end);
    vm_compute; reflexivity.
Defined.

(** ** How a pass ends *)

Lemma tick_exit_iff (i : input) (s : state) :
  tick i s = Exit <-> btn_sel i && sel_hold i = true.
Proof.
  unfold tick. set (r := process_output _).
  destruct (buttons i r) as [s2 | |] eqn:Hb.
  - split; [discriminate |]. intros H. apply andb_prop in H as [H1 H2].
    unfold buttons in Hb. rewrite H1, H2 in Hb. discriminate Hb.
  - split; [intros _ | reflexivity]. revert Hb. unfold_buttons.
    repeat (break_match; try discriminate); reflexivity.
  - split; [discriminate |]. intros H. apply andb_prop in H as [H1 H2].
    unfold buttons in Hb. rewrite H1, H2 in Hb. discriminate Hb.
Qed.

(** ** The output loop *)

Lemma process_output_loop_turns (fuel : nat) :
  forall s,
    (String.length (buffer s) <= fuel)%nat ->
    exists k,
      (k <= String.length (buffer s))%nat /\
      (forall j, (j < k)%nat -> snd (parse_step (turns j s)) = true) /\
      snd (parse_step (turns k s)) = false /\
      process_output_loop (S fuel) s = fst (parse_step (turns k s)).
Proof.
  induction fuel as [|fuel IH]; intros s Hlen.
  - exists 0%nat. cbn [turns process_output_loop].
    pose proof (parse_step_consumes s) as Hc.
    destruct (parse_step s) as [s' c]. cbn [fst snd] in *.
    destruct c; [specialize (Hc eq_refl); lia |].
    repeat split; try lia; intros j Hj; lia.
  - pose proof (parse_step_consumes s) as Hc.
    change (process_output_loop (S (S fuel)) s)
      with (let '(s', c) := parse_step s in
            if c then process_output_loop (S fuel) s' else s').
    destruct (parse_step s) as [s' c] eqn:Ep. cbn [fst snd] in Hc.
    destruct c.
    + specialize (Hc eq_refl).
      destruct (IH s' ltac:(lia)) as (k & Hk & Hgo & Hstop & Hres).
      exists (S k). cbn [turns]. rewrite Ep. cbn [fst].
      repeat split; try lia; try assumption.
      intros [|j] Hj; cbn [turns]; rewrite Ep; [reflexivity |].
      cbn [fst]. apply Hgo. lia.
    + exists 0%nat. cbn [turns]. rewrite Ep. cbn [fst snd].
      repeat split; try lia; intros j Hj; lia.
Qed.

(** The loop written with fuel is the [while True] loop of the source: it
    takes turns as long as a turn goes on, at most one for each character
    of the buffer, and its result is the state left by the first turn that
    ends on a timeout; more fuel than the length of the buffer changes
    nothing. *)
Theorem output_loop_ends_on_timeout :
  forall s,
    exists k,
      (k <= String.length (buffer s))%nat /\
      (forall j, (j < k)%nat -> snd (parse_step (turns j s)) = true) /\
      snd (parse_step (turns k s)) = false /\
      process_output s = fst (parse_step (turns k s)) /\
      forall extra,
        process_output_loop (String.length (buffer s) + extra) s
        = process_output s.
Proof.
  intros s.
  destruct (process_output_loop_turns (String.length (buffer s)) s
              (Nat.le_refl _)) as (k & Hk & Hgo & Hstop & Hres).
  exists k. repeat split; try assumption.
  - rewrite <- Hres. symmetry.
    apply process_output_loop_stable. lia.
  - intros extra. apply process_output_enough_fuel.
Qed.

(** What [expect] returns divides the buffer: the text before the match,
    the pattern of the index returned, the rest. *)
Lemma prefix_drop (p s : string) :
  prefix p s = true -> s = p +++ drop (String.length p) s.
Proof.
  revert s; induction p as [|a p IH]; intros s H; [reflexivity |].
  destruct s as [|c s]; cbn [prefix] in H; [discriminate H |].
  destruct (ascii_dec a c) as [-> |]; [| discriminate H].
  cbn. f_equal. now apply IH.
Qed.

Lemma match_here_split (pats : list string) (s : string) :
  forall i j rest,
    match_here pats s i = Some (j, rest) ->
    exists p, s = p +++ rest.
Proof.
  induction pats as [|p pats IH]; intros i j rest H; cbn [match_here] in H;
    [discriminate H |].
  destruct (prefix p s) eqn:E.
  - inversion H; subst. exists p. now apply prefix_drop.
  - eapply IH; eassumption.
Qed.

Lemma expect_split (pats : list string) (buf : string) :
  forall i before rest,
    expect pats buf = Some (i, before, rest) ->
    exists p, buf = before +++ p +++ rest.
Proof.
  induction buf as [|c buf IH]; intros i before rest H; cbn [expect] in H.
  - destruct (match_here pats EmptyString 0) as [[j r] |] eqn:E;
      [| discriminate H].
    inversion H; subst. eapply match_here_split; eassumption.
  - destruct (match_here pats (String c buf) 0) as [[j r] |] eqn:E.
    + inversion H; subst. eapply match_here_split; eassumption.
    + destruct (expect pats buf) as [[[j b] r] |] eqn:E'; [| discriminate H].
      inversion H; subst. destruct (IH _ _ _ eq_refl) as [p ->].
      now exists p.
Qed.

Lemma cat_assoc (a b c : string) : (a +++ b) +++ c = a +++ b +++ c.
Proof.
  unfold cat. induction a as [|x a IH]; [reflexivity |].
  cbn. now rewrite IH.
Qed.

(** One turn keeps a tail of the buffer and adds at most pickle dumps to
    the trace. *)
Lemma parse_step_tail (s : state) :
  (exists used, buffer s = used +++ buffer (fst (parse_step s))) /\
  (exists dumps,
      trace (fst (parse_step s)) = trace s ++ dumps /\
      forallb is_dump dumps = true).
Proof.
  unfold parse_step.
  destruct (expect pattern_list (buffer s)) as [[[x before] rest] |] eqn:E0.
  2:{ split; [now exists EmptyString | exists []; now rewrite app_nil_r]. }
  apply expect_split in E0 as [p0 E0]. rewrite E0.
  assert (Hnil : forall tr : list action,
             exists dumps, tr = tr ++ dumps /\ forallb is_dump dumps = true).
  { intros tr. exists []. now rewrite app_nil_r. }
  destruct (x =? 0); [| destruct (x =? 1)].
  - destruct (expect [SEP] rest) as [[[x1 title] rest1] |] eqn:E1.
    2:{ split; [exists (before +++ p0); now rewrite cat_assoc | apply Hnil]. }
    apply expect_split in E1 as [p1 E1].
    destruct (title_marquee title) as [t w].
    destruct (expect [SEP] rest1) as [[[x2 artist] rest2] |] eqn:E2.
    2:{ split; [| apply Hnil].
        exists (before +++ p0 +++ title +++ p1). cbn [fst buffer with_np with_buffer].
        rewrite E1. now rewrite !cat_assoc. }
    apply expect_split in E2 as [p2 E2].
    destruct (expect [CRLF] rest2) as [[[x3 album] rest3] |] eqn:E3.
    2:{ split; [| apply Hnil].
        exists (before +++ p0 +++ title +++ p1 +++ artist +++ p2).
        cbn [fst buffer with_np with_buffer].
        rewrite E1, E2. now rewrite !cat_assoc. }
    apply expect_split in E3 as [p3 E3].
    destruct (info_marquee artist album) as [inf wi].
    split; [| apply Hnil].
    exists (before +++ p0 +++ title +++ p1 +++ artist +++ p2 +++ album +++ p3).
    cbn [fst buffer with_np with_buffer].
    rewrite E1, E2, E3. now rewrite !cat_assoc.
  - destruct (expect [SEP] rest) as [[[x1 f] rest1] |] eqn:E1.
    2:{ split; [exists (before +++ p0); now rewrite cat_assoc | apply Hnil]. }
    apply expect_split in E1 as [p1 E1]. split; [| apply Hnil].
    exists (before +++ p0 +++ f +++ p1). cbn [fst buffer with_buffer].
    rewrite E1. now rewrite !cat_assoc.
  - destruct (expect [CR] rest) as [[[x1 f] rest1] |] eqn:E1.
    2:{ split; [exists (before +++ p0); now rewrite cat_assoc | apply Hnil]. }
    apply expect_split in E1 as [p1 E1].
    destruct (Py.index _ _) as [name |].
    + split.
      * exists (before +++ p0 +++ f +++ p1).
        cbn [fst buffer with_buffer emit]. rewrite E1. now rewrite !cat_assoc.
      * eexists. split; reflexivity.
    + split; [| apply Hnil].
      exists (before +++ p0 +++ f +++ p1). cbn [fst buffer with_buffer].
      rewrite E1. now rewrite !cat_assoc.
Qed.

Lemma process_output_loop_tail (fuel : nat) :
  forall s,
    (exists used, buffer s = used +++ buffer (process_output_loop fuel s)) /\
    (exists dumps,
        trace (process_output_loop fuel s) = trace s ++ dumps /\
        forallb is_dump dumps = true).
Proof.
  induction fuel as [|fuel IH]; intros s; cbn [process_output_loop].
  - split; [now exists EmptyString | exists []; now rewrite app_nil_r].
  - pose proof (parse_step_tail s) as ((u & Hu) & (d & Hd & Hf)).
    destruct (parse_step s) as [s' c]. cbn [fst] in *.
    destruct c.
    + destruct (IH s') as ((u' & Hu') & (d' & Hd' & Hf')). split.
      * exists (u +++ u'). now rewrite Hu, Hu' at 1; rewrite cat_assoc.
      * exists (d ++ d'). rewrite Hd', Hd, app_assoc, forallb_app, Hf, Hf'.
        now split.
    + split; [now exists u | now exists d].
Qed.

(** Processing pianobar's output touches nothing but the now-playing
    record, the buffer and the trace: volumes, mode flags, menu and station
    lists are as before; it keeps a tail of the buffer; it sends no key to
    pianobar and draws nothing, the only actions it adds are pickle
    dumps. *)
Theorem parser_only_reads_and_dumps :
  forall s,
    same_controls s (process_output s) /\
    (exists used, buffer s = used +++ buffer (process_output s)) /\
    (exists dumps,
        trace (process_output s) = trace s ++ dumps /\
        forallb is_dump dumps = true) /\
    sent (trace (process_output s)) = sent (trace s).
Proof.
  intros s. split; [apply process_output_controls |].
  destruct (process_output_loop_tail (String.length (buffer s)) s) as (Hu & Hd).
  split; [exact Hu | split; [exact Hd |]].
  apply process_output_loop_sent.
Qed.

(** ** No pass raises *)

Lemma ascii_text_cat (a b : string) :
  ascii_text (a +++ b) = ascii_text a && ascii_text b.
Proof.
  unfold ascii_text.
  induction a as [|c a IH];
    unfold cat in *; cbn [append list_ascii_of_string forallb];
    [reflexivity |].
  now rewrite IH, andb_assoc.
Qed.

Lemma buttons_buffer (i : input) (s : state) :
  match buttons i s with Ok s' => buffer s' = buffer s | _ => True end.
Proof.
  destruct s as [v m n g sl si b tr]. unfold_buttons. cbn.
  repeat (break_match; cbn; try exact I; try reflexivity).
Qed.

Lemma always_on_buffer (t : Q) (s : state) :
  buffer (always_on t s) = buffer s.
Proof.
  unfold always_on. repeat (break_match; try reflexivity).
Qed.

(** A pass leaves a tail of the pending output and of what it received. *)
Lemma tick_buffer (i : input) (s s' : state) :
  tick i s = Ok s' ->
  exists used, buffer s +++ incoming i = used +++ buffer s'.
Proof.
  intros Ht. apply tick_phases in Ht as (s2 & Hb & ->).
  rewrite always_on_buffer.
  pose proof (buttons_buffer i
    (process_output (with_buffer (buffer s +++ incoming i) s))) as Hk.
  rewrite Hb in Hk. rewrite Hk. unfold process_output.
  destruct (process_output_loop_tail
              (String.length (buffer (with_buffer (buffer s +++ incoming i) s)))
              (with_buffer (buffer s +++ incoming i) s)) as ((u & Hu) & _).
  exists u. exact Hu.
Qed.

Lemma buttons_moderate (i : input) (s : state) :
  moderate (vol_cur (vol s)) /\ moderate (vol_new (vol s)) /\
  (1 <= vol_speed (vol s))%Q ->
  match buttons i s with
  | Ok s' =>
      moderate (vol_cur (vol s')) /\ moderate (vol_new (vol s')) /\
      (1 <= vol_speed (vol s'))%Q
  | _ => True
  end.
Proof.
  destruct s as [[vc vn sp vt] m n g sl si b tr]; simpl.
  intros (Hc & Hn & Hs). unfold_buttons; simpl.
  repeat (break_match; simpl; try exact I; try (repeat split; assumption));
    repeat match goal with
           | H : Py.gt _ _ = false |- _ => apply gt_false in H
           | H : Py.lt _ _ = false |- _ => apply lt_false in H
           end;
    unfold moderate, VOL_MIN, VOL_MAX in *; repeat split; lra.
Qed.

Lemma tick_sound (i : input) (s s' : state) :
  ascii_text (incoming i) = true -> sound s -> tick i s = Ok s' -> sound s'.
Proof.
  intros Hi (Hb & Hv) Ht. split.
  - destruct (tick_buffer i s s' Ht) as (u & Hu).
    assert (A : ascii_text (buffer s +++ incoming i) = true)
      by now rewrite ascii_text_cat, Hb, Hi.
    rewrite Hu, ascii_text_cat in A. now apply andb_prop in A as [_ A].
  - apply tick_phases in Ht as (s2 & Hbt & ->).
    pose proof (receive_controls s (incoming i)) as (Hvol & _).
    pose proof (buttons_moderate i
      (process_output (with_buffer (buffer s +++ incoming i) s))) as Hk.
    rewrite Hbt, Hvol in Hk. specialize (Hk Hv).
    destruct Hk as (Hc & Hn & Hs).
    destruct (always_on_vol (now i) s2) as (-> & -> & ->).
    destruct (sta_sel (mode s2)); auto.
Qed.

Lemma run_sound (ins : list input) :
  forall s s', ascii_inputs ins -> sound s -> run ins s = Ok s' -> sound s'.
Proof.
  induction ins as [|i ins IH]; intros s s' Ha Hs Hrun; cbn [run] in Hrun.
  - now inversion Hrun; subst.
  - inversion Ha as [|? ? Hi Ha']; subst.
    destruct (tick i s) as [s1 | |] eqn:Ht; try discriminate Hrun.
    eapply IH; [exact Ha' | | exact Hrun].
    eapply tick_sound; eassumption.
Qed.

Lemma startup_sound (pk : pickle) (lines : list string) (s0 : state) :
  startup pk lines = Ok s0 -> stored_moderate pk -> sound s0.
Proof.
  intros Hs Hpk. apply startup_shape in Hs as (num & id & _ & ->).
  unfold sound; cbn. split; [reflexivity |].
  split; [unfold moderate, VOL_MIN; lra |]. split; [| lra].
  destruct pk as [[v d] |]; [exact Hpk |].
  unfold moderate, VOL_DEFAULT; lra.
Qed.

(** The integerized volume of a moderate volume *)
Lemma vol_int_moderate (v : Q) :
  moderate v -> -999980 <= vol_int v <= 1000021.
Proof.
  unfold moderate, vol_int. intros [Hlo Hhi].
  destruct (int_near ((v - VOL_MIN) + (1 # 2))) as [L U].
  set (n := Py.int _) in *. clearbody n. unfold VOL_MIN in *.
  assert (A : (inject_Z n < inject_Z 1000022)%Q)
    by (unfold inject_Z at 2; lra).
  assert (B : (inject_Z (-999981) < inject_Z n)%Q)
    by (unfold inject_Z at 1; lra).
  rewrite <- Zlt_Qlt in A, B. lia.
Qed.

(** For output of pianobar in ASCII and a stored volume of at most a
    million either way, no pass of the main loop raises after a successful
    start-up: every list index of the pass is in range, so a pass leaves
    through [exit] exactly when the select button is held for [HOLD_TIME]
    and goes on to the next pass otherwise; all the text the pass has to
    decode, the pending output and what it receives, is ASCII; both
    volumes are within a million; and the difference of the integerized
    volumes, one key each when the pass sends it, is at most 2000001. *)
Theorem pass_exits_or_goes_on :
  forall pk lines s0 ins s i,
    startup pk lines = Ok s0 -> run ins s0 = Ok s ->
    stored_moderate pk -> ascii_inputs ins -> ascii_text (incoming i) = true ->
    tick i s <> Raise /\
    (btn_sel i && sel_hold i = true -> tick i s = Exit) /\
    (btn_sel i && sel_hold i = false -> exists s', tick i s = Ok s') /\
    ascii_text (buffer s +++ incoming i) = true /\
    moderate (vol_cur (vol s)) /\ moderate (vol_new (vol s)) /\
    (forall s',
        tick i s = Ok s' ->
        Z.abs (vol_int (vol_new (vol s')) - vol_int (vol_cur (vol s)))
        <= 2000001).
Proof.
  intros pk lines s0 ins s i Hs Hrun Hpk Hins Hi.
  destruct (run_session pk lines s0 ins s Hs Hrun) as (Hm & _).
  pose proof (tick_never_raises i s Hm) as Hr.
  assert (Hsd : sound s).
  { eapply run_sound; [exact Hins | | exact Hrun].
    eapply startup_sound; eassumption. }
  split; [exact Hr |]. split; [| split].
  - intros H. now apply tick_exit_iff.
  - intros H. destruct (tick i s) as [s' | |] eqn:Ht.
    + now exists s'.
    + apply tick_exit_iff in Ht. congruence.
    + contradiction.
  - pose proof Hsd as (Hb & Hc & Hn & _).
    split; [now rewrite ascii_text_cat, Hb, Hi |].
    split; [exact Hc |]. split; [exact Hn |].
    intros s' Ht.
    destruct (tick_sound i s s' Hi Hsd Ht) as (_ & _ & Hn' & _).
    pose proof (vol_int_moderate _ Hc). pose proof (vol_int_moderate _ Hn').
    lia.
Qed.

(** A left press after the run through volume setting and the menu *)
Lemma pass_exits_or_goes_on_witness :
  tick (press_left 8) menu_end <> Raise /\
  (exists s', tick (press_left 8) menu_end = Ok s') /\
  moderate (vol_new (vol menu_end)).
Proof.
  destruct (pass_exits_or_goes_on low_pickle demo_lines low_start menu_inputs
              menu_end (press_left 8))
    as (Hr & _ & Hok & _ & _ & Hn & _);
    try (vm_compute; reflexivity).
  - split; intros H; vm_compute in H; discriminate H.
  - repeat constructor.
  - split; [exact Hr |]. split; [apply Hok; reflexivity | exact Hn].
Defined.

(** ** The buttons, pass by pass *)

(** A pass taken apart: the state after the output loop has the controls
    of the state before and has sent nothing; the buttons act on it; the
    always-on part follows. *)
Lemma tick_open (i : input) (s s' : state) :
  tick i s = Ok s' ->
  exists r s2,
    vol r = vol s /\ mode r = mode s /\ mn r = mn s /\
    station_list r = station_list s /\ station_ids r = station_ids s /\
    sent (trace r) = sent (trace s) /\
    buttons i r = Ok s2 /\ s' = always_on (now i) s2.
Proof.
  intros Ht. apply tick_phases in Ht as (s2 & Hb & ->).
  pose proof (receive_controls s (incoming i)) as (Hv & Hm & Hg & Hl & Hi).
  exists (process_output (with_buffer (buffer s +++ incoming i) s)), s2.
  repeat split; try assumption.
  unfold process_output. now rewrite process_output_loop_sent.
Qed.

Lemma always_on_menu (t : Q) (s : state) :
  sta_sel (mode s) = true -> always_on t s = s.
Proof. intros H. unfold always_on. now rewrite H. Qed.

Lemma always_on_volume (t : Q) (s : state) :
  sta_sel (mode s) = false ->
  vol (always_on t s)
  = mkVolume (vol_new (vol s)) (vol_new (vol s)) (vol_speed (vol s))
             (vol_time (vol s)).
Proof.
  intros H. unfold always_on. rewrite H.
  repeat (break_match; try reflexivity).
Qed.

Lemma always_on_keys (t : Q) (s : state) :
  sta_sel (mode s) = false ->
  sent (trace (always_on t s)) = sent (trace s) ++ pending_keys s.
Proof. exact (always_on_sent t s). Qed.

Lemma draw_stations_sent (l : list string) (t : Q) (a b c : Z) (d : Q) :
  sent (snd (draw_stations l t a b c d)) = [].
Proof.
  unfold draw_stations. destruct (draw_rows _ _ _ _ _ _ _ _ _ _).
  reflexivity.
Qed.

Lemma lt_true_iff (a b : Q) : Py.lt a b = true <-> (a < b)%Q.
Proof.
  unfold Py.lt. rewrite Qlt_alt.
  destruct (a ?= b)%Q; split; intros H; try reflexivity; discriminate H.
Qed.

Lemma ge_true_iff (a b : Q) : Py.ge a b = true <-> (b <= a)%Q.
Proof.
  unfold Py.ge. rewrite negb_true_iff. split.
  - apply lt_false.
  - intros H. destruct (Py.lt a b) eqn:E; [| reflexivity].
    apply lt_true_iff in E. lra.
Qed.

(** Volume-setting mode and its timeout: an up/down press outside the
    station menu turns the mode on, stamps the time of the press and
    multiplies the speed (1 on entry) by 1.15; a pass without buttons in
    that mode resets the speed to 1, keeps the target volume, and leaves
    the mode exactly when 4 seconds or more have gone by since the last
    press. *)
Theorem volume_mode_times_out :
  (forall i s s',
      tick i s = Ok s' -> volume_branch i s = true ->
      vol_set (mode s') = true /\ sta_sel (mode s') = false /\
      vol_time (vol s') = now i /\
      vol_speed (vol s')
      = ((if vol_set (mode s) then vol_speed (vol s) else 1) * (115 # 100))%Q)
  /\
  (forall i s s',
      tick i s = Ok s' -> no_button i = true ->
      sta_sel (mode s) = false -> vol_set (mode s) = true ->
      vol_speed (vol s') = 1%Q /\ vol_time (vol s') = vol_time (vol s) /\
      vol_new (vol s') = vol_new (vol s) /\
      paused (mode s') = paused (mode s) /\ sta_sel (mode s') = false /\
      ((4 <= now i - vol_time (vol s))%Q -> vol_set (mode s') = false) /\
      ((now i - vol_time (vol s) < 4)%Q -> vol_set (mode s') = true)).
Proof.
  split.
  - intros i s s' Ht Hbr.
    apply tick_open in Ht as (r & s2 & Hv & Hm & _ & _ & _ & _ & Hb & ->).
    unfold volume_branch in Hbr. rewrite <- Hm, <- Hv in *.
    unfold buttons in Hb.
    destruct (btn_sel i), (btn_right i), (btn_left i); try discriminate Hbr.
    cbn [negb andb] in Hbr. destruct (btn_up i || btn_down i);
      [| discriminate Hbr].
    cbn [andb] in Hbr. destruct (sta_sel (mode r)) eqn:Es; [discriminate Hbr |].
    inversion Hb; subst s2; clear Hb.
    assert (Es' : sta_sel (mode (on_updown_volume (now i) (btn_up i) r)) = false).
    { unfold on_updown_volume. destruct (vol_set (mode r)); exact Es. }
    rewrite always_on_mode, (always_on_volume _ _ Es').
    unfold on_updown_volume. destruct (vol_set (mode r)); repeat split;
      exact Es.
  - intros i s s' Ht Hno Hs Hvs.
    apply tick_open in Ht as (r & s2 & Hv & Hm & _ & _ & _ & _ & Hb & ->).
    rewrite <- Hm, <- Hv in *. unfold no_button in Hno.
    unfold buttons in Hb.
    destruct (btn_sel i), (btn_right i), (btn_left i), (btn_up i),
      (btn_down i); try discriminate Hno.
    cbn [orb] in Hb. unfold on_idle in Hb. rewrite Hs, Hvs in Hb.
    destruct r as [[vc vn sp vt] [vs p ss pt] n g sl si b tr].
    cbn in Hs, Hvs, Hb |- *. subst ss vs.
    destruct (Py.ge (now i - vt) 4) eqn:Eg.
    + assert (Es : sta_sel (mode s2) = false /\ vol_set (mode s2) = false /\
                   paused (mode s2) = p /\
                   vol s2 = mkVolume vc vn 1 vt).
      { destruct p; inversion Hb; subst s2; repeat split. }
      destruct Es as (Es & Ev & Ep & Evol).
      rewrite always_on_mode, always_on_volume, Evol by exact Es.
      repeat split; try assumption; try (intros _; assumption).
      intros H. apply ge_true_iff in Eg. lra.
    + inversion Hb; subst s2; clear Hb.
      rewrite always_on_mode, always_on_volume by reflexivity.
      repeat split. intros H. apply ge_true_iff in H. congruence.
Qed.

Lemma pending_keys_vol (a b : state) :
  vol a = vol b -> pending_keys a = pending_keys b.
Proof. unfold pending_keys. now intros ->. Qed.

(** The right button, from any mode: the pass succeeds, leaves the station
    menu and volume-setting mode, un-pauses, keeps the menu cursor and the
    playing station, and sends a newline first if the menu was open, then
    ['n'], then the volume keys that were pending. *)
Theorem right_button_next_track :
  forall i s,
    is_right i = true ->
    exists s',
      tick i s = Ok s' /\
      mode s' = mkModes false false false (play_msg_time (mode s)) /\
      mn s' = mn s /\
      vol_new (vol s') = vol_new (vol s) /\
      vol_cur (vol s') = vol_new (vol s) /\
      sent (trace s')
      = sent (trace s) ++
        (if sta_sel (mode s) then [Py.chr 10] else []) ++ ["n"%string] ++
        pending_keys s.
Proof.
  intros i s Hi. unfold is_right in Hi. apply andb_prop in Hi as [Hs Hr].
  apply negb_true_iff in Hs. unfold tick.
  pose proof (receive_controls s (incoming i)) as (Hv & Hm & Hg & _).
  pose proof (process_output_loop_sent
                (String.length (buffer (with_buffer (buffer s +++ incoming i) s)))
                (with_buffer (buffer s +++ incoming i) s)) as Hsent.
  fold (process_output (with_buffer (buffer s +++ incoming i) s)) in Hsent.
  set (r := process_output _) in *. cbn [trace with_buffer] in Hsent.
  unfold buttons. rewrite Hs, Hr.
  eexists. split; [reflexivity |].
  assert (Es : sta_sel (mode (on_right r)) = false) by reflexivity.
  rewrite always_on_mode, always_on_mn, (always_on_volume _ _ Es),
    (always_on_keys _ _ Es).
  rewrite (pending_keys_vol (on_right r) s)
    by (unfold on_right; destruct (sta_sel (mode r)); exact Hv).
  rewrite <- Hm, <- Hg, <- Hv, <- Hsent. clearbody r.
  destruct r as [rv [vs p ss pt] rn rg rl ri rb rt].
  unfold on_right. cbn [mode sta_sel].
  destruct ss; cbn; rewrite ?sent_app; cbn; rewrite <- ?app_assoc;
    repeat split.
Qed.

(** The right button in the station menu the sample run ends in *)
Lemma right_button_next_track_witness :
  exists s',
    tick (mkInput EmptyString false false false true false false 9) menu_end
    = Ok s' /\
    mode s' = mkModes false false false (play_msg_time (mode menu_end)) /\
    mn s' = mn menu_end /\
    vol_new (vol s') = vol_new (vol menu_end) /\
    vol_cur (vol s') = vol_new (vol menu_end) /\
    sent (trace s')
    = sent (trace menu_end) ++
      (if sta_sel (mode menu_end) then [Py.chr 10] else []) ++ ["n"%string] ++
      pending_keys menu_end.
Proof.
  apply (right_button_next_track
           (mkInput EmptyString false false false true false false 9) menu_end).
  reflexivity.
Defined.

(** One tap of the select button *)
Lemma select_tap_step (i : input) (s : state) :
  is_select_tap i = true ->
  exists s',
    tick i s = Ok s' /\ mn s' = mn s /\
    vol_new (vol s') = vol_new (vol s) /\ sta_sel (mode s') = false /\
    (sta_sel (mode s) = true ->
     vol_set (mode s') = vol_set (mode s) /\
     paused (mode s') = paused (mode s) /\
     sent (trace s') = sent (trace s) ++ [Py.chr 10] ++ pending_keys s) /\
    (sta_sel (mode s) = false ->
     vol_set (mode s') = false /\
     paused (mode s') = negb (paused (mode s)) /\
     play_msg_time (mode s')
     = (if paused (mode s) then now i else play_msg_time (mode s)) /\
     sent (trace s') = sent (trace s) ++ ["p"%string] ++ pending_keys s).
Proof.
  intros Hi. unfold is_select_tap in Hi. apply andb_prop in Hi as [Hs Hh].
  apply negb_true_iff in Hh. unfold tick.
  pose proof (receive_controls s (incoming i)) as (Hv & Hm & Hg & _).
  pose proof (process_output_loop_sent
                (String.length (buffer (with_buffer (buffer s +++ incoming i) s)))
                (with_buffer (buffer s +++ incoming i) s)) as Hsent.
  fold (process_output (with_buffer (buffer s +++ incoming i) s)) in Hsent.
  set (r := process_output _) in *. cbn [trace with_buffer] in Hsent.
  unfold buttons. rewrite Hs, Hh.
  eexists. split; [reflexivity |].
  assert (Es : sta_sel (mode (on_select (now i) r)) = false).
  { unfold on_select. repeat (break_match; try reflexivity). }
  assert (Ev : vol (on_select (now i) r) = vol s).
  { rewrite <- Hv. unfold on_select. repeat (break_match; try reflexivity). }
  rewrite always_on_mode, always_on_mn, (always_on_volume _ _ Es),
    (always_on_keys _ _ Es), (pending_keys_vol _ s Ev), Ev.
  rewrite <- Hm, <- Hg, <- Hsent. clear Es Ev. clearbody r.
  destruct r as [rv [vs p ss pt] rn rg rl ri rb rt].
  unfold on_select. cbn [mode sta_sel paused vol_set play_msg_time].
  destruct ss, p; cbn; rewrite ?sent_app; cbn; rewrite <- ?app_assoc;
    repeat split; intros; discriminate.
Qed.

(** A tap of the select button (released before [HOLD_TIME]): the pass
    succeeds and keeps the menu cursor and the target volume; in the
    station menu it cancels the menu, with a newline to pianobar, and
    keeps the pause state; elsewhere it toggles the pause state, leaves
    volume-setting mode and sends ['p'], so that two taps in a row give
    the pause state back. *)
Theorem select_tap_toggles_pause :
  (forall i s,
      is_select_tap i = true ->
      exists s',
        tick i s = Ok s' /\ mn s' = mn s /\
        vol_new (vol s') = vol_new (vol s) /\ sta_sel (mode s') = false /\
        (sta_sel (mode s) = true ->
         vol_set (mode s') = vol_set (mode s) /\
         paused (mode s') = paused (mode s) /\
         sent (trace s') = sent (trace s) ++ [Py.chr 10] ++ pending_keys s) /\
        (sta_sel (mode s) = false ->
         vol_set (mode s') = false /\
         paused (mode s') = negb (paused (mode s)) /\
         play_msg_time (mode s')
         = (if paused (mode s) then now i else play_msg_time (mode s)) /\
         sent (trace s') = sent (trace s) ++ ["p"%string] ++ pending_keys s))
  /\
  (forall i1 i2 s,
      is_select_tap i1 = true -> is_select_tap i2 = true ->
      sta_sel (mode s) = false ->
      exists s2,
        run [i1; i2] s = Ok s2 /\
        paused (mode s2) = paused (mode s) /\
        sta_sel (mode s2) = false /\ vol_set (mode s2) = false).
Proof.
  split; [exact select_tap_step |].
  intros i1 i2 s H1 H2 Hs.
  destruct (select_tap_step i1 s H1) as (s1 & Ht1 & _ & _ & Hs1 & _ & Hn1).
  destruct (Hn1 Hs) as (_ & Hp1 & _).
  destruct (select_tap_step i2 s1 H2) as (s2 & Ht2 & _ & _ & Hs2 & _ & Hn2).
  destruct (Hn2 Hs1) as (Hv2 & Hp2 & _).
  exists s2. cbn [run]. rewrite Ht1, Ht2.
  repeat split; try assumption.
  rewrite Hp2, Hp1. apply negb_involutive.
Qed.

(** ** A walk through the station menu *)

Lemma run_app (a b : list input) (s : state) :
  run (a ++ b) s
  = match run a s with Ok s' => run b s' | Exit => Exit | Raise => Raise end.
Proof.
  revert s; induction a as [|i a IH]; intros s; cbn [app run]; [reflexivity |].
  destruct (tick i s); [apply IH | reflexivity | reflexivity].
Qed.

(** A pass as the button cascade and the always-on part applied to a
    state that has the controls of the state before and has sent nothing
    more *)
Lemma tick_via (i : input) (s : state) :
  exists rn rb rt,
    sent rt = sent (trace s) /\
    tick i s
    = match buttons i (mkState (vol s) (mode s) rn (mn s) (station_list s)
                               (station_ids s) rb rt) with
      | Ok s2 => Ok (always_on (now i) s2)
      | Exit => Exit
      | Raise => Raise
      end.
Proof.
  unfold tick.
  pose proof (receive_controls s (incoming i)) as (Hv & Hm & Hg & Hsl & Hsi).
  pose proof (process_output_loop_sent
                (String.length (buffer (with_buffer (buffer s +++ incoming i) s)))
                (with_buffer (buffer s +++ incoming i) s)) as Hsent.
  fold (process_output (with_buffer (buffer s +++ incoming i) s)) in Hsent.
  destruct (process_output _) as [rv rm rn rg rl ri rb rt].
  cbn in Hv, Hm, Hg, Hsl, Hsi, Hsent. subst.
  now exists rn, rb, rt.
Qed.

(** The left button outside the menu *)
Lemma enter_menu_step (i : input) (s : state) :
  is_left i = true -> sta_sel (mode s) = false ->
  exists s',
    tick i s = Ok s' /\
    mode s' = mkModes false (paused (mode s)) true (play_msg_time (mode s)) /\
    vol s' = vol s /\
    station_list s' = station_list s /\ station_ids s' = station_ids s /\
    station_num (mn s') = station_num (mn s) /\
    station_new (mn s') = 0 /\ cursorY (mn s') = 0 /\ list_top (mn s') = 0 /\
    sent (trace s') = sent (trace s) ++ ["s"%string].
Proof.
  intros Hi Hs. unfold is_left in Hi.
  apply andb_prop in Hi as [Hi Hl]. apply andb_prop in Hi as [Hsel Hr].
  apply negb_true_iff in Hsel, Hr.
  destruct (tick_via i s) as (rn & rb & rt & Hsent & ->).
  unfold buttons, on_left. rewrite Hsel, Hr, Hl. cbn [mode]. rewrite Hs.
  cbn [negb].
  eexists. split; [reflexivity |].
  rewrite always_on_menu by reflexivity.
  cbn. rewrite !sent_app, draw_stations_sent, app_nil_r, Hsent.
  repeat split.
Qed.

(** The up or the down button inside the menu *)
Lemma menu_press_step (i : input) (s : state) :
  is_down i || is_up i = true -> sta_sel (mode s) = true ->
  exists s',
    tick i s = Ok s' /\
    mode s' = mode s /\ vol s' = vol s /\
    station_list s' = station_list s /\ station_ids s' = station_ids s /\
    station_num (mn s') = station_num (mn s) /\
    station_new (mn s')
    = menu_move (Z.of_nat (List.length (station_list s)))
                (station_new (mn s)) i /\
    sent (trace s') = sent (trace s).
Proof.
  intros Hi Hs.
  assert (Hb : btn_sel i = false /\ btn_right i = false /\
               btn_left i = false /\ (btn_up i || btn_down i) = true).
  { unfold is_down, is_up in Hi.
    destruct (btn_sel i), (btn_right i), (btn_left i), (btn_down i),
      (btn_up i); try discriminate Hi; repeat split. }
  destruct Hb as (Hsel & Hr & Hl & Hud).
  destruct (tick_via i s) as (rn & rb & rt & Hsent & ->).
  unfold buttons. rewrite Hsel, Hr, Hl, Hud. cbn [mode]. rewrite Hs.
  eexists. split; [reflexivity |].
  set (r := mkState _ _ _ _ _ _ _ _).
  assert (Hm' : mode (on_updown_menu (now i) (btn_down i) r) = mode s).
  { unfold on_updown_menu. repeat (break_match; try reflexivity). }
  rewrite always_on_menu by (rewrite Hm'; exact Hs).
  unfold on_updown_menu, menu_move, r.
  cbn [mn station_list station_new cursorY list_top x_station station_num].
  destruct (btn_down i);
    [destruct (station_new (mn s) <? Z.of_nat (List.length (station_list s)) - 1)
    | destruct (station_new (mn s) >? 0)];
    match goal with
    | |- context [draw_stations ?l ?t ?a ?b ?c ?d] =>
        pose proof (draw_stations_sent l t a b c d) as Hdraw;
        destruct (draw_stations l t a b c d) as [ret acts]
    end;
    cbn in Hdraw |- *; rewrite ?sent_app, ?Hdraw, ?app_nil_r, ?Hsent;
    destruct (mode s); repeat split.
Qed.

(** The left button inside the menu *)
Lemma leave_menu_step (i : input) (s : state) (id : string) :
  is_left i = true -> sta_sel (mode s) = true ->
  Py.index (station_ids s) (station_new (mn s)) = Some id ->
  exists s',
    tick i s = Ok s' /\
    mode s'
    = mkModes (vol_set (mode s)) false false (play_msg_time (mode s)) /\
    station_num (mn s') = station_new (mn s) /\
    vol_new (vol s') = vol_new (vol s) /\
    vol_cur (vol s') = vol_new (vol s) /\
    sent (trace s') = sent (trace s) ++ [id +++ Py.chr 10] ++ pending_keys s.
Proof.
  intros Hi Hs Hid. unfold is_left in Hi.
  apply andb_prop in Hi as [Hi Hl]. apply andb_prop in Hi as [Hsel Hr].
  apply negb_true_iff in Hsel, Hr.
  destruct (tick_via i s) as (rn & rb & rt & Hsent & ->).
  unfold buttons, on_left. rewrite Hsel, Hr, Hl.
  cbn [mode station_ids mn]. rewrite Hs, Hid. cbn [negb].
  eexists. split; [reflexivity |].
  rewrite always_on_mode, always_on_mn, always_on_volume, always_on_keys
    by reflexivity.
  rewrite (pending_keys_vol _ s) by reflexivity.
  cbn. rewrite !sent_app, Hsent. cbn. rewrite <- app_assoc.
  repeat split.
Qed.

(** Up and down presses inside the menu move the highlight, one station
    for each press, and stop at the ends of the list. *)
Lemma run_presses (presses : list input) :
  forall s,
    Forall (fun i => is_down i || is_up i = true) presses ->
    menu_ok s -> sta_sel (mode s) = true ->
    exists s',
      run presses s = Ok s' /\ menu_ok s' /\
      mode s' = mode s /\ vol s' = vol s /\
      station_list s' = station_list s /\ station_ids s' = station_ids s /\
      station_num (mn s') = station_num (mn s) /\
      sent (trace s') = sent (trace s) /\
      station_new (mn s')
      = menu_walk (Z.of_nat (List.length (station_list s))) presses
                  (station_new (mn s)).
Proof.
  induction presses as [|i presses IH]; intros s Hall Hok Hs.
  - exists s. cbn [run menu_walk fold_left].
    split; [reflexivity |]. split; [exact Hok |]. repeat split.
  - inversion Hall as [|? ? Hi Hall']; subst.
    destruct (menu_press_step i s Hi Hs)
      as (s1 & Ht & Hm & Hv & Hl & Hids & Hn & Hnew & Hsent).
    assert (Hok1 : menu_ok s1) by (eapply tick_menu_ok; eassumption).
    destruct (IH s1 Hall' Hok1 ltac:(now rewrite Hm))
      as (s' & Hrun & Hok' & Hm' & Hv' & Hl' & Hids' & Hn' & Hsent' & Hnew').
    exists s'. cbn [run]. rewrite Ht.
    split; [exact Hrun |]. split; [exact Hok' |].
    do 6 (split; [congruence |]).
    rewrite Hnew', Hl, Hnew. reflexivity.
Qed.

(** A walk stays inside the list, and a walk of down presses only goes as
    far down as there are presses, or to the last station. *)
Lemma menu_walk_range (n : Z) (presses : list input) :
  forall pos, 0 <= pos <= n - 1 -> 0 <= menu_walk n presses pos <= n - 1.
Proof.
  induction presses as [|i presses IH]; intros pos Hp;
    cbn [menu_walk fold_left]; [exact Hp |].
  apply IH. unfold menu_move.
  destruct (btn_down i); [destruct (pos <? n - 1) eqn:E
                         | destruct (pos >? 0) eqn:E]; lia.
Qed.

Lemma menu_walk_downs (n : Z) (presses : list input) :
  Forall (fun i => is_down i = true) presses ->
  forall pos, 0 <= pos <= n - 1 ->
  menu_walk n presses pos
  = Z.min (pos + Z.of_nat (List.length presses)) (n - 1).
Proof.
  induction 1 as [|i presses Hi _ IH]; intros pos Hp;
    cbn [menu_walk fold_left List.length]; [lia |].
  fold (menu_walk n presses (menu_move n pos i)).
  assert (Hd : btn_down i = true).
  { unfold is_down in Hi. now apply andb_prop in Hi as [_ Hi]. }
  unfold menu_move. rewrite Hd.
  destruct (pos <? n - 1) eqn:E; rewrite IH by lia; lia.
Qed.

(** Choosing a station: from a state a run reaches outside the station
    menu, the left button, then any presses of the up and down buttons,
    then the left button again tune to the station the presses walk to
    from the top of the list, each press one station up or down and none
    past an end of the list ([min(k, len - 1)] after [k] presses of down
    alone): the run succeeds, [station_num] is that position, the menu is
    closed and the music un-paused, and pianobar gets ['s'], then the id of
    that station with a newline, then the pending volume keys. *)
Theorem menu_walk_selects_station :
  forall pk lines s0 ins s enter presses leave,
    startup pk lines = Ok s0 -> run ins s0 = Ok s ->
    sta_sel (mode s) = false ->
    is_left enter = true ->
    Forall (fun i => is_down i || is_up i = true) presses ->
    is_left leave = true ->
    let n := Z.of_nat (List.length (station_list s)) in
    let k := menu_walk n presses 0 in
    exists s' id,
      run (enter :: presses ++ [leave]) s = Ok s' /\
      0 <= k <= n - 1 /\
      (Forall (fun i => is_down i = true) presses ->
       k = Z.min (Z.of_nat (List.length presses)) (n - 1)) /\
      Py.index (station_ids s) k = Some id /\
      station_num (mn s') = k /\
      sta_sel (mode s') = false /\ paused (mode s') = false /\
      vol_set (mode s') = false /\
      sent (trace s')
      = sent (trace s) ++ ["s"%string; id +++ Py.chr 10] ++ pending_keys s.
Proof.
  intros pk lines s0 ins s enter presses leave Hs0 Hrun Hsel He Hd Hl n k.
  assert (Hok : menu_ok s).
  { apply (run_invariant menu_ok tick_menu_ok ins s0 s); [| exact Hrun].
    eapply startup_menu_ok; eassumption. }
  destruct (enter_menu_step enter s He Hsel)
    as (s1 & Ht1 & Hm1 & Hv1 & Hl1 & Hi1 & Hn1 & Hnew1 & _ & _ & Hsent1).
  assert (Hok1 : menu_ok s1) by (eapply tick_menu_ok; eassumption).
  destruct (run_presses presses s1 Hd Hok1 ltac:(now rewrite Hm1))
    as (s2 & Hrun2 & Hok2 & Hm2 & Hv2 & Hl2 & Hi2 & Hn2 & Hsent2 & Hnew2).
  rewrite Hnew1, Hl1 in Hnew2. fold n in Hnew2. fold k in Hnew2.
  assert (Hn : 1 <= n /\ Z.of_nat (List.length (station_ids s)) = n).
  { unfold menu_ok in Hok. destruct Hok as (H1 & H2 & _).
    unfold n. rewrite H2. split; [exact H1 | reflexivity]. }
  assert (Hk : 0 <= k <= n - 1) by (apply menu_walk_range; lia).
  destruct (index_in_range (station_ids s) k ltac:(lia)) as [id Hid].
  destruct (leave_menu_step leave s2 id Hl)
    as (s3 & Ht3 & Hm3 & Hn3 & Hvn3 & Hvc3 & Hsent3).
  { now rewrite Hm2, Hm1. }
  { now rewrite Hi2, Hi1, Hnew2. }
  exists s3, id. cbn [run]. rewrite Ht1, run_app, Hrun2. cbn [run].
  rewrite Ht3. rewrite Hm3, Hn3, Hnew2, Hsent3, Hsent2, Hsent1.
  rewrite (pending_keys_vol s2 s) by congruence.
  rewrite Hm2, Hm1. cbn [vol_set paused sta_sel].
  rewrite <- app_assoc.
  split; [reflexivity |]. split; [exact Hk |].
  split; [| repeat split; exact Hid].
  intros Hdowns. unfold k. rewrite menu_walk_downs by (assumption || lia).
  lia.
Qed.

(** The timeout on the sample: a press at time 2, no button at time 7 *)
Lemma volume_mode_times_out_witness :
  vol_speed (vol vol_mode_idle) = 1%Q /\
  vol_time (vol vol_mode_idle) = vol_time (vol vol_mode) /\
  vol_new (vol vol_mode_idle) = vol_new (vol vol_mode) /\
  paused (mode vol_mode_idle) = paused (mode vol_mode) /\
  sta_sel (mode vol_mode_idle) = false /\
  ((4 <= now (no_buttons EmptyString 7) - vol_time (vol vol_mode))%Q ->
   vol_set (mode vol_mode_idle) = false) /\
  ((now (no_buttons EmptyString 7) - vol_time (vol vol_mode) < 4)%Q ->
   vol_set (mode vol_mode_idle) = true).
Proof.
  apply (proj2 volume_mode_times_out (no_buttons EmptyString 7) vol_mode
               vol_mode_idle);
    vm_compute; reflexivity.
Defined.

(** Two taps on the session without pickle file *)
Lemma select_tap_toggles_pause_witness :
  exists s2,
    run [select_tap 1; select_tap 2] fresh_start = Ok s2 /\
    paused (mode s2) = paused (mode fresh_start) /\
    sta_sel (mode s2) = false /\ vol_set (mode s2) = false.
Proof.
  apply (proj2 select_tap_toggles_pause (select_tap 1) (select_tap 2)
               fresh_start);
    reflexivity.
Defined.

(** Left, down, down, up, left on the two stations of the sample *)
Lemma menu_walk_selects_station_witness :
  let n := Z.of_nat (List.length (station_list low_start)) in
  let k := menu_walk n down_down_up 0 in
  exists s' id,
    run (press_left 1 :: down_down_up ++ [press_left 5]) low_start = Ok s' /\
    0 <= k <= n - 1 /\
    (Forall (fun i => is_down i = true) down_down_up ->
     k = Z.min (Z.of_nat (List.length down_down_up)) (n - 1)) /\
    Py.index (station_ids low_start) k = Some id /\
    station_num (mn s') = k /\
    sta_sel (mode s') = false /\ paused (mode s') = false /\
    vol_set (mode s') = false /\
    sent (trace s')
    = sent (trace low_start) ++ ["s"%string; id +++ Py.chr 10] ++
      pending_keys low_start.
Proof.
  apply (menu_walk_selects_station low_pickle demo_lines low_start []
           low_start (press_left 1) down_down_up (press_left 5));
    try reflexivity.
  repeat constructor.
Defined.

(** ** The volume keys *)

Lemma key_steps_cat (a b : string) :
  key_steps (a +++ b) = key_steps a + key_steps b.
Proof.
  unfold cat. induction a as [|c a IH]; [reflexivity |].
  cbn [append key_steps]. rewrite IH. lia.
Qed.

Lemma key_steps_plain (s : string) : plain s = true -> key_steps s = 0.
Proof.
  induction s as [|c s IH]; [reflexivity |]. cbn [plain key_steps].
  destruct (Ascii.eqb c ")"), (Ascii.eqb c "("); cbn; try discriminate.
  exact IH.
Qed.

Lemma key_steps_repeat (c : string) (n : nat) :
  key_steps (Py.repeat_nat c n) = Z.of_nat n * key_steps c.
Proof.
  induction n as [|n IH]; [reflexivity |].
  cbn [Py.repeat_nat]. fold (cat c (Py.repeat_nat c n)).
  rewrite key_steps_cat, IH. lia.
Qed.

(** The keys for a change of [d] units move pianobar by [d] steps. *)
Lemma key_steps_volume_keys (d : Z) : key_steps (volume_keys d) = d.
Proof.
  unfold volume_keys, Py.mul. destruct (d >? 0) eqn:E;
    rewrite key_steps_repeat; cbn [key_steps Ascii.eqb]; cbn; lia.
Qed.

Lemma net_steps_app (a b : list string) :
  net_steps (a ++ b) = net_steps a + net_steps b.
Proof.
  induction a as [|x a IH]; [reflexivity |].
  cbn [app net_steps]. rewrite IH. lia.
Qed.

Lemma net_steps_pending (s : state) :
  net_steps (pending_keys s)
  = vol_int (vol_new (vol s)) - vol_int (vol_cur (vol s)).
Proof.
  unfold pending_keys, vol_int. cbv zeta.
  destruct (_ =? _) eqn:E; cbn [net_steps].
  - lia.
  - rewrite key_steps_volume_keys. lia.
Qed.

Lemma index_in {A : Type} (l : list A) (i : Z) (x : A) :
  Py.index l i = Some x -> In x l.
Proof.
  unfold Py.index. destruct (_ && _); [| discriminate].
  apply nth_error_In.
Qed.

(** The button cascade sends no volume key and leaves the current volume
    alone. *)
Lemma buttons_steps (i : input) (s : state) :
  Forall (fun id => plain id = true) (station_ids s) ->
  match buttons i s with
  | Ok s' =>
      net_steps (sent (trace s')) = net_steps (sent (trace s)) /\
      vol_cur (vol s') = vol_cur (vol s) /\
      station_ids s' = station_ids s
  | _ => True
  end.
Proof.
  intros Hids.
  destruct s as [[vc vn sp vt] [vs p ss pt] n [num new cy top xs bt] sl si b tr].
  cbn [station_ids] in Hids.
  unfold_buttons; cbn.
  repeat (break_match; cbn; try exact I);
    repeat match goal with
           | H : draw_stations ?l ?t ?a ?b ?c ?d = (_, _) |- _ =>
               let Hd := fresh "Hd" in
               pose proof (draw_stations_sent l t a b c d) as Hd;
               rewrite H in Hd; cbn [snd] in Hd; clear H
           | H : Py.index si _ = Some _ |- _ =>
               apply index_in in H;
               rewrite Forall_forall in Hids; apply Hids in H
           end;
    rewrite ?sent_app, ?net_steps_app; cbn;
    rewrite ?sent_app, ?net_steps_app; cbn;
    repeat match goal with
           | H : sent _ = [] |- _ => rewrite H
           end;
    cbn; rewrite ?key_steps_cat; cbn;
    repeat match goal with
           | H : plain _ = true |- _ => rewrite (key_steps_plain _ H)
           end;
    rewrite ?draw_stations_sent;
    change (ascii_of_nat (Pos.to_nat 10)) with "010"%char;
    cbn; repeat split; lia.
Qed.


Lemma tick_tracks (i : input) (s s' : state) :
  tracks s -> tick i s = Ok s' -> tracks s'.
Proof.
  intros (Hids & Hnet) Ht.
  apply tick_open in Ht as (r & s2 & Hv & _ & _ & _ & Hi & Hs & Hb & ->).
  pose proof (buttons_steps i r) as Hk. rewrite Hb, Hi in Hk.
  destruct (Hk Hids) as (Hn2 & Hc2 & Hi2).
  unfold tracks. destruct (always_on_stations (now i) s2) as [_ ->].
  rewrite Hi2. split; [exact Hids |].
  destruct (sta_sel (mode s2)) eqn:Es.
  - rewrite always_on_menu by exact Es. rewrite Hn2, Hc2, Hs, Hv. exact Hnet.
  - rewrite always_on_keys, always_on_volume by exact Es.
    rewrite net_steps_app, net_steps_pending, Hn2, Hs, Hnet, Hc2, Hv.
    cbn [vol_cur]. lia.
Qed.

(** Pianobar's volume follows the current volume: when no selector id holds
    a parenthesis, the up keys minus the down keys sent since start-up are,
    after every pass, the integerized current volume
    [int(vol_cur - VOL_MIN + 0.5)]. *)
Theorem pianobar_volume_tracks :
  forall pk lines s0 ins s,
    startup pk lines = Ok s0 -> run ins s0 = Ok s ->
    Forall (fun id => plain id = true) (snd (get_stations lines)) ->
    net_steps (sent (trace s)) = vol_int (vol_cur (vol s)).
Proof.
  intros pk lines s0 ins s Hs Hrun Hids.
  assert (H : tracks s).
  { apply (run_invariant tracks tick_tracks ins s0 s); [| exact Hrun].
    apply startup_shape in Hs as (num & id & Hid & ->).
    split; [exact Hids |]. cbn [trace sent net_steps vol vol_cur].
    apply index_in in Hid. rewrite Forall_forall in Hids.
    rewrite key_steps_cat, (key_steps_plain id (Hids id Hid)).
    reflexivity. }
  exact (proj2 H).
Qed.

(** On the session with the up button held *)
Lemma pianobar_volume_tracks_witness :
  net_steps (sent (trace held_up_end)) = vol_int (vol_cur (vol held_up_end)).
Proof.
  apply (pianobar_volume_tracks None demo_lines fresh_start held_up
                                held_up_end);
    try (vm_compute; reflexivity).
  repeat constructor.
Defined.

(** Nothing stays pending: after a pass that ends outside the station menu
    the current volume is the target volume and no volume key is left to
    send, so the always-on part run once more would send nothing. *)
Theorem volume_applied_each_pass :
  forall i s s',
    tick i s = Ok s' -> sta_sel (mode s') = false ->
    vol_cur (vol s') = vol_new (vol s') /\ pending_keys s' = [] /\
    forall t, sent (trace (always_on t s')) = sent (trace s').
Proof.
  intros i s s' Ht Hs.
  apply tick_phases in Ht as (s2 & _ & ->).
  rewrite always_on_mode in Hs.
  assert (Hp : pending_keys (always_on (now i) s2) = []).
  { unfold pending_keys. rewrite (always_on_volume _ _ Hs).
    cbn [vol_cur vol_new]. now rewrite Z.eqb_refl. }
  rewrite (always_on_volume _ _ Hs). cbn [vol_cur vol_new].
  split; [reflexivity | split; [exact Hp |]].
  intros t. rewrite always_on_keys by (now rewrite always_on_mode).
  rewrite Hp. apply app_nil_r.
Qed.

(** On the up press of the session with -100 stored *)
Lemma volume_applied_each_pass_witness :
  vol_cur (vol low_end) = vol_new (vol low_end) /\
  pending_keys low_end = [] /\
  forall t, sent (trace (always_on t low_end)) = sent (trace low_end).
Proof.
  apply (volume_applied_each_pass (press_up 2) low_first low_end);
    vm_compute; reflexivity.
Defined.

(** ** The volume bar *)

Lemma len_cat (a b : string) : Py.len (a +++ b) = Py.len a + Py.len b.
Proof.
  unfold Py.len, cat. induction a as [|c a IH]; [reflexivity |].
  cbn [append String.length]. lia.
Qed.

Lemma len_mul (s : string) (n : Z) :
  Py.len (Py.mul s n) = Py.len s * Z.max 0 n.
Proof.
  unfold Py.mul.
  replace (Z.max 0 n) with (Z.of_nat (Z.to_nat n)) by lia.
  induction (Z.to_nat n) as [|k IH]; [cbn; lia |].
  cbn [Py.repeat_nat]. fold (cat s (Py.repeat_nat s k)).
  rewrite len_cat, IH. lia.
Qed.

Lemma int_lower (q : Q) (k : Z) :
  (inject_Z k <= q)%Q -> k <= Py.int q.
Proof.
  unfold Qle, Py.int, inject_Z. cbn [Qnum Qden]. intros H.
  apply Z.quot_le_lower_bound; lia.
Qed.

Lemma int_upper (q : Q) (k : Z) :
  (0 <= q)%Q -> (q < inject_Z k)%Q -> Py.int q < k.
Proof.
  unfold Qle, Qlt, Py.int, inject_Z. cbn [Qnum Qden]. intros H0 H.
  apply Z.quot_lt_upper_bound; lia.
Qed.

(** In range, the integerized volume is one of 0, ..., 35, and 35 from
    14.5 on. *)
Lemma vol_int_range (v : Q) :
  in_range v ->
  0 <= vol_int v <= 35 /\
  ((v < 29 # 2)%Q -> vol_int v <= 34) /\
  ((29 # 2 <= v)%Q -> vol_int v = 35).
Proof.
  unfold vol_int, in_range, VOL_MIN, VOL_MAX. intros [H1 H2].
  set (q := ((v - (-20 # 1)) + (1 # 2))%Q).
  assert (Hq0 : (0 <= q)%Q) by (unfold q; lra).
  pose proof (int_lower q 0 ltac:(unfold q, inject_Z; lra)) as L0.
  pose proof (int_upper q 36 Hq0 ltac:(unfold q, inject_Z; lra)) as U36.
  split; [lia | split]; intros H.
  - pose proof (int_upper q 35 Hq0 ltac:(unfold q, inject_Z; lra)). lia.
  - pose proof (int_lower q 35 ltac:(unfold q, inject_Z; lra)). lia.
Qed.

(** The bar drawn on entry to volume-setting mode, for a volume in range:
    one message at the start of the second line, 16 or 17 characters wide;
    16, the width of the display, up to the volume 14.49, and 17 from 14.5
    up to [VOL_MAX], where seven full bricks come before the fractional
    one.  Between 14.49 and 14.5 the width is the one or the other, as the
    sum [(vol_cur - VOL_MIN) + 0.5] falls below 35 or not. *)
Theorem volume_bar_width :
  forall v,
    in_range v ->
    exists m,
      volume_bar v = [LcdSetCursor 0 1; LcdMessage m] /\
      (Py.len m = 16 \/ Py.len m = 17) /\
      ((v <= 1449 # 100)%Q -> Py.len m = 16) /\
      ((29 # 2 <= v)%Q -> Py.len m = 17).
Proof.
  intros v Hv. unfold volume_bar. fold (vol_int v). cbv zeta.
  eexists. split; [reflexivity |].
  destruct (vol_int_range v Hv) as (Hr & Hlo & Hhi).
  rewrite !len_cat, !len_mul. unfold Py.int_div.
  change (Py.len (Py.chr 6)) with 1. change (Py.len " Volume ") with 8.
  change (Py.len (Py.chr 5)) with 1. change (Py.len (Py.chr 0)) with 1.
  change (Py.len (Py.chr (vol_int v mod 5))) with 1.
  assert (Hn : 0 <= vol_int v ÷ 5 <= 7).
  { rewrite Z.quot_div_nonneg by lia.
    split; [apply Z.div_pos; lia |].
    apply Z.lt_succ_r. apply Z.div_lt_upper_bound; lia. }
  split; [lia | split]; intros H.
  - assert (Hv' : (v < 29 # 2)%Q) by lra. specialize (Hlo Hv').
    assert (vol_int v ÷ 5 <= 6).
    { rewrite Z.quot_div_nonneg by lia.
      apply Z.lt_succ_r. apply Z.div_lt_upper_bound; lia. }
    lia.
  - rewrite (Hhi H). reflexivity.
Qed.

(** The bar at [VOL_MAX]: 17 characters *)
Lemma volume_bar_width_witness :
  exists m,
    volume_bar VOL_MAX = [LcdSetCursor 0 1; LcdMessage m] /\ Py.len m = 17.
Proof.
  destruct (volume_bar_width VOL_MAX) as (m & Hm & _ & _ & H17).
  - unfold in_range, VOL_MIN, VOL_MAX. split; unfold Qle; simpl; lia.
  - exists m. split; [exact Hm |]. apply H17.
    unfold VOL_MAX, Qle; simpl; lia.
Defined.

(** ** The marquee windows *)

Lemma length_string_of_list (l : list ascii) :
  String.length (string_of_list_ascii l) = List.length l.
Proof. induction l as [|c l IH]; [reflexivity |]. cbn. now rewrite IH. Qed.

Lemma length_list_of_string (s : string) :
  List.length (list_ascii_of_string s) = String.length s.
Proof. induction s as [|c s IH]; [reflexivity |]. cbn. now rewrite IH. Qed.

Lemma list_of_cat (a b : string) :
  list_ascii_of_string (a +++ b)
  = list_ascii_of_string a ++ list_ascii_of_string b.
Proof.
  unfold cat. induction a as [|c a IH]; [reflexivity |].
  cbn. now rewrite IH.
Qed.

(** A slice with bounds that are not negative, by [firstn] and [skipn] *)
Lemma slice_nonneg {A : Type} (l : list A) (a b : Z) :
  0 <= a -> a <= b ->
  Py.slice l a b = firstn (Z.to_nat (b - a)) (skipn (Z.to_nat a) l).
Proof.
  intros Ha Hab. unfold Py.slice, Py.norm. cbv zeta.
  replace (a <? 0) with false by lia. replace (b <? 0) with false by lia.
  set (n := List.length l).
  destruct (Z_le_gt_dec (Z.of_nat n) a) as [Hna | Hna].
  - rewrite !skipn_all2 by (fold n; lia). now rewrite !firstn_nil.
  - replace (Z.min a (Z.of_nat n)) with a by lia.
    destruct (Z_le_gt_dec b (Z.of_nat n)) as [Hb | Hb].
    + now replace (Z.min b (Z.of_nat n)) with b by lia.
    + replace (Z.min b (Z.of_nat n)) with (Z.of_nat n) by lia.
      rewrite !firstn_all2; [reflexivity | |]; rewrite length_skipn; fold n; lia.
Qed.

Lemma len_sslice (s : string) (a b : Z) :
  0 <= a -> a <= b ->
  Py.len (Py.sslice s a b) = Z.min (b - a) (Z.max 0 (Py.len s - a)).
Proof.
  intros Ha Hab. unfold Py.len, Py.sslice.
  rewrite length_string_of_list, slice_nonneg, length_firstn, length_skipn,
    length_list_of_string by assumption.
  lia.
Qed.

(** [int(c + 16 / n)] for a length [n]: [c] and the whole part of the
    quotient *)
Lemma int_copies (c n : Z) :
  0 <= c -> 0 < n ->
  Py.int (inject_Z c + 16 / inject_Z n) = c + 16 / n.
Proof.
  intros Hc Hn. destruct n as [|p|p]; try lia.
  unfold Py.int, Qdiv, Qinv, Qmult, Qplus, inject_Z. cbn [Qnum Qden].
  rewrite !Pos.mul_1_l, !Z.mul_1_r.
  rewrite Z.quot_div_nonneg by lia.
  apply Z.div_add_l. lia.
Qed.

(** The marquee string is long enough for a window at every position of
    the loop. *)
Lemma copies_cover (n k : Z) :
  0 < n -> 1 + 16 / n <= k -> n + 16 <= n * k + Z.min 16 n.
Proof.
  intros Hn Hk.
  pose proof (Z.div_mod 16 n ltac:(lia)) as Hd.
  pose proof (Z.mod_pos_bound 16 n Hn) as Hm.
  assert (Hq : 0 <= 16 / n) by (apply Z.div_pos; lia).
  assert (Hk' : n * (1 + 16 / n) <= n * k) by (apply Z.mul_le_mono_nonneg_l; lia).
  destruct (Z_le_gt_dec 16 n) as [H16 | H16].
  - replace (Z.min 16 n) with 16 by lia. nia.
  - replace (Z.min 16 n) with n by lia. lia.
Qed.

Lemma title_marquee_shape (title : string) :
  let s := title +++ "    " in
  let n := Py.len s in
  n = Py.len title + 4 /\
  title_marquee title = (Py.mul s (1 + 16 / n) +++ Py.sslice s 0 16, - n + 2) /\
  n + 16 <= Py.len (fst (title_marquee title)).
Proof.
  cbv zeta. set (s := title +++ "    "). set (n := Py.len s).
  assert (Hn : n = Py.len title + 4).
  { unfold n, s. rewrite len_cat. reflexivity. }
  assert (Hpos : 0 < n) by (unfold Py.len in Hn; lia).
  assert (E : title_marquee title
              = (Py.mul s (1 + 16 / n) +++ Py.sslice s 0 16, - n + 2)).
  { unfold title_marquee. fold s. fold n. cbv zeta.
    change 1%Q with (inject_Z 1). now rewrite int_copies by lia. }
  split; [exact Hn | split; [exact E |]].
  rewrite E. cbn [fst]. rewrite len_cat, len_mul, len_sslice by lia.
  fold n.
  assert (0 <= 16 / n) by (apply Z.div_pos; lia).
  replace (Z.max 0 (1 + 16 / n)) with (1 + 16 / n) by lia.
  pose proof (copies_cover n (1 + 16 / n) Hpos ltac:(lia)). lia.
Qed.

Lemma info_marquee_shape (artist album : string) :
  let s := artist +++ " < " +++ album +++ " > " in
  let n := Py.len s in
  n = Py.len artist + Py.len album + 6 /\
  info_marquee artist album
  = (Py.mul s (2 + 16 / n) +++ Py.sslice s 0 16, - n + 2) /\
  n + 16 <= Py.len (fst (info_marquee artist album)).
Proof.
  cbv zeta. set (s := artist +++ " < " +++ album +++ " > ").
  set (n := Py.len s).
  assert (Hn : n = Py.len artist + Py.len album + 6).
  { unfold n, s. rewrite !len_cat.
    change (Py.len " < ") with 3. change (Py.len " > ") with 3. lia. }
  assert (Hpos : 0 < n) by (unfold Py.len in Hn; lia).
  assert (E : info_marquee artist album
              = (Py.mul s (2 + 16 / n) +++ Py.sslice s 0 16, - n + 2)).
  { unfold info_marquee. fold s. fold n. cbv zeta.
    change 2%Q with (inject_Z 2). now rewrite int_copies by lia. }
  split; [exact Hn | split; [exact E |]].
  rewrite E. cbn [fst]. rewrite len_cat, len_mul, len_sslice by lia.
  fold n.
  assert (0 <= 16 / n) by (apply Z.div_pos; lia).
  replace (Z.max 0 (2 + 16 / n)) with (2 + 16 / n) by lia.
  pose proof (copies_cover n (2 + 16 / n) Hpos ltac:(lia)). lia.
Qed.

(** A window of [marquee] on a string long enough is 16 characters wide. *)
Lemma marquee_window (t : string) (x y w : Z) :
  16 - x <= Py.len t -> x <= 16 ->
  exists m,
    snd (marquee t x y w) = [LcdSetCursor 0 y; LcdMessage m] /\
    Py.len m = 16.
Proof.
  intros HL Hx. unfold marquee. destruct (x >? 0) eqn:E.
  - eexists. split; [reflexivity |].
    rewrite len_cat, len_mul, len_sslice by lia.
    change (Py.len " ") with 1. lia.
  - eexists. split; [reflexivity |].
    rewrite len_sslice by lia. lia.
Qed.

(** The positions a marquee takes from the start position stay between
    the wrap threshold less one and 16. *)
Lemma offsets_range (s : string) (y w : Z) (k : nat) :
  w <= 0 -> w - 1 <= offsets s y w 16 k <= 16.
Proof.
  intros Hw. induction k as [|k IH]; [cbn; lia |].
  rewrite offsets_succ, marquee_next_eq.
  destruct ((_ <=? 0) && (_ <? w)) eqn:E; lia.
Qed.

(** Every window the marquee draws for a song is as wide as the display:
    for the title line and for the artist/album line built from an
    announcement, on every pass from the start position 16, the message
    drawn has 16 characters. *)
Theorem marquee_window_always_full :
  (forall title y k,
      exists m,
        snd (marquee (fst (title_marquee title))
                     (offsets (fst (title_marquee title)) y
                              (snd (title_marquee title)) 16 k)
                     y (snd (title_marquee title)))
        = [LcdSetCursor 0 y; LcdMessage m] /\
        Py.len m = 16)
  /\
  (forall artist album y k,
      exists m,
        snd (marquee (fst (info_marquee artist album))
                     (offsets (fst (info_marquee artist album)) y
                              (snd (info_marquee artist album)) 16 k)
                     y (snd (info_marquee artist album)))
        = [LcdSetCursor 0 y; LcdMessage m] /\
        Py.len m = 16).
Proof.
  split.
  - intros title y k.
    destruct (title_marquee_shape title) as (Hn & E & HL).
    set (n := Py.len (title +++ "    ")) in *.
    assert (Hw : snd (title_marquee title) = - n + 2) by now rewrite E.
    assert (Hpos : 0 <= Py.len title) by (unfold Py.len; lia).
    pose proof (offsets_range (fst (title_marquee title)) y
                  (snd (title_marquee title)) k ltac:(lia)) as Hr.
    apply marquee_window; lia.
  - intros artist album y k.
    destruct (info_marquee_shape artist album) as (Hn & E & HL).
    set (n := Py.len (artist +++ " < " +++ album +++ " > ")) in *.
    assert (Hw : snd (info_marquee artist album) = - n + 2) by now rewrite E.
    assert (Hpos : 0 <= Py.len artist + Py.len album)
      by (unfold Py.len; lia).
    pose proof (offsets_range (fst (info_marquee artist album)) y
                  (snd (info_marquee artist album)) k ltac:(lia)) as Hr.
    apply marquee_window; lia.
Qed.

(** A string followed by copies of itself and by its first characters has
    the string's length as a period. *)
Lemma repeat_prefix (s : string) (k : nat) :
  let l := list_ascii_of_string s in
  exists rest,
    l ++ (list_ascii_of_string (Py.repeat_nat s k) ++ firstn 16 l)
    = (list_ascii_of_string (Py.repeat_nat s k) ++ firstn 16 l) ++ rest.
Proof.
  cbv zeta. set (l := list_ascii_of_string s).
  induction k as [|k [rest IH]].
  - exists (skipn 16 l ++ firstn 16 l). cbn [Py.repeat_nat app list_ascii_of_string].
    now rewrite app_assoc, firstn_skipn.
  - exists rest. cbn [Py.repeat_nat]. fold (cat s (Py.repeat_nat s k)).
    rewrite list_of_cat. fold l.
    rewrite <- !app_assoc. rewrite <- !app_assoc in IH.
    now rewrite IH.
Qed.

Lemma window_after_period (s : string) (k : Z) :
  let t := Py.mul s k +++ Py.sslice s 0 16 in
  let n := Py.len s in
  n + 16 <= Py.len t ->
  Py.sslice t n (n + 16) = Py.sslice t 0 16.
Proof.
  cbv zeta. intros HL.
  set (t := Py.mul s k +++ Py.sslice s 0 16) in *.
  set (l := list_ascii_of_string s).
  assert (Hn : Py.len s = Z.of_nat (List.length l)).
  { unfold l, Py.len. now rewrite length_list_of_string. }
  assert (Ht : list_ascii_of_string t
               = list_ascii_of_string (Py.repeat_nat s (Z.to_nat k)) ++
                 firstn 16 l).
  { unfold t, Py.mul, Py.sslice. rewrite list_of_cat.
    rewrite list_ascii_of_string_of_list_ascii, slice_nonneg by lia.
    reflexivity. }
  destruct (repeat_prefix s (Z.to_nat k)) as [rest Hp]. fold l in Hp.
  rewrite <- Ht in Hp.
  set (u := list_ascii_of_string t) in *.
  assert (Hu : Z.of_nat (List.length u) = Py.len t).
  { unfold u, Py.len. now rewrite length_list_of_string. }
  assert (Hs : u = skipn (List.length l) u ++ rest).
  { apply (f_equal (skipn (List.length l))) in Hp.
    rewrite !skipn_app in Hp.
    rewrite skipn_all, Nat.sub_diag in Hp. cbn [skipn app] in Hp.
    replace (List.length l - List.length u)%nat with 0%nat in Hp by lia.
    exact Hp. }
  unfold Py.sslice. fold u. rewrite !slice_nonneg by lia. f_equal.
  replace (Z.to_nat (Py.len s + 16 - Py.len s)) with 16%nat by lia.
  replace (Z.to_nat (16 - 0)) with 16%nat by lia.
  replace (Z.to_nat (Py.len s)) with (List.length l) by lia.
  cbn [Z.to_nat skipn].
  rewrite Hs at 2. rewrite firstn_app.
  replace (16 - List.length (skipn (List.length l) u))%nat with 0%nat
    by (rewrite length_skipn; lia).
  cbn [firstn]. now rewrite app_nil_r.
Qed.

(** The loop has no seam: in the marquee string of a title, and of an
    artist and album, the window one step past the last one drawn (at the
    length [n] of the padded text) is the window at 0, where the position
    is reset to; the string is at least [n + 16] long, so that window
    exists. *)
Theorem marquee_loops_without_seam :
  (forall title,
      let t := fst (title_marquee title) in
      let n := Py.len title + 4 in
      snd (title_marquee title) = - n + 2 /\
      n + 16 <= Py.len t /\
      Py.sslice t n (n + 16) = Py.sslice t 0 16)
  /\
  (forall artist album,
      let t := fst (info_marquee artist album) in
      let n := Py.len artist + Py.len album + 6 in
      snd (info_marquee artist album) = - n + 2 /\
      n + 16 <= Py.len t /\
      Py.sslice t n (n + 16) = Py.sslice t 0 16).
Proof.
  split.
  - intros title. cbv zeta.
    destruct (title_marquee_shape title) as (Hn & E & HL).
    rewrite <- Hn.
    split; [now rewrite E | split; [exact HL |]].
    rewrite E in *. cbn [fst] in *.
    now apply window_after_period.
  - intros artist album. cbv zeta.
    destruct (info_marquee_shape artist album) as (Hn & E & HL).
    rewrite <- Hn.
    split; [now rewrite E | split; [exact HL |]].
    rewrite E in *. cbn [fst] in *.
    now apply window_after_period.
Qed.

(** ** Drawing the station menu *)

Lemma draw_rows_cons (now : Q) (new top x : Z) (bt : Q) (last : Z)
  (s : string) (rest : list string) (line : Z) (msg : string) (ret : Z) :
  draw_rows now new top x bt last (s :: rest) line msg ret
  = let '(cell, ret') := row_cell now new top x bt line s ret in
    if line + 1 =? last then (msg +++ cell, ret')
    else draw_rows now new top x bt last rest (line + 1)
                   ((msg +++ cell) +++ Py.chr 10) ret'.
Proof. reflexivity. Qed.

Lemma len_clip15 (s : string) : Py.len (clip15 s) = 15.
Proof.
  unfold clip15. cbv zeta.
  assert (0 <= Py.len s) by (unfold Py.len; lia).
  destruct (Py.len s <? 15) eqn:E.
  - rewrite len_cat, len_mul, len_sslice by lia.
    change (Py.len " ") with 1. lia.
  - rewrite len_sslice by lia. lia.
Qed.

(** A row is 16 characters wide, and the value to return is the one
    passed in, or the scroll position less one, not below the end of the
    loop of the highlighted name. *)
Lemma row_cell_props (now : Q) (new top x : Z) (bt : Q) (line : Z)
  (s : string) (ret : Z) :
  (top + line = new -> - (Py.len s + 2) <= x <= 0) ->
  Py.len (fst (row_cell now new top x bt line s ret)) = 16 /\
  (snd (row_cell now new top x bt line s ret) = ret \/
   (top + line = new /\
    - (Py.len s + 2) <= snd (row_cell now new top x bt line s ret) <= 0)).
Proof.
  intros Hx. unfold row_cell. cbv zeta.
  assert (H0 : 0 <= Py.len s) by (unfold Py.len; lia).
  destruct (top + line =? new) eqn:E.
  - apply Z.eqb_eq in E. specialize (Hx E).
    destruct (Py.len s >? 15) eqn:EL.
    + destruct (Py.lt _ _); cbn [fst snd].
      * rewrite len_cat, len_sslice by lia.
        change (Py.len (Py.chr 7)) with 1. split; [lia | now left].
      * rewrite len_cat, len_sslice, !len_cat, len_sslice by lia.
        change (Py.len (Py.chr 7)) with 1. change (Py.len "   ") with 3.
        split; [lia |].
        destruct (x >? - (Py.len s + 2)) eqn:Ex; [right; lia | now left].
    + cbn [fst snd]. rewrite len_cat, len_clip15.
      change (Py.len (Py.chr 7)) with 1. split; [lia | now left].
  - cbn [fst snd]. rewrite len_cat, len_clip15.
    change (Py.len " ") with 1. split; [lia | now left].
Qed.

Lemma slice_two {A : Type} (l : list A) (top : Z) :
  0 <= top -> top + 2 <= Z.of_nat (List.length l) ->
  exists a b,
    Py.slice l top (top + 2) = [a; b] /\
    Py.index l top = Some a /\ Py.index l (top + 1) = Some b.
Proof.
  intros H0 H2. rewrite slice_nonneg by lia.
  rewrite !index_nonneg by lia.
  replace (Z.to_nat (top + 2 - top)) with 2%nat by lia.
  replace (Z.to_nat (top + 1)) with (Z.to_nat top + 1)%nat by lia.
  pose proof (nth_error_skipn (Z.to_nat top) l 0) as N0.
  pose proof (nth_error_skipn (Z.to_nat top) l 1) as N1.
  rewrite Nat.add_0_r in N0.
  pose proof (length_skipn (Z.to_nat top) l) as HL.
  destruct (skipn (Z.to_nat top) l) as [|a [|b rest]]; cbn in HL; try lia.
  exists a, b. cbn in N0, N1. now rewrite <- N0, <- N1.
Qed.

(** The menu drawn on a window in place: one message at the top left of
    the display, of two rows of 16 characters with a newline between
    them, or of one row when the list has a single station; the value
    returned is a scroll position within the loop of the highlighted
    name. *)
Lemma draw_stations_window (l : list string) (now : Q) (new top x : Z)
  (bt : Q) (name : string) :
  0 <= top -> top <= new <= top + 1 ->
  (top + 2 <= Z.of_nat (List.length l) \/
   (Z.of_nat (List.length l) = 1 /\ top = 0)) ->
  Py.index l new = Some name ->
  - (Py.len name + 2) <= x <= 0 ->
  exists msg,
    snd (draw_stations l now new top x bt)
    = [LcdSetCursor 0 0; LcdMessage msg] /\
    Py.len msg = (if Z.of_nat (List.length l) =? 1 then 16 else 33) /\
    - (Py.len name + 2) <= fst (draw_stations l now new top x bt) <= 0.
Proof.
  intros H0 Hnew Hwin Hname Hx. unfold draw_stations. cbv zeta.
  destruct Hwin as [H2 | [H1 ->]].
  - destruct (slice_two l top H0 H2) as (a & b & -> & Ha & Hb).
    assert (Hlast : (if Z.of_nat (List.length l) >? 2 then 2
                     else Z.of_nat (List.length l)) = 2).
    { destruct (_ >? 2) eqn:E; lia. }
    rewrite Hlast, draw_rows_cons.
    pose proof (row_cell_props now new top x bt 0 a 0) as Pa.
    destruct (row_cell now new top x bt 0 a 0) as [c0 r0]. cbn [fst snd] in Pa.
    cbn [Z.add Z.eqb Pos.eqb]. rewrite draw_rows_cons.
    pose proof (row_cell_props now new top x bt 1 b r0) as Pb.
    destruct (row_cell now new top x bt 1 b r0) as [c1 r1]. cbn [fst snd] in Pb.
    cbn [Z.add Z.eqb Pos.eqb Pos.add]. cbn [fst snd].
    exists (((EmptyString +++ c0) +++ Py.chr 10) +++ c1).
    split; [reflexivity |].
    destruct Pa as (La & Ra).
    { intros E. replace new with top in * by lia.
      rewrite Ha in Hname. inversion Hname; subst. exact Hx. }
    destruct Pb as (Lb & Rb).
    { intros E. rewrite <- E, Hb in Hname. inversion Hname; subst. exact Hx. }
    split.
    + rewrite !len_cat, La, Lb. change (Py.len (Py.chr 10)) with 1.
      change (Py.len EmptyString) with 0.
      destruct (_ =? 1) eqn:E; lia.
    + assert (Hn0 : 0 <= Py.len name) by (unfold Py.len; lia).
      destruct Rb as [-> | [Eb Rb]].
      * destruct Ra as [-> | [Ea Ra]]; [lia |].
        replace new with top in * by lia.
        rewrite Ha in Hname. inversion Hname; subst. lia.
      * rewrite <- Eb, Hb in Hname. inversion Hname; subst. lia.
  - destruct l as [|a [|b l]]; cbn [List.length] in H1; try lia.
    assert (new = 0) as ->.
    { assert (Hc : new = 0 \/ new = 1) by lia.
      destruct Hc as [-> | ->]; [reflexivity | discriminate Hname]. }
    cbn in Hname. inversion Hname; subst.
    change (Py.slice [name] 0 (0 + 2)) with [name].
    change (if Z.of_nat (List.length [name]) >? 2 then 2
            else Z.of_nat (List.length [name])) with 1.
    rewrite draw_rows_cons.
    pose proof (row_cell_props now 0 0 x bt 0 name 0 ltac:(intros _; exact Hx))
      as (La & Ra).
    destruct (row_cell now 0 0 x bt 0 name 0) as [c0 r0]. cbn [fst snd] in *.
    cbn [Z.add Z.eqb Pos.eqb]. cbn [fst snd].
    exists (EmptyString +++ c0). split; [reflexivity |].
    split.
    + rewrite len_cat, La. reflexivity.
    + assert (Hn0 : 0 <= Py.len name) by (unfold Py.len; lia).
      destruct Ra as [-> | [_ Ra]]; lia.
Qed.

Lemma window_ok_same (s s' : state) :
  station_list s' = station_list s ->
  station_new (mn s') = station_new (mn s) ->
  list_top (mn s') = list_top (mn s) ->
  x_station (mn s') = x_station (mn s) ->
  window_ok s -> window_ok s'.
Proof. unfold window_ok. cbv zeta. now intros -> -> -> ->. Qed.

(** The window after the menu was drawn at a cursor in place and the value
    returned was stored as the scroll position *)
Lemma window_ok_drawn (s : state) (now : Q) (num new cy top x : Z)
  (bt bt' : Q) :
  0 <= top -> top <= new <= top + 1 ->
  0 <= new < Z.of_nat (List.length (station_list s)) ->
  (top + 2 <= Z.of_nat (List.length (station_list s)) \/
   (Z.of_nat (List.length (station_list s)) = 1 /\ top = 0)) ->
  (forall name, Py.index (station_list s) new = Some name ->
                - (Py.len name + 2) <= x <= 0) ->
  window_ok
    (let '(ret, acts) := draw_stations (station_list s) now new top x bt in
     emit acts (with_mn (mkMenu num new cy top ret bt') s)).
Proof.
  intros H0 Hnew Hr Hwin Hx.
  destruct (index_in_range (station_list s) new Hr) as [name Hname].
  destruct (draw_stations_window (station_list s) now new top x bt name
              H0 Hnew Hwin Hname (Hx name Hname)) as (msg & _ & _ & Hret).
  destruct (draw_stations _ _ _ _ _ _) as [ret acts]. cbn [fst] in Hret.
  unfold window_ok. cbn. split; [exact Hwin |]. now exists name.
Qed.

Lemma buttons_window (i : input) (s : state) :
  menu_ok s -> window_ok s ->
  match buttons i s with Ok s' => window_ok s' | _ => True end.
Proof.
  intros Hm Hw. unfold buttons.
  destruct (btn_sel i).
  { destruct (sel_hold i); [exact I |].
    apply (window_ok_same s); try assumption;
      unfold on_select; repeat (break_match; try reflexivity). }
  destruct (btn_right i).
  { apply (window_ok_same s); try assumption;
      unfold on_right; repeat (break_match; try reflexivity). }
  unfold menu_ok in Hm. destruct Hm as (Hn1 & Hlen & Ht0 & Hcy & Hnew & Hlast).
  destruct (btn_left i).
  { unfold on_left. destruct (sta_sel (mode s)); cbn [negb].
    - destruct (Py.index (station_ids s) (station_new (mn s))); [| exact I].
      apply (window_ok_same s); try assumption; reflexivity.
    - pose proof (window_ok_drawn s (now i) (station_num (mn s)) 0 0 0 0
                    (now i) (now i)) as Hd.
      destruct (index_in_range (station_list s) 0 ltac:(lia)) as [n0 Hn0].
      assert (Hlen0 : forall name : string, 0 <= Py.len name)
        by (intros; unfold Py.len; lia).
      specialize (Hd ltac:(lia) ltac:(lia) ltac:(lia) ltac:(lia)).
      specialize (Hd ltac:(intros name _; specialize (Hlen0 name); lia)).
      destruct (draw_stations (station_list s) (now i) 0 0 0 (now i))
        as [ret acts] eqn:Ed.
      unfold window_ok in *. cbn in *. split; [lia |].
      exists n0. split; [exact Hn0 |]. specialize (Hlen0 n0). lia. }
  destruct (btn_up i || btn_down i).
  { destruct (sta_sel (mode s)).
    - unfold on_updown_menu. destruct Hw as (Hwin & _).
      assert (Hlen0 : forall name : string, 0 <= Py.len name)
        by (intros; unfold Py.len; lia).
      destruct (btn_down i).
      + destruct (station_new (mn s) <? _) eqn:E1.
        * destruct (cursorY (mn s) <? 1) eqn:E2;
            apply window_ok_drawn; try lia;
            intros name _; specialize (Hlen0 name); lia.
        * apply window_ok_drawn; try lia;
            intros name _; specialize (Hlen0 name); lia.
      + destruct (station_new (mn s) >? 0) eqn:E1.
        * destruct (cursorY (mn s) >? 0) eqn:E2;
            apply window_ok_drawn; try lia;
            intros name _; specialize (Hlen0 name); lia.
        * apply window_ok_drawn; try lia;
            intros name _; specialize (Hlen0 name); lia.
    - apply (window_ok_same s); try assumption;
        unfold on_updown_volume; repeat (break_match; try reflexivity). }
  unfold on_idle. destruct (sta_sel (mode s)).
  - destruct (Py.index (station_list s) (station_new (mn s))) as [name |] eqn:En;
      [| exact I].
    destruct (Py.len name >? 15); [| exact Hw].
    destruct Hw as (Hwin & name' & Hn' & Hx').
    rewrite En in Hn'. inversion Hn'; subst name'.
    pose proof (window_ok_drawn s (now i) (station_num (mn s))
                  (station_new (mn s)) (cursorY (mn s)) (list_top (mn s))
                  (x_station (mn s)) (sta_btn_time (mn s))
                  (sta_btn_time (mn s))) as Hd.
    specialize (Hd ltac:(lia) ltac:(lia) ltac:(lia) Hwin).
    assert (Hx2 : forall name2,
               Py.index (station_list s) (station_new (mn s)) = Some name2 ->
               - (Py.len name2 + 2) <= x_station (mn s) <= 0).
    { intros name2 H2. rewrite En in H2. inversion H2; subst. exact Hx'. }
    specialize (Hd Hx2).
    destruct (draw_stations _ _ _ _ _ _) as [ret acts]. exact Hd.
  - destruct (vol_set (mode s)); [| exact Hw].
    destruct (Py.ge _ _).
    + apply (window_ok_same s); try assumption;
        destruct (paused (mode s)); reflexivity.
    + apply (window_ok_same s); try assumption; reflexivity.
Qed.

Lemma tick_window (i : input) (s s' : state) :
  menu_ok s /\ window_ok s -> tick i s = Ok s' ->
  menu_ok s' /\ window_ok s'.
Proof.
  intros (Hm & Hw) Ht. split; [eapply tick_menu_ok; eassumption |].
  apply tick_phases in Ht as (s2 & Hb & ->).
  pose proof (receive_controls s (incoming i)) as (_ & _ & Hg & Hsl & Hsi).
  set (r := process_output _) in *.
  pose proof (buttons_window i r) as Hk. rewrite Hb in Hk.
  apply (window_ok_same s2);
    try (now rewrite always_on_mn);
    try (now destruct (always_on_stations (now i) s2)).
  apply Hk.
  - unfold menu_ok in *. now rewrite Hg, Hsl, Hsi.
  - apply (window_ok_same s); try assumption; now rewrite Hg.
Qed.

Lemma startup_window (pk : pickle) (lines : list string) (s0 : state) :
  startup pk lines = Ok s0 -> menu_ok s0 /\ window_ok s0.
Proof.
  intros H. pose proof (startup_menu_ok pk lines s0 H) as Hm.
  split; [exact Hm |].
  apply startup_shape in H as (num & id & _ & ->).
  unfold menu_ok in Hm. cbn in Hm. unfold window_ok. cbn.
  split; [lia |].
  destruct (index_in_range (fst (get_stations lines)) 0 ltac:(lia))
    as [name Hn].
  exists name. split; [exact Hn |]. unfold Py.len. lia.
Qed.

(** In every state a run reaches, the menu window holds two stations when
    the list has two or more ([list_top + 2 <= len]; with a single station
    it starts at 0), and the scroll position of the highlighted name is
    between the end of its loop, [-(len(name) + 2)], and 0. *)
Theorem menu_window_in_place :
  forall pk lines s0 ins s,
    startup pk lines = Ok s0 -> run ins s0 = Ok s ->
    let n := Z.of_nat (List.length (station_list s)) in
    (list_top (mn s) + 2 <= n \/ (n = 1 /\ list_top (mn s) = 0)) /\
    exists name,
      Py.index (station_list s) (station_new (mn s)) = Some name /\
      - (Py.len name + 2) <= x_station (mn s) <= 0.
Proof.
  intros pk lines s0 ins s Hs Hrun.
  destruct (run_invariant (fun s => menu_ok s /\ window_ok s) tick_window
              ins s0 s (startup_window pk lines s0 Hs) Hrun) as (_ & Hw).
  exact Hw.
Qed.

(** On the run that ends in the menu on the second station *)
Lemma menu_window_in_place_witness :
  let n := Z.of_nat (List.length (station_list menu_end)) in
  (list_top (mn menu_end) + 2 <= n \/ (n = 1 /\ list_top (mn menu_end) = 0)) /\
  exists name,
    Py.index (station_list menu_end) (station_new (mn menu_end)) = Some name /\
    - (Py.len name + 2) <= x_station (mn menu_end) <= 0.
Proof.
  apply (menu_window_in_place low_pickle demo_lines low_start menu_inputs
                              menu_end);
    vm_compute; reflexivity.
Defined.

(** The station menu fills the display: drawn in any state a run reaches,
    at any time, it is one message at the top left, two rows of 16
    characters with a newline between them (33 characters), or one row of
    16 when there is a single station; and the scroll position it returns
    stays within the loop of the highlighted name. *)
Theorem menu_drawn_full_width :
  forall pk lines s0 ins s t,
    startup pk lines = Ok s0 -> run ins s0 = Ok s ->
    exists msg name,
      snd (draw_stations (station_list s) t (station_new (mn s))
                         (list_top (mn s)) (x_station (mn s))
                         (sta_btn_time (mn s)))
      = [LcdSetCursor 0 0; LcdMessage msg] /\
      Py.len msg
      = (if Z.of_nat (List.length (station_list s)) =? 1 then 16 else 33) /\
      Py.index (station_list s) (station_new (mn s)) = Some name /\
      - (Py.len name + 2)
      <= fst (draw_stations (station_list s) t (station_new (mn s))
                            (list_top (mn s)) (x_station (mn s))
                            (sta_btn_time (mn s)))
      <= 0.
Proof.
  intros pk lines s0 ins s t Hs Hrun.
  destruct (run_invariant (fun s => menu_ok s /\ window_ok s) tick_window
              ins s0 s (startup_window pk lines s0 Hs) Hrun) as (Hm & Hw).
  unfold menu_ok in Hm. destruct Hm as (_ & _ & Ht0 & Hcy & Hnew & _).
  destruct Hw as (Hwin & name & Hname & Hx).
  destruct (draw_stations_window (station_list s) t (station_new (mn s))
              (list_top (mn s)) (x_station (mn s)) (sta_btn_time (mn s)) name)
    as (msg & Hd & Hl & Hr); try assumption; try lia.
  now exists msg, name.
Qed.

(** The menu of that state drawn at time 8 *)
Lemma menu_drawn_full_width_witness :
  exists msg name,
    snd (draw_stations (station_list menu_end) 8 (station_new (mn menu_end))
                       (list_top (mn menu_end)) (x_station (mn menu_end))
                       (sta_btn_time (mn menu_end)))
    = [LcdSetCursor 0 0; LcdMessage msg] /\
    Py.len msg
    = (if Z.of_nat (List.length (station_list menu_end)) =? 1 then 16 else 33) /\
    Py.index (station_list menu_end) (station_new (mn menu_end)) = Some name /\
    - (Py.len name + 2)
    <= fst (draw_stations (station_list menu_end) 8 (station_new (mn menu_end))
                          (list_top (mn menu_end)) (x_station (mn menu_end))
                          (sta_btn_time (mn menu_end)))
    <= 0.
Proof.
  apply (menu_drawn_full_width low_pickle demo_lines low_start menu_inputs
                               menu_end 8);
    vm_compute; reflexivity.
Defined.

(** ** [shutdown] *)

Lemma halt_keys_app (a b : list halt_action) :
  halt_keys (a ++ b) = halt_keys a + halt_keys b.
Proof.
  induction a as [|x a IH]; [reflexivity |].
  destruct x; cbn [app halt_keys]; lia.
Qed.

Lemma halt_sleep_app (a b : list halt_action) :
  (halt_sleep (a ++ b) == halt_sleep a + halt_sleep b)%Q.
Proof.
  induction a as [|x a IH]; cbn [app halt_sleep]; [ring |].
  destruct x; cbn [halt_sleep]; rewrite ?IH; ring.
Qed.

Lemma ramp_totals (k : nat) (pause : Q) :
  halt_keys (ramp k pause) = Z.of_nat k /\
  (halt_sleep (ramp k pause) == inject_Z (Z.of_nat k) * pause)%Q.
Proof.
  induction k as [|k [IHk IHs]]; [split; [reflexivity | cbn; ring] |].
  cbn [ramp halt_keys halt_sleep]. rewrite IHk, IHs. split.
  - change (key_steps "(") with (-1). lia.
  - rewrite Nat2Z.inj_succ. unfold Z.succ. rewrite inject_Z_plus. ring.
Qed.

(** On a number that is not negative [int] rounds down. *)
Lemma int_floor (q : Q) : (0 <= q)%Q -> (inject_Z (Py.int q) <= q)%Q.
Proof.
  destruct q as [a d]. unfold Py.int, Qle, inject_Z. cbn [Qnum Qden].
  intros H. pose proof (Z.mul_quot_le a (Zpos d)). lia.
Qed.

(** With [HALT_ON_EXIT] left at [False], [shutdown] clears the display and
    leaves through [exit(0)].  With it set, and the current volume in
    range, it ends normally.  The number of steps is between 1 and 36, so
    [5.0 / steps] divides by no zero; it is above [vol_cur - VOL_MIN] by at
    most 2, and for a volume of [k] quarters it is [(k + 82) / 4] truncated
    and one more.  One volume-down key is sent for each step.  The time
    slept is 5.5 seconds to the millisecond, 5 for the ramp whatever the
    number of steps and 0.5 in [clean_exit]; power-off is the last thing
    done. *)
Theorem shutdown_ramps_volume_down :
  (forall v, shutdown false v = ([HClear], Exit)) /\
  (forall v,
      in_range v ->
      exists acts steps,
        shutdown true v = (acts, Ok tt) /\
        1 <= steps <= 36 /\
        (v - VOL_MIN < inject_Z steps)%Q /\
        (inject_Z steps <= v - VOL_MIN + 2)%Q /\
        (forall k, (v == k # 4)%Q -> steps = Z.quot (k + 82) 4 + 1) /\
        halt_keys acts = steps /\
        ((11 # 2) - (1 # 1000) <= halt_sleep acts)%Q /\
        (halt_sleep acts <= (11 # 2) + (1 # 1000))%Q /\
        last acts HClear = HPowerOff).
Proof.
  split; [reflexivity |].
  intros v Hv. destruct (vol_int_range v Hv) as (Hr & _).
  unfold shutdown. fold (vol_int v). cbv zeta.
  replace (vol_int v + 1 =? 0) with false by lia.
  eexists. exists (vol_int v + 1).
  split; [reflexivity |]. split; [lia |].
  destruct (ramp_totals (Z.to_nat (vol_int v + 1))
                        (5 / inject_Z (vol_int v + 1))) as (Hk & Hs).
  assert (Hsleep : (halt_sleep
                      ([HClear;
                        HMessage ("Wait 30 seconds" +++ Py.chr 10 +++
                                  "to unplug...")] ++
                       ramp (Z.to_nat (vol_int v + 1))
                            (5 / inject_Z (vol_int v + 1)) ++
                       [HSync] ++ clean_exit true true ++ [HPowerOff])
                    == 11 # 2)%Q).
  { cbn [app halt_sleep]. rewrite halt_sleep_app, Hs.
    cbn [clean_exit app halt_sleep].
    rewrite Z2Nat.id by lia.
    assert (Hne : ~ (inject_Z (vol_int v + 1) == 0)%Q).
    { unfold Qeq, inject_Z. cbn. lia. }
    field. exact Hne. }
  assert (Hq : (0 <= (v - VOL_MIN) + (1 # 2))%Q).
  { destruct Hv as [Hlo _]. unfold VOL_MIN in *. lra. }
  pose proof (int_floor _ Hq) as Hfl.
  destruct (int_near ((v - VOL_MIN) + (1 # 2))) as [Hlow _].
  fold (vol_int v) in Hfl, Hlow.
  assert (Hinj : (inject_Z (vol_int v + 1) == inject_Z (vol_int v) + 1)%Q)
    by (rewrite inject_Z_plus; reflexivity).
  unfold VOL_MIN in Hfl, Hlow.
  split; [rewrite Hinj; unfold VOL_MIN; lra |].
  split; [rewrite Hinj; unfold VOL_MIN; lra |].
  split; [| split; [| split; [| split]]].
  - intros k Hk4. f_equal. unfold vol_int.
    rewrite (int_Qeq _ ((k + 82) # 4)); [reflexivity |].
    rewrite Hk4. unfold VOL_MIN, Qeq. simpl. lia.
  - cbn [app halt_keys]. rewrite halt_keys_app, Hk. cbn. lia.
  - rewrite Hsleep. lra.
  - rewrite Hsleep. lra.
  - match goal with
    | |- last (?a ++ ?r ++ ?c ++ ?d ++ _) _ = _ =>
        replace (a ++ r ++ c ++ d ++ [HPowerOff])
          with ((a ++ r ++ c ++ d) ++ [HPowerOff])
          by (now rewrite <- !app_assoc)
    end.
    apply last_last.
Qed.

(** At the default volume: 21 steps *)
Lemma shutdown_ramps_volume_down_witness :
  exists acts,
    shutdown true VOL_DEFAULT = (acts, Ok tt) /\
    halt_keys acts = 21 /\
    last acts HClear = HPowerOff.
Proof.
  destruct (proj2 shutdown_ramps_volume_down VOL_DEFAULT)
    as (acts & steps & Ha & _ & _ & _ & Hk & Hkeys & _ & _ & Hl).
  - unfold in_range, VOL_MIN, VOL_MAX, VOL_DEFAULT.
    split; unfold Qle; simpl; lia.
  - exists acts. rewrite (Hk 0) in Hkeys by reflexivity.
    split; [exact Ha |]. split; [exact Hkeys | exact Hl].
Defined.
